(** * JPYCv2 deployment and administration tasks

    A shallow embedding of the Hardhat tasks of the repository
    ([tasks/deploy.js], [tasks/actions.js], [tasks/admin.js]) and the
    properties of their address and amount normalizers, parameter loader,
    deployment orchestration, deployment record store and command handlers.

    JavaScript values are an inductive type, strings are sequences of code
    units below 256, exceptions are the [Throw] case of [Result], and the
    file system, the environment, the console and the calls made on the
    token contract are fields of an explicit [World] threaded through the
    handlers.  Everything the tasks obtain from [hre.ethers], [upgrades],
    [JSON] and the chain is a method of a type class. *)

From Stdlib Require Import ZArith String Ascii List Bool Lia DecimalString.
From stdpp Require Import base option list gmap strings.

Set Warnings "-register-all".
Local Open Scope string_scope.
Local Open Scope Z_scope.

(** ** JavaScript values, strings and exceptions *)

Module Js.

(** A JavaScript number as the tasks observe it: [Number.isInteger] holds
    exactly on [NumInt], whose argument is the integer it denotes.
    [NumNonInt] stands for every other double (a fraction, [NaN], an
    infinity) and carries its [String()] rendering. *)
Inductive JsNumber : Type :=
  | NumInt (z : Z)
  | NumNonInt (text : string).

(** Objects are association lists in insertion order, as [JSON.stringify]
    and [Object.keys] see them.  [VNative] is a value inherited from
    [Object.prototype] (a built-in function or the prototype itself), kept
    by the text [String()] gives for it. *)
Inductive JsValue : Type :=
  | VUndefined
  | VNull
  | VBool (b : bool)
  | VNum (n : JsNumber)
  | VStr (s : string)
  | VArr (items : list JsValue)
  | VObj (props : list (string * JsValue))
  | VNative (text : string).

Inductive Error : Type :=
  | JsError (message : string)       (* throw new Error(message) *)
  | TypeError (message : string)     (* raised by the language itself *)
  | SyntaxError (message : string)   (* JSON.parse *)
  | LibError (message : string).     (* raised inside ethers, upgrades or the chain *)

Inductive Result (A : Type) : Type :=
  | OK (a : A)
  | Throw (e : Error).
Arguments OK {A} a.
Arguments Throw {A} e.

(** What a call into a library (ethers, the upgrades plugin, the chain, the
    built-in [JSON]) gives back: a value, or an exception of the library's
    own with its message. *)
Inductive Outcome (A : Type) : Type :=
  | Returns (a : A)
  | Fails (message : string).
Arguments Returns {A} a.
Arguments Fails {A} message.

(** A library call inside a task: its exception propagates as it is. *)
Definition lib {A} (o : Outcome A) : Result A :=
  match o with Returns a => OK a | Fails m => Throw (LibError m) end.

(** [JSON.parse]: its exception is a [SyntaxError]. *)
Definition parsed_json {A} (o : Outcome A) : Result A :=
  match o with Returns a => OK a | Fails m => Throw (SyntaxError m) end.

Definition is_ok {A} (r : Result A) : bool :=
  match r with OK _ => true | Throw _ => false end.

Definition bindR {A B} (r : Result A) (k : A -> Result B) : Result B :=
  match r with OK a => k a | Throw e => Throw e end.

(** *** Characters *)

Definition code (c : ascii) : N := N_of_ascii c.

(** [WhiteSpace] and [LineTerminator] code units below 256:
    TAB, LF, VT, FF, CR, SP and NBSP. *)
Definition is_whitespace (c : ascii) : bool :=
  let n := code c in
  (((9 <=? n) && (n <=? 13)) || (n =? 32) || (n =? 160))%N.

(** [toLowerCase] on one code unit below 256: A-Z, and the Latin-1 capitals
    U+00C0..U+00DE except the multiplication sign U+00D7. *)
Definition lower_ascii (c : ascii) : ascii :=
  let n := code c in
  if (((65 <=? n) && (n <=? 90))
      || ((192 <=? n) && (n <=? 222) && negb (n =? 215)))%N
  then ascii_of_N (n + 32) else c.

Definition is_digit (c : ascii) : bool :=
  let n := code c in ((48 <=? n) && (n <=? 57))%N.

Definition is_hex_digit (c : ascii) : bool :=
  let n := code c in
  (((48 <=? n) && (n <=? 57)) || ((65 <=? n) && (n <=? 70))
   || ((97 <=? n) && (n <=? 102)))%N.

Fixpoint all_chars (p : ascii -> bool) (s : string) : bool :=
  match s with
  | EmptyString => true
  | String c r => p c && all_chars p r
  end.

Fixpoint toLowerCase (s : string) : string :=
  match s with
  | EmptyString => EmptyString
  | String c r => String (lower_ascii c) (toLowerCase r)
  end.

Fixpoint trimStart (s : string) : string :=
  match s with
  | EmptyString => EmptyString
  | String c r => if is_whitespace c then trimStart r else s
  end.

Fixpoint trimEnd (s : string) : string :=
  match s with
  | EmptyString => EmptyString
  | String c r =>
      match trimEnd r with
      | EmptyString => if is_whitespace c then EmptyString else String c EmptyString
      | r' => String c r'
      end
  end.

Definition trim (s : string) : string := trimEnd (trimStart s).

(** [s.replace(/[:]/g, '-')] *)
Fixpoint replace_colons (s : string) : string :=
  match s with
  | EmptyString => EmptyString
  | String c r =>
      String (if Ascii.eqb c ":" then "-"%char else c) (replace_colons r)
  end.

Fixpoint join (sep : string) (parts : list string) : string :=
  match parts with
  | [] => ""
  | [p] => p
  | p :: rest => p +:+ sep +:+ join sep rest
  end.

Fixpoint startsWith (prefix s : string) : bool :=
  match prefix, s with
  | EmptyString, _ => true
  | String a p, String b r => Ascii.eqb a b && startsWith p r
  | String _ _, EmptyString => false
  end.

(** *** Conversions *)

Definition Z_to_string (z : Z) : string := NilZero.string_of_int (Z.to_int z).

Definition Number_toString (n : JsNumber) : string :=
  match n with
  | NumInt z => Z_to_string z
  | NumNonInt text => text
  end.

(** [String(v)], also what a template literal does with [v].  An element of
    an array that is [undefined] or [null] joins as the empty string; an
    integer prints as its decimal digits, as JavaScript prints it below
    10^21. *)
Fixpoint ToString (v : JsValue) : string :=
  match v with
  | VUndefined => "undefined"
  | VNull => "null"
  | VBool true => "true"
  | VBool false => "false"
  | VNum n => Number_toString n
  | VStr s => s
  | VArr items =>
      join "," (map (fun x => match x with
                              | VUndefined | VNull => ""
                              | _ => ToString x
                              end) items)
  | VObj _ => "[object Object]"
  | VNative text => text
  end.

(** Truthiness, the test of [if (v)], [!v], [a || b] and [a && b]. *)
Definition truthy (v : JsValue) : bool :=
  match v with
  | VUndefined | VNull => false
  | VBool b => b
  | VNum (NumInt z) => negb (z =? 0)
  | VNum (NumNonInt text) => negb (String.eqb text "NaN")
  | VStr s => negb (String.eqb s "")
  | VArr _ | VObj _ | VNative _ => true
  end.

(** [a || b] on values. *)
Definition js_or (a b : JsValue) : JsValue := if truthy a then a else b.

(** [v === undefined || v === null] *)
Definition nullish (v : JsValue) : bool :=
  match v with VUndefined | VNull => true | _ => false end.

(** *** Property lookup *)

Fixpoint assoc (k : string) (props : list (string * JsValue)) : option JsValue :=
  match props with
  | [] => None
  | (k', v) :: rest => if String.eqb k k' then Some v else assoc k rest
  end.

(** The members of [Object.prototype] that every object literal inherits,
    with the text [String()] gives for each. *)
Definition object_prototype : list (string * JsValue) :=
  [ ("constructor", VNative "function Object() { [native code] }");
    ("__proto__", VNative "[object Object]");
    ("hasOwnProperty", VNative "function hasOwnProperty() { [native code] }");
    ("isPrototypeOf", VNative "function isPrototypeOf() { [native code] }");
    ("propertyIsEnumerable", VNative "function propertyIsEnumerable() { [native code] }");
    ("toLocaleString", VNative "function toLocaleString() { [native code] }");
    ("toString", VNative "function toString() { [native code] }");
    ("valueOf", VNative "function valueOf() { [native code] }");
    ("__defineGetter__", VNative "function __defineGetter__() { [native code] }");
    ("__defineSetter__", VNative "function __defineSetter__() { [native code] }");
    ("__lookupGetter__", VNative "function __lookupGetter__() { [native code] }");
    ("__lookupSetter__", VNative "function __lookupSetter__() { [native code] }") ].

(** [o[k]] on an object built by a literal or by [JSON.parse]: the own
    property, else the inherited one, else [undefined]. *)
Definition obj_get (props : list (string * JsValue)) (k : string) : JsValue :=
  match assoc k props with
  | Some v => v
  | None =>
      match assoc k object_prototype with
      | Some v => v
      | None => VUndefined
      end
  end.

(** [v[k]] for the field names the tasks read ([proxy] and the required
    parameter fields): reading a property of [undefined] or [null] is a
    [TypeError]; no primitive or array has a member of those names. *)
Definition get (v : JsValue) (k : string) : Result JsValue :=
  match v with
  | VUndefined =>
      Throw (TypeError ("Cannot read properties of undefined (reading '" +:+ k +:+ "')"))
  | VNull =>
      Throw (TypeError ("Cannot read properties of null (reading '" +:+ k +:+ "')"))
  | VObj props => OK (obj_get props k)
  | _ => OK VUndefined
  end.

(** [o[k] = v]: an existing own property keeps its place, a new one goes
    last. *)
Fixpoint obj_set (k : string) (v : JsValue) (props : list (string * JsValue))
  : list (string * JsValue) :=
  match props with
  | [] => [(k, v)]
  | (k', v') :: rest =>
      if String.eqb k k' then (k, v) :: rest else (k', v') :: obj_set k v rest
  end.

End Js.

Export Js.

(** ** The world the tasks run in *)

(** An argument passed to a contract method. *)
Inductive Arg : Type :=
  | ArgAddress (a : string)
  | ArgAmount (v : Z).

(** What a task does that is visible outside of it, in order. *)
Inductive Event : Type :=
  | EvLog (line : string)                         (* console.log *)
  | EvWarn (line : string)                        (* console.warn *)
  | EvChangeNetwork (target : string)             (* hre.changeNetwork *)
  | EvGetContractAt (name address : string)       (* ethers.getContractAt *)
  | EvCall (address : string) (key : string) (args : list Arg)
                                                  (* token[key](...args) *)
  | EvDeployProxy (factory : string) (args : list JsValue)
                  (kind : string) (unsafeAllow : list string)
  | EvUpgradeProxy (proxy factory : string) (kind : string)
                   (call_fn : string) (call_args : list JsValue)
                   (unsafeAllow : list string)
  | EvVerify (address : string).                  (* hre.run('verify:verify') *)

(** The state around a task.  Writing a file and creating a directory
    succeed, and no path is both a file and a directory. *)
Record World : Type := mkWorld {
  files : gmap string string;     (* path |-> utf8 contents *)
  dirs : gset string;             (* directories that exist *)
  env : gmap string string;       (* process.env *)
  network : string;               (* hre.network.name *)
  ticks : nat;                    (* how many times the clock was read *)
  trace : list Event;
}.

Definition with_files (f : gmap string string) (w : World) : World :=
  mkWorld f (dirs w) (env w) (network w) (ticks w) (trace w).
Definition with_dirs (d : gset string) (w : World) : World :=
  mkWorld (files w) d (env w) (network w) (ticks w) (trace w).
Definition with_network (n : string) (w : World) : World :=
  mkWorld (files w) (dirs w) (env w) n (ticks w) (trace w).
Definition with_ticks (t : nat) (w : World) : World :=
  mkWorld (files w) (dirs w) (env w) (network w) t (trace w).
Definition with_trace (t : list Event) (w : World) : World :=
  mkWorld (files w) (dirs w) (env w) (network w) (ticks w) t.

(** A transaction receipt, by its [transactionHash]. *)
Record Receipt : Type := mkReceipt { transactionHash : string }.

(** [hre.ethers]: the address and number utilities, and the chain behind
    the contract objects.  A method that can throw returns an [Outcome]. *)
Class Ethers : Type := {
  isAddress : JsValue -> bool;
  getAddress : JsValue -> Outcome string;
  BigNumber_from : JsValue -> Outcome Z;
  parseUnits : JsValue -> Z -> Outcome Z;
  getContractAt : string -> string -> Outcome unit;
  (* token[key](...args), when [key] names a function of the contract *)
  contract_send : string -> string -> list Arg -> Outcome string;
  (* tx.wait() *)
  tx_wait : string -> Outcome Receipt;
  (* token.signer.getAddress() *)
  signer_getAddress : Outcome string;
  (* the function names of the FiatTokenV2 interface *)
  contract_functions : list string;
}.

(** The JavaScript runtime: [JSON], [Number()] on a string, the clock, and
    the directory [path.join(__dirname, '..', 'deployments')] of the task
    files. *)
Class Runtime : Type := {
  JSON_stringify : JsValue -> string;          (* JSON.stringify(v, null, 2) *)
  JSON_parse : string -> Outcome JsValue;
  StringToNumber : string -> JsNumber;
  toISOString : nat -> string;                 (* new Date().toISOString() at the n-th reading *)
  deployments_dir : string;
  path_resolve_cwd : string -> string;         (* path.resolve(process.cwd(), p) *)
}.

(** [path.join(dir, name)] for a normalized [dir] and a [name] that is one
    path segment (no separator in it, and neither [.] nor [..]). *)
Definition path_join (dir name : string) : string := dir +:+ "/" +:+ name.

(** [Number(v)] *)
Definition ToNumber `{Runtime} (v : JsValue) : JsNumber :=
  match v with
  | VUndefined => NumNonInt "NaN"
  | VNull => NumInt 0
  | VBool true => NumInt 1
  | VBool false => NumInt 0
  | VNum n => n
  | VStr s => StringToNumber s
  | VArr [] => NumInt 0
  | VArr _ => StringToNumber (ToString v)
  | VObj _ | VNative _ => NumNonInt "NaN"
  end.

(** [process.env[k]] *)
Definition getenv (w : World) (k : string) : JsValue :=
  match env w !! k with
  | Some s => VStr s
  | None => VUndefined
  end.

(** *** The monad of the task bodies: a world, and a result or an exception *)

Definition M (A : Type) : Type := World -> Result A * World.

Definition ret {A} (a : A) : M A := fun w => (OK a, w).
Definition throw {A} (e : Error) : M A := fun w => (Throw e, w).
Definition bind {A B} (m : M A) (k : A -> M B) : M B :=
  fun w => match m w with
           | (OK a, w') => k a w'
           | (Throw e, w') => (Throw e, w')
           end.
Definition lift {A} (r : Result A) : M A := fun w => (r, w).
Definition ask {A} (f : World -> A) : M A := fun w => (OK (f w), w).
Definition emit (e : Event) : M unit :=
  fun w => (OK tt, with_trace (trace w ++ [e]) w).

Notation "'let*' x ':=' m 'in' k" := (bind m (fun x => k))
  (at level 10, x pattern, m at level 100, k at level 200).
Notation "m ';;' k" := (bind m (fun _ => k))
  (at level 100, k at level 200, right associativity).
Notation "'let?' x ':=' r 'in' k" := (bindR r (fun x => k))
  (at level 10, x pattern, r at level 100, k at level 200).

Definition console_log (line : string) : M unit := emit (EvLog line).
Definition console_warn (line : string) : M unit := emit (EvWarn line).

(** [token[key](...args)]: reading a key that is not a function of the
    contract gives [undefined], and calling that is a [TypeError]; nothing
    is sent then. *)
Definition invoke `{Ethers} (address key : string) (args : list Arg) : M string :=
  if existsb (String.eqb key) contract_functions then
    emit (EvCall address key args);;
    lift (lib (contract_send address key args))
  else
    throw (TypeError "token[method] is not a function").

(** Which events are invocations of a contract method. *)
Definition is_call (e : Event) : bool :=
  match e with EvCall _ _ _ => true | _ => false end.

Definition contract_calls (t : list Event) : list Event := List.filter is_call t.

(** ** tasks/actions.js *)

Module Actions.
Section WithHre.
Context `{Ethers} `{Runtime}.

Definition ZERO_ADDRESS : string := "0x0000000000000000000000000000000000000000".
Definition DEFAULT_DECIMALS : Z := 18.
Definition DEFAULT_DEPLOYMENTS_DIR : string := deployments_dir.

(** The first branch of [resolveContractAddress], taken when [explicit] is
    truthy. *)
Definition checkExplicit (explicit : JsValue) : Result string :=
  if negb (isAddress explicit) then
    Throw (JsError ("Invalid contract address: " +:+ ToString explicit))
  else
    let? checksummed := lib (getAddress explicit) in
    if String.eqb (toLowerCase checksummed) ZERO_ADDRESS then
      Throw (JsError "Contract address must not be the zero address")
    else OK checksummed.

(** [resolveContractAddress(hre, explicit)].  It reads the environment and
    the deployments directory and changes nothing.  The function calls
    itself on the value it found; [depth] bounds those calls, and
    [resolveContractAddress] below starts with enough of it. *)
Fixpoint resolveContractAddress_at (depth : nat) (w : World) (explicit : JsValue)
  : Result string :=
  if truthy explicit then checkExplicit explicit
  else
    match depth with
    | O => Throw (LibError "Maximum call stack size exceeded")
    | S depth' =>
        let fromEnv := js_or (getenv w "JPYC_PROXY") (getenv w "JPYC_CONTRACT_ADDRESS") in
        if truthy fromEnv then resolveContractAddress_at depth' w fromEnv
        else
          let latestFile :=
            path_join DEFAULT_DEPLOYMENTS_DIR (network w +:+ "-latest.json") in
          let notFound :=
            Throw (JsError "Unable to determine proxy address. Provide --contract or set JPYC_PROXY.") in
          match files w !! latestFile with
          | Some contents =>
              let? parsed := parsed_json (JSON_parse contents) in
              if truthy parsed then
                let? proxy := get parsed "proxy" in
                if truthy proxy then resolveContractAddress_at depth' w proxy
                else notFound
              else notFound
          | None => notFound
          end
    end.

Definition resolveContractAddress (w : World) (explicit : JsValue) : Result string :=
  resolveContractAddress_at 1 w explicit.

(** [normalizeAddress(hre, value, label)] *)
Definition normalizeAddress (value : JsValue) (label : string) : Result string :=
  if negb (isAddress value) then
    Throw (JsError ("Invalid " +:+ label +:+ " address: " +:+ ToString value))
  else
    let? checksummed := lib (getAddress value) in
    if String.eqb (toLowerCase checksummed) ZERO_ADDRESS then
      Throw (JsError (label +:+ " address must not be zero"))
    else OK checksummed.

(** [normalizeAmount(hre, amount, decimals, raw)]; a BigNumber is the
    integer it holds.  In [!Number.isInteger(d) || d < 0 || d > 255] the
    comparisons are only reached on an integer. *)
Definition normalizeAmount (amount decimals : JsValue) (raw : bool) : Result Z :=
  if raw then lib (BigNumber_from amount)
  else
    let parsedDecimals :=
      ToNumber (if nullish decimals then VNum (NumInt DEFAULT_DECIMALS) else decimals) in
    match parsedDecimals with
    | NumInt d =>
        if (d <? 0) || (d >? 255) then
          Throw (JsError "decimals must be an integer between 0 and 255")
        else lib (parseUnits amount d)
    | NumNonInt _ => Throw (JsError "decimals must be an integer between 0 and 255")
    end.

(** [getTokenContract(hre, contractAddress)]; the contract object is known
    by its address. *)
Definition getTokenContract (contractAddress : JsValue) : M string :=
  let* address := (fun w => (resolveContractAddress w contractAddress, w)) in
  emit (EvGetContractAt "FiatTokenV2" address);;
  lift (lib (getContractAt "FiatTokenV2" address));;
  ret address.

(** The action of [jpyc:mint]. *)
Definition mint (contract to amount decimals : JsValue) (raw : bool) : M Receipt :=
  let* token := getTokenContract contract in
  let* recipient := lift (normalizeAddress to "recipient") in
  let* value := lift (normalizeAmount amount decimals raw) in
  console_log ("[jpyc:mint] minting " +:+ Z_to_string value +:+ " to " +:+ recipient);;
  let* tx := invoke token "mint" [ArgAddress recipient; ArgAmount value] in
  let* receipt := lift (lib (tx_wait tx)) in
  console_log ("[jpyc:mint] tx=" +:+ transactionHash receipt);;
  ret receipt.

(** The action of [jpyc:transfer]. *)
Definition transfer (contract to amount decimals : JsValue) (raw : bool) : M Receipt :=
  let* token := getTokenContract contract in
  let* recipient := lift (normalizeAddress to "recipient") in
  let* value := lift (normalizeAmount amount decimals raw) in
  console_log ("[jpyc:transfer] transferring " +:+ Z_to_string value +:+ " to " +:+ recipient);;
  let* tx := invoke token "transfer" [ArgAddress recipient; ArgAmount value] in
  let* receipt := lift (lib (tx_wait tx)) in
  console_log ("[jpyc:transfer] tx=" +:+ transactionHash receipt);;
  ret receipt.

(** The action of [jpyc:burn]. *)
Definition burn (contract amount decimals : JsValue) (raw : bool) : M Receipt :=
  let* token := getTokenContract contract in
  let* value := lift (normalizeAmount amount decimals raw) in
  let* signer := lift (lib signer_getAddress) in
  console_log ("[jpyc:burn] burning " +:+ Z_to_string value +:+ " from signer " +:+ signer);;
  let* tx := invoke token "burn" [ArgAmount value] in
  let* receipt := lift (lib (tx_wait tx)) in
  console_log ("[jpyc:burn] tx=" +:+ transactionHash receipt);;
  ret receipt.

End WithHre.
End Actions.

(** ** tasks/admin.js *)

Module Admin.
Section WithHre.
Context `{Ethers} `{Runtime}.

Definition ZERO_ADDRESS : string := "0x0000000000000000000000000000000000000000".
Definition DEFAULT_DEPLOYMENTS_DIR : string := deployments_dir.

Definition checkExplicit (explicit : JsValue) : Result string :=
  if negb (isAddress explicit) then
    Throw (JsError ("Invalid contract address: " +:+ ToString explicit))
  else
    let? checksummed := lib (getAddress explicit) in
    if String.eqb (toLowerCase checksummed) ZERO_ADDRESS then
      Throw (JsError "Contract address must not be zero")
    else OK checksummed.

(** [resolveContractAddress(hre, explicit)] of this file: the one of
    [tasks/actions.js] with another message for the zero address. *)
Fixpoint resolveContractAddress_at (depth : nat) (w : World) (explicit : JsValue)
  : Result string :=
  if truthy explicit then checkExplicit explicit
  else
    match depth with
    | O => Throw (LibError "Maximum call stack size exceeded")
    | S depth' =>
        let fromEnv := js_or (getenv w "JPYC_PROXY") (getenv w "JPYC_CONTRACT_ADDRESS") in
        if truthy fromEnv then resolveContractAddress_at depth' w fromEnv
        else
          let latestFile :=
            path_join DEFAULT_DEPLOYMENTS_DIR (network w +:+ "-latest.json") in
          let notFound :=
            Throw (JsError "Unable to determine proxy address. Provide --contract or set JPYC_PROXY.") in
          match files w !! latestFile with
          | Some contents =>
              let? parsed := parsed_json (JSON_parse contents) in
              if truthy parsed then
                let? proxy := get parsed "proxy" in
                if truthy proxy then resolveContractAddress_at depth' w proxy
                else notFound
              else notFound
          | None => notFound
          end
    end.

Definition resolveContractAddress (w : World) (explicit : JsValue) : Result string :=
  resolveContractAddress_at 1 w explicit.

Definition normalizeAddress (value : JsValue) (label : string) : Result string :=
  if negb (isAddress value) then
    Throw (JsError ("Invalid " +:+ label +:+ " address: " +:+ ToString value))
  else
    let? checksummed := lib (getAddress value) in
    if String.eqb (toLowerCase checksummed) ZERO_ADDRESS then
      Throw (JsError (label +:+ " address must not be zero"))
    else OK checksummed.

Definition getTokenContract (contractAddress : JsValue) : M string :=
  let* address := (fun w => (resolveContractAddress w contractAddress, w)) in
  emit (EvGetContractAt "FiatTokenV2" address);;
  lift (lib (getContractAt "FiatTokenV2" address));;
  ret address.

(** [normalizeAmount(hre, amount)] of this file. *)
Definition normalizeAmount (amount : JsValue) : Result Z :=
  let? value := lib (BigNumber_from amount) in
  if value <? 0 then Throw (JsError "Allowance amount must be non-negative")
  else OK value.

(** The action of [jpyc:configure-minter]. *)
Definition configure_minter (contract minter allowance : JsValue) : M Receipt :=
  let* token := getTokenContract contract in
  let* minterAddress := lift (normalizeAddress minter "minter") in
  let* amount := lift (normalizeAmount allowance) in
  console_log ("[jpyc:configure-minter] configuring " +:+ minterAddress
               +:+ " with allowance " +:+ Z_to_string amount);;
  let* tx := invoke token "configureMinter" [ArgAddress minterAddress; ArgAmount amount] in
  let* receipt := lift (lib (tx_wait tx)) in
  console_log ("[jpyc:configure-minter] tx=" +:+ transactionHash receipt);;
  ret receipt.

(** The action of [jpyc:remove-minter]. *)
Definition remove_minter (contract minter : JsValue) : M Receipt :=
  let* token := getTokenContract contract in
  let* minterAddress := lift (normalizeAddress minter "minter") in
  console_log ("[jpyc:remove-minter] removing " +:+ minterAddress);;
  let* tx := invoke token "removeMinter" [ArgAddress minterAddress] in
  let* receipt := lift (lib (tx_wait tx)) in
  console_log ("[jpyc:remove-minter] tx=" +:+ transactionHash receipt);;
  ret receipt.

(** The object literal [roleMap]. *)
Definition roleMap : list (string * JsValue) :=
  [ ("pauser", VStr "updatePauser");
    ("blocklister", VStr "updateBlocklister");
    ("rescuer", VStr "updateRescuer");
    ("allowlister", VStr "updateAllowlister");
    ("minteradmin", VStr "updateMinterAdmin");
    ("owner", VStr "transferOwnership") ].

(** The action of [jpyc:update-roles].  [roleMap[normalizedRole]] is a
    property read on an object literal, and [token[method]] converts
    [method] to a property key. *)
Definition update_roles (contract : JsValue) (role : string) (address : JsValue)
  : M Receipt :=
  let* token := getTokenContract contract in
  let* newAddress := lift (normalizeAddress address "role") in
  let normalizedRole := toLowerCase (trim role) in
  let method := obj_get roleMap normalizedRole in
  if negb (truthy method) then
    throw (JsError ("Unsupported role: " +:+ role +:+ ". Supported roles: "
                    +:+ join ", " (map fst roleMap)))
  else
    console_log ("[jpyc:update-roles] calling " +:+ ToString method
                 +:+ "(" +:+ newAddress +:+ ")");;
    let* tx := invoke token (ToString method) [ArgAddress newAddress] in
    let* receipt := lift (lib (tx_wait tx)) in
    console_log ("[jpyc:update-roles] tx=" +:+ transactionHash receipt);;
    ret receipt.

End WithHre.
End Admin.

(** ** tasks/deploy.js *)

(** [hre] beyond [hre.ethers]: the signers, the contract factories, the
    [upgrades] plugin, the optional network switch and verification task.
    The implementation behind a proxy changes over a run, so that reading
    depends on what has happened so far. *)
Class Hardhat : Type := {
  has_changeNetwork : bool;                      (* typeof hre.changeNetwork === 'function' *)
  changeNetwork : string -> Outcome string;       (* hre.network.name afterwards *)
  getSigners : Outcome (list string);             (* the signers' addresses *)
  getContractFactory : string -> Outcome unit;
  (* upgrades.deployProxy: proxy.address and proxy.deployTransaction *)
  deployProxy : string -> list JsValue -> Outcome (string * string);
  (* upgrades.upgradeProxy: upgraded.deployTransaction, when there is one *)
  upgradeProxy : string -> string -> Outcome (option string);
  getImplementationAddress : list Event -> string -> Outcome string;
  has_verify_task : bool;                        (* hre.tasks['verify:verify'] *)
  run_verify : string -> Outcome unit;            (* hre.run('verify:verify', ...) *)
}.

Module Deploy.
Section WithHre.
Context `{Ethers} `{Runtime} `{Hardhat}.

Definition ZERO_ADDRESS : string := "0x0000000000000000000000000000000000000000".

Definition REQUIRED_FIELDS : list string :=
  [ "name"; "symbol"; "currency"; "decimals"; "minterAdmin";
    "pauser"; "blocklister"; "rescuer"; "owner" ].

Definition ENV_KEYS : list (string * string) :=
  [ ("name", "TOKEN_NAME");
    ("symbol", "TOKEN_SYMBOL");
    ("currency", "TOKEN_CURRENCY");
    ("decimals", "TOKEN_DECIMALS");
    ("minterAdmin", "JPYC_MINTER_ADMIN");
    ("pauser", "JPYC_PAUSER");
    ("blocklister", "JPYC_BLOCKLISTER");
    ("rescuer", "JPYC_RESCUER");
    ("owner", "JPYC_OWNER") ].

Definition env_key (field : string) : string :=
  match List.find (fun p => String.eqb field (fst p)) ENV_KEYS with
  | Some (_, k) => k
  | None => "undefined"
  end.

Definition dquote : string := String "034"%char EmptyString.

Definition message_of (e : Error) : string :=
  match e with
  | JsError m | TypeError m | SyntaxError m | LibError m => m
  end.

(** [readConfigFile(rawPath)] *)
Definition readConfigFile (w : World) (rawPath : JsValue) : Result JsValue :=
  let fullPath := path_resolve_cwd (ToString rawPath) in
  match files w !! fullPath with
  | Some contents => parsed_json (JSON_parse contents)
  | None =>
      Throw (LibError ("ENOENT: no such file or directory, open '" +:+ fullPath +:+ "'"))
  end.

(** [readFromEnv()]: the fields whose variable is defined, in the order of
    [ENV_KEYS]. *)
Definition readFromEnv (w : World) : JsValue :=
  VObj (fold_left
          (fun acc '(field, envKey) =>
             match env w !! envKey with
             | Some s => obj_set field (VStr s) acc
             | None => acc
             end)
          ENV_KEYS []).

(** [paramsPath ? readConfigFile(paramsPath) : readFromEnv()] *)
Definition paramSource (w : World) (paramsPath : JsValue) : Result JsValue :=
  if truthy paramsPath then readConfigFile w paramsPath else OK (readFromEnv w).

(** [xs.forEach(f)] for an [f] that can throw: the first exception ends the
    loop. *)
Fixpoint forEach {A} (f : A -> Result unit) (xs : list A) : Result unit :=
  match xs with
  | [] => OK tt
  | x :: rest => let? _ := f x in forEach f rest
  end.

(** The same loop when [f] updates an object on the way. *)
Fixpoint forEachOn {A S} (f : S -> A -> Result S) (s : S) (xs : list A) : Result S :=
  match xs with
  | [] => OK s
  | x :: rest => let? s' := f s x in forEachOn f s' rest
  end.

(** [value === undefined || value === null || String(value).trim() === ''] *)
Definition is_missing (value : JsValue) : bool :=
  nullish value || String.eqb (trim (ToString value)) "".

(** The body of the loop over [REQUIRED_FIELDS]. *)
Definition requireField (fromFile : bool) (source : JsValue) (field : string)
  : Result unit :=
  let? value := get source field in
  if is_missing value then
    let hint := if fromFile
                then "params field " +:+ dquote +:+ field +:+ dquote
                else "env var " +:+ env_key field in
    Throw (JsError ("Missing " +:+ hint))
  else OK tt.

(** [{ ...source }]: the own properties of an object.  Only an object can
    have passed the loop over [REQUIRED_FIELDS]. *)
Definition spread (source : JsValue) : list (string * JsValue) :=
  match source with
  | VObj props => props
  | _ => []
  end.

(** The body of the loop over the five address fields. *)
Definition normalizeField (normalized : list (string * JsValue)) (key : string)
  : Result (list (string * JsValue)) :=
  let candidate := trim (ToString (obj_get normalized key)) in
  if negb (isAddress (VStr candidate)) then
    Throw (JsError ("Invalid address for " +:+ key +:+ ": " +:+ candidate))
  else
    let? checksummed := lib (getAddress (VStr candidate)) in
    if String.eqb (toLowerCase checksummed) ZERO_ADDRESS then
      Throw (JsError ("Address for " +:+ key +:+ " must not be zero"))
    else OK (obj_set key (VStr checksummed) normalized).

Definition trimField (key : string) (o : list (string * JsValue))
  : list (string * JsValue) :=
  obj_set key (VStr (trim (ToString (obj_get o key)))) o.

(** [loadParams(paramsPath, hre)]; the object it returns is given by its
    properties. *)
Definition loadParams (w : World) (paramsPath : JsValue)
  : Result (list (string * JsValue)) :=
  let fromFile := truthy paramsPath in
  let? source := paramSource w paramsPath in
  let? _ := forEach (requireField fromFile source) REQUIRED_FIELDS in
  let normalized := spread source in
  let decimals := ToNumber (obj_get normalized "decimals") in
  let normalized := obj_set "decimals" (VNum decimals) normalized in
  match decimals with
  | NumInt d =>
      if (d <? 0) || (d >? 255) then
        Throw (JsError "decimals must be an integer between 0 and 255")
      else
        let? normalized :=
          forEachOn normalizeField normalized
            ["minterAdmin"; "pauser"; "blocklister"; "rescuer"; "owner"] in
        OK (trimField "currency" (trimField "symbol" (trimField "name" normalized)))
  | NumNonInt _ => Throw (JsError "decimals must be an integer between 0 and 255")
  end.

(** [new Date().toISOString()] *)
Definition now : M string :=
  fun w => (OK (toISOString (ticks w)), with_ticks (S (ticks w)) w).

(** [record.deployedAt.replace(/[:]/g, '-')] *)
Definition history_timestamp (record : JsValue) : Result string :=
  let? deployedAt := get record "deployedAt" in
  match deployedAt with
  | VStr s => OK (replace_colons s)
  | VUndefined =>
      Throw (TypeError "Cannot read properties of undefined (reading 'replace')")
  | VNull => Throw (TypeError "Cannot read properties of null (reading 'replace')")
  | _ => Throw (TypeError "record.deployedAt.replace is not a function")
  end.

Definition writeFileSync (file contents : string) : M unit :=
  fun w => (OK tt, with_files (<[file := contents]> (files w)) w).

Definition mkdirSync (dir : string) : M unit :=
  fun w => (OK tt, with_dirs ({[dir]} ∪ dirs w) w).

(** [persistDeployment(networkName, record)] *)
Definition persistDeployment (networkName : string) (record : JsValue) : M unit :=
  let outDir := deployments_dir in
  let* present := ask (fun w => bool_decide (outDir ∈ dirs w)) in
  (if negb present then mkdirSync outDir else ret tt);;
  let* timestamp := lift (history_timestamp record) in
  let historyFile := path_join outDir (networkName +:+ "-" +:+ timestamp +:+ ".json") in
  writeFileSync historyFile (JSON_stringify record);;
  let latestFile := path_join outDir (networkName +:+ "-latest.json") in
  writeFileSync latestFile (JSON_stringify record).

(** [verifyImplementation(hre, implementationAddress)]: the exception of
    the verification task is caught. *)
Definition verifyImplementation (implementationAddress : string) : M unit :=
  if negb has_verify_task then
    console_warn "[deploy:jpycv2] verification task not available, skipping"
  else
    emit (EvVerify implementationAddress);;
    match lib (run_verify implementationAddress) with
    | OK _ => console_log "[deploy:jpycv2] implementation verified"
    | Throw error =>
        console_warn ("[deploy:jpycv2] verification skipped: " +:+ message_of error)
    end.

Definition unsafeAllow : list string := ["constructor"; "delegatecall"].

(** [upgradeToV2({ hre, proxyAddress, record, verify })].  The function
    writes into the caller's [record] object; here it returns the record
    as it leaves it. *)
Definition upgradeToV2 (proxyAddress : string) (record : list (string * JsValue))
    (verify : bool) : M (list (string * JsValue)) :=
  console_log "[deploy:jpycv2] upgrading proxy to FiatTokenV2";;
  lift (lib (getContractFactory "FiatTokenV2"));;
  emit (EvUpgradeProxy proxyAddress "FiatTokenV2" "uups" "initializeV2" [] unsafeAllow);;
  let* upgradeTx := lift (lib (upgradeProxy proxyAddress "FiatTokenV2")) in
  let* record :=
    match upgradeTx with
    | Some tx =>
        let* receipt := lift (lib (tx_wait tx)) in
        console_log ("[deploy:jpycv2] upgraded implementation tx=" +:+ transactionHash receipt);;
        ret (obj_set "upgradeTxHash" (VStr (transactionHash receipt)) record)
    | None =>
        console_log "[deploy:jpycv2] upgrade transaction pending or unavailable";;
        ret record
    end in
  let* newImplementation :=
    (fun w => (lib (getImplementationAddress (trace w) proxyAddress), w)) in
  console_log ("[deploy:jpycv2] now running FiatTokenV2 implementation=" +:+ newImplementation);;
  let record := obj_set "implementationV2" (VStr newImplementation) record in
  let* upgradedAt := now in
  let record := obj_set "upgradedAt" (VStr upgradedAt) record in
  (if verify then verifyImplementation newImplementation else ret tt);;
  let* networkName := ask network in
  persistDeployment networkName (VObj record);;
  ret record.

(** [targetNetwork && targetNetwork !== hre.network.name] *)
Definition other_network (targetNetwork : JsValue) (current : string) : bool :=
  truthy targetNetwork &&
  match targetNetwork with
  | VStr s => negb (String.eqb s current)
  | _ => true
  end.

(** The action of [deploy:jpycv2]. *)
Definition deploy_jpycv2 (targetNetwork paramsPath : JsValue) (verify v1only : bool)
  : M JsValue :=
  let* current := ask network in
  (if other_network targetNetwork current then
     if has_changeNetwork then
       console_log ("[deploy:jpycv2] switching network to " +:+ ToString targetNetwork);;
       emit (EvChangeNetwork (ToString targetNetwork));;
       let* name := lift (lib (changeNetwork (ToString targetNetwork))) in
       (fun w => (OK tt, with_network name w))
     else
       throw (JsError ("Network positional argument provided (" +:+ ToString targetNetwork
                       +:+ "), but runtime cannot switch automatically. Re-run with --network "
                       +:+ ToString targetNetwork +:+ "."))
   else ret tt);;
  let* signers := lift (lib getSigners) in
  match signers with
  | [] => throw (JsError "No signer available for deployment")
  | deployer :: _ =>
      let* params := (fun w => (loadParams w paramsPath, w)) in
      lift (lib (getContractFactory "FiatTokenV1"));;
      let deployArgs := map (obj_get params) REQUIRED_FIELDS in
      console_log ("[deploy:jpycv2] deploying with deployer " +:+ deployer);;
      emit (EvDeployProxy "FiatTokenV1" deployArgs "uups" unsafeAllow);;
      let* (proxyAddress, deployTransaction) := lift (lib (deployProxy "FiatTokenV1" deployArgs)) in
      let* receipt := lift (lib (tx_wait deployTransaction)) in
      let* implementationAddress :=
        (fun w => (lib (getImplementationAddress (trace w) proxyAddress), w)) in
      console_log ("[deploy:jpycv2] proxy=" +:+ proxyAddress
                   +:+ " implementation=" +:+ implementationAddress);;
      let* timestamp := now in
      let* networkName := ask network in
      let record :=
        [ ("network", VStr networkName);
          ("deployedAt", VStr timestamp);
          ("deployer", VStr deployer);
          ("txHash", VStr (transactionHash receipt));
          ("proxy", VStr proxyAddress);
          ("implementation", VStr implementationAddress);
          ("params", VObj params) ] in
      persistDeployment networkName (VObj record);;
      (if verify && has_verify_task
       then verifyImplementation implementationAddress else ret tt);;
      let* record := (if negb v1only then upgradeToV2 proxyAddress record verify
                      else ret record) in
      ret (VObj record)
  end.

End WithHre.
End Deploy.

(** ** A reference environment

    One concrete instance of the three interfaces, on which the tasks can
    be run: the address utilities on the test vectors of EIP-55, decimal
    literals for numbers, a JSON printer and parser, and a chain that
    accepts every transaction. *)

Module Reference.

(** Checksummed addresses: the zero address and the examples of EIP-55. *)
Definition known_addresses : list string :=
  [ "0x0000000000000000000000000000000000000000";
    "0x5aAeb6053F3E94C9b9A09f33669435E7Ef1BeAed";
    "0xfB6916095ca1df60bB79Ce92cE3Ea74c37c5d359";
    "0xdbF03B407c01E7cD3CBea99509d93f8DDDC8C6FB";
    "0xD1220A0cf47c7B9Be7A2E6BA89F429762e7b9aDb" ].

(** [utils.getAddress] on the known addresses, written checksummed or in
    lower case; any other input is rejected. *)
Definition ref_getAddress (v : JsValue) : Outcome string :=
  match v with
  | VStr s =>
      match List.find (fun c => String.eqb s c || String.eqb s (toLowerCase c))
                      known_addresses with
      | Some c => Returns c
      | None => Fails "invalid address"
      end
  | _ => Fails "invalid address"
  end.

Definition ref_isAddress (v : JsValue) : bool :=
  match ref_getAddress v with Returns _ => true | Fails _ => false end.

Fixpoint digits_value (acc : Z) (s : string) : Z :=
  match s with
  | EmptyString => acc
  | String c r => digits_value (10 * acc + (Z.of_N (code c) - 48)) r
  end.

(** A decimal integer literal, with an optional minus sign. *)
Definition decimal_literal (s : string) : option Z :=
  match s with
  | EmptyString => None
  | String "-" EmptyString => None
  | String "-" r => if all_chars is_digit r then Some (- digits_value 0 r) else None
  | _ => if all_chars is_digit s then Some (digits_value 0 s) else None
  end.

Definition ref_BigNumber_from (v : JsValue) : Outcome Z :=
  match v with
  | VStr s =>
      match decimal_literal s with
      | Some z => Returns z
      | None => Fails "invalid BigNumber string"
      end
  | VNum (NumInt z) => Returns z
  | _ => Fails "invalid BigNumber value"
  end.

(** [utils.parseUnits] on a literal without a fractional part. *)
Definition ref_parseUnits (v : JsValue) (decimals : Z) : Outcome Z :=
  match v with
  | VStr s =>
      match decimal_literal s with
      | Some z => Returns (z * 10 ^ decimals)
      | None => Fails "invalid decimal value"
      end
  | _ => Fails "invalid decimal value"
  end.

Definition FiatTokenV2_functions : list string :=
  [ "mint"; "transfer"; "burn"; "configureMinter"; "removeMinter";
    "updatePauser"; "updateBlocklister"; "updateRescuer"; "updateAllowlister";
    "updateMinterAdmin"; "transferOwnership"; "initializeV2" ].

#[export] Instance ref_ethers : Ethers := {
  isAddress := ref_isAddress;
  getAddress := ref_getAddress;
  BigNumber_from := ref_BigNumber_from;
  parseUnits := ref_parseUnits;
  getContractAt := fun _ _ => Returns tt;
  contract_send := fun _ key _ => Returns ("0xtx-" +:+ key);
  tx_wait := fun tx => Returns (mkReceipt tx);
  signer_getAddress := Returns "0xfB6916095ca1df60bB79Ce92cE3Ea74c37c5d359";
  contract_functions := FiatTokenV2_functions;
}.

#[export] Instance ref_hardhat : Hardhat := {
  has_changeNetwork := false;
  changeNetwork := fun target => Returns target;
  getSigners := Returns ["0xfB6916095ca1df60bB79Ce92cE3Ea74c37c5d359"];
  getContractFactory := fun _ => Returns tt;
  deployProxy := fun _ _ =>
    Returns ("0x5aAeb6053F3E94C9b9A09f33669435E7Ef1BeAed", "0xtx-deploy");
  upgradeProxy := fun _ _ => Returns (Some "0xtx-upgrade");
  getImplementationAddress := fun t _ =>
    if existsb (fun e => match e with EvUpgradeProxy _ _ _ _ _ _ => true | _ => false end) t
    then Returns "0xD1220A0cf47c7B9Be7A2E6BA89F429762e7b9aDb"
    else Returns "0xdbF03B407c01E7cD3CBea99509d93f8DDDC8C6FB";
  has_verify_task := false;
  run_verify := fun _ => Returns tt;
}.

(** *** JSON *)

Definition nl : string := String "010"%char EmptyString.
Definition quote_char : ascii := "034"%char.
Definition backslash : ascii := "092"%char.

Definition hex_char (n : N) : ascii :=
  if (n <? 10)%N then ascii_of_N (48 + n) else ascii_of_N (87 + n).

(** The body of a JSON string literal for [s]. *)
Fixpoint escape (s : string) : string :=
  match s with
  | EmptyString => EmptyString
  | String c r =>
      let n := code c in
      (if Ascii.eqb c quote_char then String backslash (String quote_char EmptyString)
       else if Ascii.eqb c backslash then String backslash (String backslash EmptyString)
       else if (n =? 8)%N then String backslash "b"
       else if (n =? 9)%N then String backslash "t"
       else if (n =? 10)%N then String backslash "n"
       else if (n =? 12)%N then String backslash "f"
       else if (n =? 13)%N then String backslash "r"
       else if (n <? 32)%N then
         String backslash ("u00" +:+ String (hex_char (n / 16)) (String (hex_char (n mod 16)) EmptyString))
       else String c EmptyString) +:+ escape r
  end.

Definition quoted (s : string) : string :=
  String quote_char (escape s +:+ String quote_char EmptyString).

Fixpoint spaces (n : nat) : string :=
  match n with O => EmptyString | S m => String " " (spaces m) end.

(** A bracketed, indented block: one part per line. *)
Definition block (opening closing : string) (indent : nat) (parts : list string) : string :=
  match parts with
  | [] => opening +:+ closing
  | _ => opening +:+ nl +:+ spaces (indent + 2)
         +:+ join ("," +:+ nl +:+ spaces (indent + 2)) parts
         +:+ nl +:+ spaces indent +:+ closing
  end.

(** [JSON.stringify(v, null, 2)] at a nesting depth; [None] where the
    property is left out. *)
Fixpoint stringify_at (indent : nat) (v : JsValue) {struct v} : option string :=
  match v with
  | VUndefined | VNative _ => None
  | VNull => Some "null"
  | VBool true => Some "true"
  | VBool false => Some "false"
  | VNum (NumInt z) => Some (Z_to_string z)
  | VNum (NumNonInt text) =>
      Some (if String.eqb text "NaN" || String.eqb text "Infinity"
               || String.eqb text "-Infinity" then "null" else text)
  | VStr s => Some (quoted s)
  | VArr items =>
      Some (block "[" "]" indent
              (map (fun x => match stringify_at (indent + 2) x with
                             | Some t => t
                             | None => "null"
                             end) items))
  | VObj props =>
      Some (block "{" "}" indent
              ((fix members (ps : list (string * JsValue)) : list string :=
                  match ps with
                  | [] => []
                  | (k, x) :: rest =>
                      match stringify_at (indent + 2) x with
                      | Some t => (quoted k +:+ ": " +:+ t) :: members rest
                      | None => members rest
                      end
                  end) props))
  end.

Definition ref_stringify (v : JsValue) : string :=
  match stringify_at 0 v with Some t => t | None => "undefined" end.

(** The parser works on the list of characters. *)
Fixpoint skip_ws (cs : list ascii) : list ascii :=
  match cs with
  | c :: r => if is_whitespace c then skip_ws r else cs
  | [] => []
  end.

Fixpoint take_literal (word : list ascii) (cs : list ascii) : option (list ascii) :=
  match word, cs with
  | [], _ => Some cs
  | a :: w, c :: r => if Ascii.eqb a c then take_literal w r else None
  | _ :: _, [] => None
  end.

Definition hex_value (c : ascii) : option N :=
  let n := code c in
  if is_digit c then Some (n - 48)%N
  else if ((97 <=? n) && (n <=? 102))%N then Some (n - 87)%N
  else if ((65 <=? n) && (n <=? 70))%N then Some (n - 55)%N
  else None.

(** The characters of a string literal after its opening quote. *)
Fixpoint parse_chars (fuel : nat) (cs : list ascii) : option (string * list ascii) :=
  match fuel with
  | O => None
  | S fuel' =>
      match cs with
      | [] => None
      | c :: r =>
          if Ascii.eqb c quote_char then Some (EmptyString, r)
          else if Ascii.eqb c backslash then
            match r with
            | e :: r' =>
                let continue (x : ascii) (rest : list ascii) :=
                  match parse_chars fuel' rest with
                  | Some (s, out) => Some (String x s, out)
                  | None => None
                  end in
                if Ascii.eqb e "b" then continue "008"%char r'
                else if Ascii.eqb e "t" then continue "009"%char r'
                else if Ascii.eqb e "n" then continue "010"%char r'
                else if Ascii.eqb e "f" then continue "012"%char r'
                else if Ascii.eqb e "r" then continue "013"%char r'
                else if Ascii.eqb e "u" then
                  match r' with
                  | "0"%char :: "0"%char :: h :: l :: r'' =>
                      match hex_value h, hex_value l with
                      | Some a, Some b => continue (ascii_of_N (16 * a + b)) r''
                      | _, _ => None
                      end
                  | _ => None
                  end
                else if Ascii.eqb e quote_char || Ascii.eqb e backslash || Ascii.eqb e "/"
                then continue e r'
                else None
            | [] => None
            end
          else
            match parse_chars fuel' r with
            | Some (s, out) => Some (String c s, out)
            | None => None
            end
      end
  end.

(** A member in front of the members that follow it: a later member of
    the same name replaces its value. *)
Definition member (k : string) (x : JsValue) (ps : list (string * JsValue))
  : list (string * JsValue) :=
  (k, match assoc k ps with Some later => later | None => x end)
  :: List.filter (fun p => negb (String.eqb k (fst p))) ps.

Definition is_number_char (c : ascii) : bool :=
  is_digit c || Ascii.eqb c "-" || Ascii.eqb c "+" || Ascii.eqb c "."
  || Ascii.eqb c "e" || Ascii.eqb c "E".

Fixpoint span_number (cs : list ascii) : string * list ascii :=
  match cs with
  | c :: r =>
      if is_number_char c then
        let '(s, out) := span_number r in (String c s, out)
      else (EmptyString, cs)
  | [] => (EmptyString, [])
  end.

Fixpoint parse_value (fuel : nat) (cs : list ascii) {struct fuel}
  : option (JsValue * list ascii) :=
  match fuel with
  | O => None
  | S fuel' =>
      match skip_ws cs with
      | [] => None
      | c :: r =>
          if Ascii.eqb c "{" then
            match skip_ws r with
            | "}"%char :: out => Some (VObj [], out)
            | _ =>
                match parse_members fuel' r with
                | Some (ps, out) => Some (VObj ps, out)
                | None => None
                end
            end
          else if Ascii.eqb c "[" then
            match skip_ws r with
            | "]"%char :: out => Some (VArr [], out)
            | _ =>
                match parse_elements fuel' r with
                | Some (xs, out) => Some (VArr xs, out)
                | None => None
                end
            end
          else if Ascii.eqb c quote_char then
            match parse_chars (length r) r with
            | Some (s, out) => Some (VStr s, out)
            | None => None
            end
          else if Ascii.eqb c "t" then
            option_map (fun out => (VBool true, out)) (take_literal ["r"; "u"; "e"]%char r)
          else if Ascii.eqb c "f" then
            option_map (fun out => (VBool false, out)) (take_literal ["a"; "l"; "s"; "e"]%char r)
          else if Ascii.eqb c "n" then
            option_map (fun out => (VNull, out)) (take_literal ["u"; "l"; "l"]%char r)
          else if is_digit c || Ascii.eqb c "-" then
            let '(text, out) := span_number (c :: r) in
            match decimal_literal text with
            | Some z => Some (VNum (NumInt z), out)
            | None => Some (VNum (NumNonInt text), out)
            end
          else None
      end
  end
with parse_elements (fuel : nat) (cs : list ascii) {struct fuel}
  : option (list JsValue * list ascii) :=
  match fuel with
  | O => None
  | S fuel' =>
      match parse_value fuel' cs with
      | Some (x, out) =>
          match skip_ws out with
          | ","%char :: out' =>
              match parse_elements fuel' out' with
              | Some (xs, out'') => Some (x :: xs, out'')
              | None => None
              end
          | "]"%char :: out' => Some ([x], out')
          | _ => None
          end
      | None => None
      end
  end
with parse_members (fuel : nat) (cs : list ascii) {struct fuel}
  : option (list (string * JsValue) * list ascii) :=
  match fuel with
  | O => None
  | S fuel' =>
      match skip_ws cs with
      | q :: r =>
          if Ascii.eqb q quote_char then
            match parse_chars (length r) r with
            | Some (k, out) =>
                match skip_ws out with
                | ":"%char :: out' =>
                    match parse_value fuel' out' with
                    | Some (x, out'') =>
                        match skip_ws out'' with
                        | ","%char :: rest =>
                            match parse_members fuel' rest with
                            | Some (ps, final) => Some (member k x ps, final)
                            | None => None
                            end
                        | "}"%char :: rest => Some ([(k, x)], rest)
                        | _ => None
                        end
                    | None => None
                    end
                | _ => None
                end
            | None => None
            end
          else None
      | [] => None
      end
  end.

Definition ref_parse (text : string) : Outcome JsValue :=
  let cs := list_ascii_of_string text in
  match parse_value (S (length cs)) cs with
  | Some (v, out) =>
      match skip_ws out with
      | [] => Returns v
      | _ => Fails "Unexpected non-whitespace character after JSON"
      end
  | None => Fails "Unexpected token in JSON"
  end.

(** [Number(s)] on a decimal integer literal, on blank text, and on text
    that is no numeric literal. *)
Definition ref_StringToNumber (s : string) : JsNumber :=
  match trim s with
  | EmptyString => NumInt 0
  | t => match decimal_literal t with
         | Some z => NumInt z
         | None => NumNonInt "NaN"
         end
  end.

Fixpoint spaces_zero (n : nat) : string :=
  match n with O => EmptyString | S m => String "0" (spaces_zero m) end.

Definition pad3 (n : nat) : string :=
  let t := Z_to_string (Z.of_nat (n mod 1000)) in
  spaces_zero (3 - String.length t) +:+ t.

#[export] Instance ref_runtime : Runtime := {
  JSON_stringify := ref_stringify;
  JSON_parse := ref_parse;
  StringToNumber := ref_StringToNumber;
  toISOString := fun n => "2025-01-01T00:00:00." +:+ pad3 n +:+ "Z";
  deployments_dir := "/repo/deployments";
  path_resolve_cwd := fun p => if startsWith "/" p then p else "/repo/" +:+ p;
}.

End Reference.

(** ** The vocabulary of the properties *)

Definition ZERO_ADDRESS : string := "0x0000000000000000000000000000000000000000".

(** The form of a checksummed address: [0x] and forty hexadecimal digits. *)
Definition hex_address (s : string) : bool :=
  match s with
  | String a (String b r) =>
      Ascii.eqb a "0" && Ascii.eqb b "x"
      && (String.length r =? 40)%nat && all_chars is_hex_digit r
  | _ => false
  end.

(** [c] is the EIP-55 checksummed form of the valid address [value], as
    [hre.ethers.utils] computes it. *)
Definition checksummed_form `{Ethers} (value : JsValue) (c : string) : Prop :=
  isAddress value = true /\ getAddress value = Returns c /\ hex_address c = true.

(** A result that is an exception thrown by the task's own code. *)
Definition throws {A} (r : Result A) : Prop := exists message, r = Throw (JsError message).

(** A result that is an exception of any origin. *)
Definition fails {A} (r : Result A) : Prop := exists e, r = Throw e.

(** A ["Missing"] error of [loadParams]. *)
Definition throws_missing {A} (r : Result A) : Prop :=
  exists message, r = Throw (JsError message) /\ startsWith "Missing " message = true.

(** A character class per position. *)
Fixpoint matches (shape : list (ascii -> bool)) (s : string) : bool :=
  match shape, s with
  | [], EmptyString => true
  | p :: shape', String c r => p c && matches shape' r
  | _, _ => false
  end.

Definition lit (a : ascii) : ascii -> bool := Ascii.eqb a.
Definition sign (c : ascii) : bool := Ascii.eqb c "+" || Ascii.eqb c "-".

(** [-MM-DDTHH:mm:ss.sssZ], what follows the year. *)
Definition shape_after_year : list (ascii -> bool) :=
  [ lit "-"; is_digit; is_digit; lit "-"; is_digit; is_digit; lit "T";
    is_digit; is_digit; lit ":"; is_digit; is_digit; lit ":"; is_digit; is_digit;
    lit "."; is_digit; is_digit; is_digit; lit "Z" ].

(** What [Date.prototype.toISOString] returns: a four-digit year, or a
    signed six-digit one. *)
Definition iso_timestamp (s : string) : bool :=
  matches ([is_digit; is_digit; is_digit; is_digit] ++ shape_after_year) s
  || matches ([sign; is_digit; is_digit; is_digit; is_digit; is_digit; is_digit]
              ++ shape_after_year) s.

(** A name that is one path segment: no separator in it. *)
Definition plain_name (s : string) : bool :=
  all_chars (fun c => negb (Ascii.eqb c "/") && negb (Ascii.eqb c "092")) s.

(** The files of a network in the deployments directory. *)
Definition latest_file `{Runtime} (networkName : string) : string :=
  path_join deployments_dir (networkName +:+ "-latest.json").

Definition history_file `{Runtime} (networkName deployedAt : string) : string :=
  path_join deployments_dir
    (networkName +:+ "-" +:+ replace_colons deployedAt +:+ ".json").

(** A file that belongs to a network: its latest record, or the history
    file of one of its deployments. *)
Definition file_of_network `{Runtime} (networkName file : string) : Prop :=
  file = latest_file networkName
  \/ exists deployedAt, iso_timestamp deployedAt = true
                        /\ file = history_file networkName deployedAt.

(** An integer in [0, 255]. *)
Definition valid_decimals (d : JsNumber) : bool :=
  match d with
  | NumInt z => (0 <=? z) && (z <=? 255)
  | NumNonInt _ => false
  end.

Definition decimals_error : Error :=
  JsError "decimals must be an integer between 0 and 255".

(** The events a run added to the trace. *)
Definition added (w w' : World) (events : list Event) : Prop :=
  trace w' = (trace w ++ events)%list.

Definition is_deploy (e : Event) : bool :=
  match e with EvDeployProxy _ _ _ _ => true | _ => false end.

Definition is_upgrade (e : Event) : bool :=
  match e with EvUpgradeProxy _ _ _ _ _ _ => true | _ => false end.

Definition unable_to_determine : Error :=
  JsError "Unable to determine proxy address. Provide --contract or set JPYC_PROXY.".

(** What the latest deployment record of the current network yields:
    the [proxy] of the parsed file, when file, parsed value and [proxy] are
    all there. *)
Inductive recorded_proxy `{Runtime} (w : World) : option JsValue -> Prop :=
  | recorded_none :
      files w !! latest_file (network w) = None ->
      recorded_proxy w None
  | recorded_falsy contents parsed :
      files w !! latest_file (network w) = Some contents ->
      JSON_parse contents = Returns parsed ->
      truthy parsed = false ->
      recorded_proxy w None
  | recorded_no_proxy contents parsed proxy :
      files w !! latest_file (network w) = Some contents ->
      JSON_parse contents = Returns parsed ->
      truthy parsed = true ->
      get parsed "proxy" = OK proxy ->
      truthy proxy = false ->
      recorded_proxy w None
  | recorded_some contents parsed proxy :
      files w !! latest_file (network w) = Some contents ->
      JSON_parse contents = Returns parsed ->
      truthy parsed = true ->
      get parsed "proxy" = OK proxy ->
      truthy proxy = true ->
      recorded_proxy w (Some proxy).

(** The order in which a resolver [resolve] looks for the address, [check]
    being the validation it applies to the source it settles on. *)
Definition resolution_order `{Runtime}
    (resolve : World -> JsValue -> Result string)
    (check : JsValue -> Result string) : Prop :=
  forall (w : World) (explicit : JsValue),
    let JPYC_PROXY := getenv w "JPYC_PROXY" in
    let JPYC_CONTRACT_ADDRESS := getenv w "JPYC_CONTRACT_ADDRESS" in
    (truthy explicit = true -> resolve w explicit = check explicit)
    /\ (truthy explicit = false -> truthy JPYC_PROXY = true ->
        resolve w explicit = check JPYC_PROXY)
    /\ (truthy explicit = false -> truthy JPYC_PROXY = false ->
        truthy JPYC_CONTRACT_ADDRESS = true ->
        resolve w explicit = check JPYC_CONTRACT_ADDRESS)
    /\ (truthy explicit = false -> truthy JPYC_PROXY = false ->
        truthy JPYC_CONTRACT_ADDRESS = false ->
        forall proxy, recorded_proxy w (Some proxy) ->
        resolve w explicit = check proxy)
    /\ (truthy explicit = false -> truthy JPYC_PROXY = false ->
        truthy JPYC_CONTRACT_ADDRESS = false ->
        recorded_proxy w None ->
        resolve w explicit = Throw unable_to_determine).


(** ** Sample runs on the reference environment *)

Module Sample.
Import Reference.

Definition proxy_address : string := "0x5aAeb6053F3E94C9b9A09f33669435E7Ef1BeAed".
Definition other_address : string := "0xfB6916095ca1df60bB79Ce92cE3Ea74c37c5d359".
Definition third_address : string := "0xdbF03B407c01E7cD3CBea99509d93f8DDDC8C6FB".
Definition fourth_address : string := "0xD1220A0cf47c7B9Be7A2E6BA89F429762e7b9aDb".

Definition params : list (string * JsValue) :=
  [ ("name", VStr "JPY Coin"); ("symbol", VStr "JPYC"); ("currency", VStr "JPY");
    ("decimals", VNum (NumInt 18));
    ("minterAdmin", VStr other_address); ("pauser", VStr other_address);
    ("blocklister", VStr third_address); ("rescuer", VStr third_address);
    ("owner", VStr fourth_address) ].

Definition record : JsValue :=
  VObj [ ("network", VStr "hardhat");
         ("deployedAt", VStr "2025-01-01T00:00:00.000Z");
         ("deployer", VStr other_address);
         ("txHash", VStr "0xtx-deploy");
         ("proxy", VStr (toLowerCase proxy_address));
         ("implementation", VStr third_address);
         ("params", VObj params) ].

(** Nothing deployed, nothing set. *)
Definition fresh : World := mkWorld ∅ ∅ ∅ "hardhat" 0 [].

(** After [persistDeployment('hardhat', record)]. *)
Definition deployed : World := snd (Deploy.persistDeployment "hardhat" record fresh).



(** The parameters of a deployment in the environment. *)
Definition with_params : World :=
  mkWorld ∅ ∅
    (list_to_map
       [ ("TOKEN_NAME", "JPY Coin"); ("TOKEN_SYMBOL", "JPYC");
         ("TOKEN_CURRENCY", "JPY"); ("TOKEN_DECIMALS", "18");
         ("JPYC_MINTER_ADMIN", other_address); ("JPYC_PAUSER", other_address);
         ("JPYC_BLOCKLISTER", third_address); ("JPYC_RESCUER", third_address);
         ("JPYC_OWNER", fourth_address) ])
    "hardhat" 0 [].

(** The same with 256 decimals. *)
Definition too_many_decimals : World :=
  mkWorld ∅ ∅ (<["TOKEN_DECIMALS" := "256"]> (env with_params)) "hardhat" 0 [].

(** What [readFromEnv] makes of it. *)
Definition too_many_decimals_source : JsValue :=
  VObj [ ("name", VStr "JPY Coin"); ("symbol", VStr "JPYC"); ("currency", VStr "JPY");
         ("decimals", VStr "256");
         ("minterAdmin", VStr other_address); ("pauser", VStr other_address);
         ("blocklister", VStr third_address); ("rescuer", VStr third_address);
         ("owner", VStr fourth_address) ].

(** The same with a blank token name. *)
Definition blank_name : World :=
  mkWorld ∅ ∅ (<["TOKEN_NAME" := "  "]> (env with_params)) "hardhat" 0 [].

(** The parameters without [JPYC_RESCUER], and with a blank [JPYC_OWNER]. *)
Definition no_rescuer : World :=
  mkWorld ∅ ∅
    (list_to_map
       [ ("TOKEN_NAME", "JPY Coin"); ("TOKEN_SYMBOL", "JPYC");
         ("TOKEN_CURRENCY", "JPY"); ("TOKEN_DECIMALS", "18");
         ("JPYC_MINTER_ADMIN", other_address); ("JPYC_PAUSER", other_address);
         ("JPYC_BLOCKLISTER", third_address); ("JPYC_OWNER", " ") ])
    "hardhat" 0 [].

(** What [readFromEnv] makes of it. *)
Definition no_rescuer_source : JsValue :=
  VObj [ ("name", VStr "JPY Coin"); ("symbol", VStr "JPYC"); ("currency", VStr "JPY");
         ("decimals", VStr "18");
         ("minterAdmin", VStr other_address); ("pauser", VStr other_address);
         ("blocklister", VStr third_address); ("owner", VStr " ") ].

(** The record after an upgrade. *)
Definition upgraded_record : JsValue :=
  VObj [ ("network", VStr "hardhat");
         ("deployedAt", VStr "2025-01-01T00:00:00.000Z");
         ("deployer", VStr other_address);
         ("txHash", VStr "0xtx-deploy");
         ("proxy", VStr (toLowerCase proxy_address));
         ("implementation", VStr third_address);
         ("params", VObj params);
         ("implementationV2", VStr fourth_address);
         ("upgradedAt", VStr "2025-01-02T00:00:00.000Z") ].

End Sample.

(** A field value that is [undefined], [null], or blank once converted to
    a string and trimmed. *)
Definition blank_field (value : JsValue) : Prop :=
  value = VUndefined \/ value = VNull \/ trim (ToString value) = "".

Definition missing_error (e : Error) : Prop :=
  exists message, e = JsError message /\ startsWith "Missing " message = true.

(** A run of a task body from [w] that ends in an exception and has
    invoked no contract method. *)
Definition aborts_without_call {A} (run : M A) (w : World) : Prop :=
  fails (fst (run w))
  /\ contract_calls (trace (snd (run w))) = contract_calls (trace w).

(** The upgrade that [deploy:jpycv2] performs on a proxy. *)
Definition upgrade_event (proxy : string) : Event :=
  EvUpgradeProxy proxy "FiatTokenV2" "uups" "initializeV2" []
    ["constructor"; "delegatecall"].

(** The deployment that [deploy:jpycv2] performs with given arguments. *)
Definition deploy_event (args : list JsValue) : Event :=
  EvDeployProxy "FiatTokenV1" args "uups" ["constructor"; "delegatecall"].

(** A property of a record is set to a string. *)
Definition recorded (record : JsValue) (key : string) : Prop :=
  exists s, get record key = OK (VStr s).

(** A property of a record is not set. *)
Definition unrecorded (record : JsValue) (key : string) : Prop :=
  get record key = OK VUndefined.

(** The events of [verifyImplementation]. *)
Definition verify_events `{Ethers} `{Hardhat} (address : string) : list Event :=
  if negb has_verify_task then
    [EvWarn "[deploy:jpycv2] verification task not available, skipping"]
  else
    [ EvVerify address;
      match lib (run_verify address) with
      | OK _ => EvLog "[deploy:jpycv2] implementation verified"
      | Throw error =>
          EvWarn ("[deploy:jpycv2] verification skipped: " +:+ Deploy.message_of error)
      end ].

(** The events a run of [deploy:jpycv2] may add: a deployment is made
    from the FiatTokenV1 factory, and an upgrade is the upgrade to
    FiatTokenV2 with its [initializeV2] call, made only without [v1only]. *)
Definition allowed (v1only : bool) (e : Event) : Prop :=
  match e with
  | EvDeployProxy _ args _ _ => e = deploy_event args
  | EvUpgradeProxy proxy _ _ _ _ _ => v1only = false /\ e = upgrade_event proxy
  | _ => True
  end.

(** Every run of [m], completed or not, adds only events that are [ok]. *)
Definition confined (ok : Event -> Prop) {A} (m : M A) : Prop :=
  forall w r w', m w = (r, w') -> exists events, added w w' events /\ Forall ok events.

(** Every completed run of [m] adds that many deployments and upgrades. *)
Definition counts {A} (m : M A) (deploys upgrades : nat) : Prop :=
  forall w a w', m w = (OK a, w') ->
    exists events, added w w' events
                   /\ length (List.filter is_deploy events) = deploys
                   /\ length (List.filter is_upgrade events) = upgrades.

(** Every completed run of [m] returns a value in [Q]. *)
Definition returns {A} (m : M A) (Q : A -> Prop) : Prop :=
  forall w a w', m w = (OK a, w') -> Q a.

(** A computation that adds no event. *)
Definition silent {A} (m : M A) : Prop :=
  forall w r w', m w = (r, w') -> trace w' = trace w.

(** The error of [jpyc:update-roles] for a role it does not support. *)
Definition unsupported_role (role : string) : Error :=
  JsError ("Unsupported role: " +:+ role
           +:+ ". Supported roles: pauser, blocklister, rescuer, allowlister, minteradmin, owner").

(** The characters of a string. *)
Abbreviation chars := list_ascii_of_string.

(** A computation that invokes no contract method, whatever it returns. *)
Definition calm {A} (m : M A) : Prop :=
  forall w, contract_calls (trace (snd (m w))) = contract_calls (trace w).

(** From a world in [P], every completed run of [m] ends with a value and
    a world in [Q]. *)
Definition ensures {A} (m : M A) (P : World -> Prop) (Q : A -> World -> Prop) : Prop :=
  forall w a w', P w -> m w = (OK a, w') -> Q a w'.

(** The latest record on file for the current network is [record]. *)
Definition on_file `{Runtime} (record : JsValue) (w : World) : Prop :=
  files w !! latest_file (network w) = Some (JSON_stringify record).

(** ** The vocabulary of the further properties *)

(** The step of [readFromEnv]'s [reduce]. *)
Definition env_step (w : World) (acc : list (string * JsValue)) (entry : string * string)
  : list (string * JsValue) :=
  let '(field, envKey) := entry in
  match env w !! envKey with
  | Some s => obj_set field (VStr s) acc
  | None => acc
  end.

(** The five parameters of [loadParams] that are addresses, and the three
    that are texts. *)
Definition address_fields : list string :=
  ["minterAdmin"; "pauser"; "blocklister"; "rescuer"; "owner"].

Definition text_fields : list string := ["name"; "symbol"; "currency"].

(** What [loadParams] accepts as an address parameter: [c] is what
    [getAddress] makes of the trimmed text of [value], a valid address
    other than the zero address. *)
Definition accepted_address `{Ethers} (value : JsValue) (c : string) : Prop :=
  let candidate := VStr (trim (ToString value)) in
  isAddress candidate = true /\ getAddress candidate = Returns c
  /\ toLowerCase c <> ZERO_ADDRESS.

(** A complete, valid parameter source: no required field is blank, the
    decimals are an integer [d] in [0, 255], and each address field is
    accepted, as [checksum] of its name. *)
Definition valid_source `{Ethers} `{Runtime}
    (props : list (string * JsValue)) (d : Z) (checksum : string -> string) : Prop :=
  (forall field, In field Deploy.REQUIRED_FIELDS -> ~ blank_field (obj_get props field))
  /\ ToNumber (obj_get props "decimals") = NumInt d /\ 0 <= d <= 255
  /\ forall key, In key address_fields -> accepted_address (obj_get props key) (checksum key).

(** The parameters [loadParams] returns for a valid source, field by
    field. *)
Definition normalized_field (props : list (string * JsValue)) (d : Z)
    (checksum : string -> string) (key : string) : JsValue :=
  if String.eqb key "decimals" then VNum (NumInt d)
  else if existsb (String.eqb key) address_fields then VStr (checksum key)
  else if existsb (String.eqb key) text_fields
       then VStr (trim (ToString (obj_get props key)))
  else obj_get props key.

(** The object [loadParams] returns for a valid source: the decimals as a
    number, the addresses checksummed, the three texts trimmed. *)
Definition loaded (props : list (string * JsValue)) (d : Z) (checksum : string -> string)
  : list (string * JsValue) :=
  Deploy.trimField "currency"
    (Deploy.trimField "symbol"
       (Deploy.trimField "name"
          (fold_left (fun acc key => obj_set key (VStr (checksum key)) acc)
             address_fields
             (obj_set "decimals" (VNum (NumInt d)) props)))).

(** The message of [loadParams] for a missing field. *)
Definition missing_message (fromFile : bool) (field : string) : string :=
  "Missing " +:+ (if fromFile
                  then "params field " +:+ Deploy.dquote +:+ field +:+ Deploy.dquote
                  else "env var " +:+ Deploy.env_key field).

(** No colon in a text. *)
Definition colon_free (s : string) : bool :=
  all_chars (fun c => negb (Ascii.eqb c ":")) s.

(** What a handler returns for its one contract call: the receipt of the
    transaction, or the exception of sending it or of waiting for it. *)
Definition receipt_of `{Ethers} (token key : string) (args : list Arg) : Result Receipt :=
  let? tx := lib (contract_send token key args) in lib (tx_wait tx).

(** A run from [w] that has made exactly one contract call, [token[key](...args)],
    returned what came of it, and touched no file. *)
Definition one_call `{Ethers} (run : Result Receipt * World) (w : World)
    (token key : string) (args : list Arg) : Prop :=
  fst run = receipt_of token key args
  /\ contract_calls (trace (snd run))
     = (contract_calls (trace w) ++ [EvCall token key args])%list
  /\ files (snd run) = files w.

(** Two results that are the same, or are the two messages the resolvers
    of [actions.js] and [admin.js] have for the zero address. *)
Definition same_but_zero_message (actions admin : Result string) : Prop :=
  actions = admin
  \/ (actions = Throw (JsError "Contract address must not be the zero address")
      /\ admin = Throw (JsError "Contract address must not be zero")).

(** The deployments and upgrades of a trace, in order. *)
Definition key_events (t : list Event) : list Event :=
  List.filter (fun e => is_deploy e || is_upgrade e) t.

(** From [w] a run has come to [w'] having added events whose deployments
    and upgrades are [keys], read the clock [reads] times, and left the
    environment alone. *)
Definition reached (w w' : World) (keys : list Event) (reads : nat) : Prop :=
  (exists events, added w w' events /\ key_events events = keys)
  /\ ticks w' = (ticks w + reads)%nat
  /\ env w' = env w.

(** The record [deploy:jpycv2] builds after the deployment. *)
Definition base_record (networkName timestamp deployer txHash proxy implementation : string)
    (params : list (string * JsValue)) : list (string * JsValue) :=
  [ ("network", VStr networkName);
    ("deployedAt", VStr timestamp);
    ("deployer", VStr deployer);
    ("txHash", VStr txHash);
    ("proxy", VStr proxy);
    ("implementation", VStr implementation);
    ("params", VObj params) ].

(** The properties [upgradeToV2] writes into the record. *)
Definition upgrade_fields : list string :=
  ["upgradeTxHash"; "implementationV2"; "upgradedAt"].

(** A computation that, whatever its outcome, writes no file, keeps the
    network and adds neither a deployment nor an upgrade. *)
Definition quiet {A} (m : M A) : Prop :=
  forall w r w', m w = (r, w') ->
    files w' = files w /\ network w' = network w
    /\ exists events, added w w' events /\ key_events events = [].

(** How far a run from [w0] has come at [w]: the deployments and upgrades
    made so far, the files as they are, the network. *)
Definition stage (w0 : World) (keys : list Event) (fs : gmap string string)
    (networkName : string) (w : World) : Prop :=
  (exists events, added w0 w events /\ key_events events = keys)
  /\ files w = fs /\ network w = networkName.

(** From a world in [P], a run of [m] that returns ends in [R], and one
    that throws ends in [E]. *)
Definition outcome_in {A} (m : M A) (P : World -> Prop) (R : A -> World -> Prop)
    (E : World -> Prop) : Prop :=
  forall w r w', P w -> m w = (r, w') ->
    match r with OK a => R a w' | Throw _ => E w' end.

(** The files of [w'] are those of [w0] with [record] written for the
    network of [w']. *)
Definition written `{Runtime} (w0 w' : World) (record : JsValue) : Prop :=
  exists deployedAt,
    get record "deployedAt" = OK (VStr deployedAt)
    /\ files w' = <[latest_file (network w') := JSON_stringify record]>
                    (<[history_file (network w') deployedAt := JSON_stringify record]>
                       (files w0)).

(** Where a run of [deploy:jpycv2] that failed has left things: nothing
    deployed and no file written; or the proxy deployed, with its record
    written or not yet; or the upgrade invoked as well, with the record of
    the deployment, not upgraded, on file. *)
Definition left_off `{Runtime} (w0 w' : World) : Prop :=
  exists keys,
    (exists events, added w0 w' events /\ key_events events = keys)
    /\ ((keys = [] /\ files w' = files w0)
        \/ (exists args, keys = [deploy_event args]
                         /\ (files w' = files w0 \/ exists record, written w0 w' record))
        \/ (exists args proxy record,
              keys = [deploy_event args; upgrade_event proxy]
              /\ written w0 w' record
              /\ get record "proxy" = OK (VStr proxy)
              /\ unrecorded record "implementationV2")).

(** * Properties *)

Local Open Scope list_scope.

(** ** Strings *)

Lemma lower_ascii_zero (c : ascii) : lower_ascii c = "0"%char -> c = "0"%char.
Proof.
  destruct c as [[] [] [] [] [] [] [] []]; vm_compute; intros E;
    first [reflexivity | discriminate E].
Qed.

Lemma lower_ascii_x (c : ascii) :
  lower_ascii c = "x"%char -> c = "x"%char \/ c = "X"%char.
Proof.
  destruct c as [[] [] [] [] [] [] [] []]; vm_compute; intros E;
    first [left; reflexivity | right; reflexivity | discriminate E].
Qed.

Lemma toLowerCase_zeros (s t : string) :
  all_chars (Ascii.eqb "0") t = true -> toLowerCase s = t -> s = t.
Proof.
  revert t. induction s as [|c s IH]; intros [|d t] Hz E;
    cbn [all_chars toLowerCase] in *; try discriminate; auto.
  apply andb_prop in Hz as [Hd Ht]. apply Ascii.eqb_eq in Hd. subst d.
  injection E as Ec Es. f_equal.
  - now apply lower_ascii_zero.
  - now apply IH.
Qed.

Lemma hex_address_lower_zero (c : string) :
  hex_address c = true -> toLowerCase c = ZERO_ADDRESS -> c = ZERO_ADDRESS.
Proof.
  destruct c as [|a [|b r]]; cbn [hex_address toLowerCase]; try discriminate.
  intros Hx E.
  repeat (apply andb_prop in Hx as [Hx ?]).
  apply Ascii.eqb_eq in Hx. subst a.
  match goal with Hb : Ascii.eqb b _ = true |- _ => apply Ascii.eqb_eq in Hb; subst b end.
  unfold ZERO_ADDRESS in *. injection E as E.
  do 2 f_equal. now apply toLowerCase_zeros.
Qed.

(** ** The address normalizer *)

Section Normalizer.
Context `{Ethers}.

Lemma actions_normalizeAddress_ok value label c :
  isAddress value = true -> getAddress value = Returns c ->
  toLowerCase c <> ZERO_ADDRESS ->
  Actions.normalizeAddress value label = OK c.
Proof.
  intros Hv Hc Hz. unfold Actions.normalizeAddress. rewrite Hv, Hc. simpl.
  destruct (String.eqb_spec (toLowerCase c) Actions.ZERO_ADDRESS) as [E|_];
    [now elim Hz | reflexivity].
Qed.

Lemma admin_normalizeAddress_ok value label c :
  isAddress value = true -> getAddress value = Returns c ->
  toLowerCase c <> ZERO_ADDRESS ->
  Admin.normalizeAddress value label = OK c.
Proof.
  intros Hv Hc Hz. unfold Admin.normalizeAddress. rewrite Hv, Hc. simpl.
  destruct (String.eqb_spec (toLowerCase c) Admin.ZERO_ADDRESS) as [E|_];
    [now elim Hz | reflexivity].
Qed.

(** What a successful normalization says about its input. *)
Lemma actions_normalizeAddress_inv value label c :
  Actions.normalizeAddress value label = OK c ->
  isAddress value = true /\ getAddress value = Returns c
  /\ toLowerCase c <> ZERO_ADDRESS.
Proof.
  unfold Actions.normalizeAddress.
  destruct (isAddress value); simpl; [|discriminate].
  destruct (getAddress value) as [c'|]; simpl; [|discriminate].
  destruct (String.eqb_spec (toLowerCase c') Actions.ZERO_ADDRESS) as [|N];
    [discriminate|].
  intros [= <-]. auto.
Qed.

Lemma admin_normalizeAddress_inv value label c :
  Admin.normalizeAddress value label = OK c ->
  isAddress value = true /\ getAddress value = Returns c
  /\ toLowerCase c <> ZERO_ADDRESS.
Proof.
  unfold Admin.normalizeAddress.
  destruct (isAddress value); simpl; [|discriminate].
  destruct (getAddress value) as [c'|]; simpl; [|discriminate].
  destruct (String.eqb_spec (toLowerCase c') Admin.ZERO_ADDRESS) as [|N];
    [discriminate|].
  intros [= <-]. auto.
Qed.

(** C3. On every input and label, [normalizeAddress] (of [actions.js] and
    of [admin.js]) returns the EIP-55 checksummed form of a valid address
    that is not the zero address, throws when the input is not a valid
    address, and throws when the checksummed form is the zero address. *)
Theorem normalizeAddress_spec (value : JsValue) (label : string) :
  (forall c, checksummed_form value c -> c <> ZERO_ADDRESS ->
     Actions.normalizeAddress value label = OK c
     /\ Admin.normalizeAddress value label = OK c)
  /\ (isAddress value = false ->
      throws (Actions.normalizeAddress value label)
      /\ throws (Admin.normalizeAddress value label))
  /\ (checksummed_form value ZERO_ADDRESS ->
      throws (Actions.normalizeAddress value label)
      /\ throws (Admin.normalizeAddress value label)).
Proof.
  split; [|split].
  - intros c (Hv & Hc & Hx) Hz.
    assert (toLowerCase c <> ZERO_ADDRESS)
      by (intros E; apply Hz; now apply hex_address_lower_zero).
    split; [now apply actions_normalizeAddress_ok
           | now apply admin_normalizeAddress_ok].
  - intros Hv. unfold throws, Actions.normalizeAddress, Admin.normalizeAddress.
    rewrite Hv. simpl. eauto.
  - intros (Hv & Hc & _).
    unfold throws, Actions.normalizeAddress, Admin.normalizeAddress.
    rewrite Hv, Hc. simpl. eauto.
Qed.

End Normalizer.

Section NormalizerOnReference.
Import Reference.

(** On the reference environment: a lower-case address comes back
    checksummed. *)
Lemma normalizeAddress_spec_witness :
  Actions.normalizeAddress (VStr "0x5aaeb6053f3e94c9b9a09f33669435e7ef1beaed") "recipient"
    = OK "0x5aAeb6053F3E94C9b9A09f33669435E7Ef1BeAed"
  /\ Admin.normalizeAddress (VStr "0x5aaeb6053f3e94c9b9a09f33669435e7ef1beaed") "recipient"
    = OK "0x5aAeb6053F3E94C9b9A09f33669435E7Ef1BeAed".
Proof.
  apply (proj1 (normalizeAddress_spec
                  (VStr "0x5aaeb6053f3e94c9b9a09f33669435e7ef1beaed") "recipient")).
  - repeat split; reflexivity.
  - discriminate.
Defined.

End NormalizerOnReference.

(** ** Contract-address resolution *)

Lemma js_or_left (a b : JsValue) : truthy a = true -> js_or a b = a.
Proof. unfold js_or. now intros ->. Qed.

Lemma js_or_right (a b : JsValue) : truthy a = false -> js_or a b = b.
Proof. unfold js_or. now intros ->. Qed.

Section Resolution.
Context `{Ethers} `{Runtime}.

Lemma actions_resolve_truthy depth w explicit :
  truthy explicit = true ->
  Actions.resolveContractAddress_at depth w explicit = Actions.checkExplicit explicit.
Proof. intros T. destruct depth; simpl; now rewrite T. Qed.

Lemma admin_resolve_truthy depth w explicit :
  truthy explicit = true ->
  Admin.resolveContractAddress_at depth w explicit = Admin.checkExplicit explicit.
Proof. intros T. destruct depth; simpl; now rewrite T. Qed.

(** One level of calls is all the resolver ever needs: more depth gives
    the same result. *)
Lemma actions_resolve_depth depth w explicit :
  Actions.resolveContractAddress_at (S depth) w explicit
  = Actions.resolveContractAddress w explicit.
Proof.
  unfold Actions.resolveContractAddress. simpl.
  destruct (truthy explicit); [reflexivity|].
  destruct (truthy (js_or _ _)) eqn:T.
  - now rewrite !actions_resolve_truthy.
  - destruct (files w !! _); [|reflexivity].
    destruct (parsed_json _) as [parsed|]; simpl; [|reflexivity].
    destruct (truthy parsed); [|reflexivity].
    destruct (get parsed "proxy") as [proxy|]; simpl; [|reflexivity].
    destruct (truthy proxy) eqn:P; [|reflexivity].
    now rewrite !actions_resolve_truthy.
Qed.

Lemma admin_resolve_depth depth w explicit :
  Admin.resolveContractAddress_at (S depth) w explicit
  = Admin.resolveContractAddress w explicit.
Proof.
  unfold Admin.resolveContractAddress. simpl.
  destruct (truthy explicit); [reflexivity|].
  destruct (truthy (js_or _ _)) eqn:T.
  - now rewrite !admin_resolve_truthy.
  - destruct (files w !! _); [|reflexivity].
    destruct (parsed_json _) as [parsed|]; simpl; [|reflexivity].
    destruct (truthy parsed); [|reflexivity].
    destruct (get parsed "proxy") as [proxy|]; simpl; [|reflexivity].
    destruct (truthy proxy) eqn:P; [|reflexivity].
    now rewrite !admin_resolve_truthy.
Qed.

Lemma actions_resolution_order :
  resolution_order Actions.resolveContractAddress Actions.checkExplicit.
Proof.
  intros w explicit P A. unfold Actions.resolveContractAddress.
  repeat split.
  - intros T. now apply actions_resolve_truthy.
  - intros E T. simpl. rewrite E. fold P A. rewrite (js_or_left _ _ T), T.
    reflexivity.
  - intros E T1 T2. simpl. rewrite E. fold P A. rewrite (js_or_right _ _ T1), T2.
    reflexivity.
  - intros E T1 T2 proxy R. simpl. rewrite E. fold P A.
    rewrite (js_or_right _ _ T1), T2.
    inversion R as [| | |contents parsed ? F J TP G TG]; subst.
    unfold latest_file in F. unfold Actions.DEFAULT_DEPLOYMENTS_DIR.
    rewrite F, J. simpl. rewrite TP, G. simpl. now rewrite ?TG.
  - intros E T1 T2 R. simpl. rewrite E. fold P A.
    rewrite (js_or_right _ _ T1), T2. unfold Actions.DEFAULT_DEPLOYMENTS_DIR.
    inversion R as [F|contents parsed F J TP|contents parsed proxy F J TP G TG|];
      subst; unfold latest_file in F; rewrite F; try reflexivity;
      rewrite J; simpl; rewrite TP; try reflexivity.
    rewrite G. simpl. now rewrite TG.
Qed.

Lemma admin_resolution_order :
  resolution_order Admin.resolveContractAddress Admin.checkExplicit.
Proof.
  intros w explicit P A. unfold Admin.resolveContractAddress.
  repeat split.
  - intros T. now apply admin_resolve_truthy.
  - intros E T. simpl. rewrite E. fold P A. rewrite (js_or_left _ _ T), T.
    reflexivity.
  - intros E T1 T2. simpl. rewrite E. fold P A. rewrite (js_or_right _ _ T1), T2.
    reflexivity.
  - intros E T1 T2 proxy R. simpl. rewrite E. fold P A.
    rewrite (js_or_right _ _ T1), T2.
    inversion R as [| | |contents parsed ? F J TP G TG]; subst.
    unfold latest_file in F. unfold Admin.DEFAULT_DEPLOYMENTS_DIR.
    rewrite F, J. simpl. rewrite TP, G. simpl. now rewrite ?TG.
  - intros E T1 T2 R. simpl. rewrite E. fold P A.
    rewrite (js_or_right _ _ T1), T2. unfold Admin.DEFAULT_DEPLOYMENTS_DIR.
    inversion R as [F|contents parsed F J TP|contents parsed proxy F J TP G TG|];
      subst; unfold latest_file in F; rewrite F; try reflexivity;
      rewrite J; simpl; rewrite TP; try reflexivity.
    rewrite G. simpl. now rewrite TG.
Qed.




End Resolution.

Section ResolutionOnReference.
Import Reference.


End ResolutionOnReference.

(** ** The deployment record store *)

Section RecordStore.
Context `{Ethers} `{Runtime}.

Lemma history_timestamp_ok record ts :
  Deploy.history_timestamp record = OK ts ->
  exists deployedAt,
    get record "deployedAt" = OK (VStr deployedAt) /\ ts = replace_colons deployedAt.
Proof.
  unfold Deploy.history_timestamp.
  destruct (get record "deployedAt") as [[]|]; simpl; try discriminate.
  intros [= <-]. eauto.
Qed.

(** A completed [persistDeployment] has written the serialized record to
    the history file and to the latest file, in that order, and changed
    nothing else but possibly the set of directories. *)
Lemma persistDeployment_ok networkName record w w' :
  Deploy.persistDeployment networkName record w = (OK tt, w') ->
  exists deployedAt,
    get record "deployedAt" = OK (VStr deployedAt)
    /\ files w' = <[latest_file networkName := JSON_stringify record]>
                    (<[history_file networkName deployedAt := JSON_stringify record]>
                       (files w))
    /\ env w' = env w /\ network w' = network w
    /\ trace w' = trace w /\ ticks w' = ticks w.
Proof.
  unfold Deploy.persistDeployment, bind, ask, lift, ret, Deploy.mkdirSync,
    Deploy.writeFileSync.
  destruct (bool_decide _); simpl;
    destruct (Deploy.history_timestamp record) as [ts|] eqn:T; simpl;
    try discriminate; intros [= <-];
    apply history_timestamp_ok in T as (d & G & ->);
    exists d; repeat split; assumption.
Qed.

(** Whatever its outcome, [persistDeployment] adds no event, keeps the
    network, the environment and the clock. *)
Lemma persistDeployment_quiet networkName record w r w' :
  Deploy.persistDeployment networkName record w = (r, w') ->
  trace w' = trace w /\ network w' = network w /\ env w' = env w
  /\ ticks w' = ticks w.
Proof.
  unfold Deploy.persistDeployment, bind, ask, lift, ret, Deploy.mkdirSync,
    Deploy.writeFileSync.
  destruct (bool_decide _); simpl;
    destruct (Deploy.history_timestamp record) as [ts|]; simpl;
    intros [= <- <-]; repeat split.
Qed.

(** C1. After [persistDeployment(networkName, record)] for a record whose
    [proxy] is a valid address other than the zero address, and which
    JSON gives back when it parses what it printed, resolving the contract
    address on that network with no argument and neither variable set
    returns the checksummed form of [record.proxy]. *)
Theorem deployment_roundtrip
    (w w' : World) (networkName : string) (record proxy : JsValue) (c : string) :
  get record "proxy" = OK proxy ->
  truthy proxy = true ->
  checksummed_form proxy c ->
  c <> ZERO_ADDRESS ->
  (exists parsed, JSON_parse (JSON_stringify record) = Returns parsed
                  /\ truthy parsed = true /\ get parsed "proxy" = OK proxy) ->
  env w !! "JPYC_PROXY" = None ->
  env w !! "JPYC_CONTRACT_ADDRESS" = None ->
  Deploy.persistDeployment networkName record w = (OK tt, w') ->
  Actions.resolveContractAddress (with_network networkName w') VUndefined = OK c
  /\ Admin.resolveContractAddress (with_network networkName w') VUndefined = OK c.
Proof.
  intros G T (Hv & Hc & Hx) Hz (parsed & J & TP & GP) E1 E2 P.
  apply persistDeployment_ok in P as (d & _ & F & E & _).
  set (w2 := with_network networkName w').
  assert (R : recorded_proxy w2 (Some proxy)).
  { apply recorded_some with (contents := JSON_stringify record) (parsed := parsed);
      try assumption.
    unfold w2. simpl. rewrite F. apply lookup_insert_eq. }
  assert (N1 : truthy (getenv w2 "JPYC_PROXY") = false)
    by (unfold getenv, w2; simpl; now rewrite E, E1).
  assert (N2 : truthy (getenv w2 "JPYC_CONTRACT_ADDRESS") = false)
    by (unfold getenv, w2; simpl; now rewrite E, E2).
  assert (Z : toLowerCase c <> ZERO_ADDRESS)
    by (intros L; apply Hz; now apply hex_address_lower_zero).
  split.
  - destruct (actions_resolution_order w2 VUndefined) as (_ & _ & _ & O & _).
    rewrite (O eq_refl N1 N2 proxy R). unfold Actions.checkExplicit.
    rewrite Hv, Hc. simpl.
    destruct (String.eqb_spec (toLowerCase c) Actions.ZERO_ADDRESS); [now elim Z|reflexivity].
  - destruct (admin_resolution_order w2 VUndefined) as (_ & _ & _ & O & _).
    rewrite (O eq_refl N1 N2 proxy R). unfold Admin.checkExplicit.
    rewrite Hv, Hc. simpl.
    destruct (String.eqb_spec (toLowerCase c) Admin.ZERO_ADDRESS); [now elim Z|reflexivity].
Qed.

End RecordStore.

Section RecordStoreOnReference.
Import Reference.

(** On the reference environment: the record of the sample deployment,
    persisted in a fresh world and found again. *)
Lemma deployment_roundtrip_witness :
  Actions.resolveContractAddress (with_network "hardhat" Sample.deployed) VUndefined
    = OK Sample.proxy_address
  /\ Admin.resolveContractAddress (with_network "hardhat" Sample.deployed) VUndefined
    = OK Sample.proxy_address.
Proof.
  apply (deployment_roundtrip Sample.fresh Sample.deployed "hardhat" Sample.record
           (VStr (toLowerCase Sample.proxy_address)) Sample.proxy_address).
  - reflexivity.
  - reflexivity.
  - repeat split; reflexivity.
  - discriminate.
  - eexists. split; [vm_compute; reflexivity|]. split; reflexivity.
  - reflexivity.
  - reflexivity.
  - reflexivity.
Defined.

End RecordStoreOnReference.

(** ** File names *)

Lemma chars_app (a b : string) : chars (a +:+ b) = (chars a ++ chars b)%list.
Proof. induction a as [|c a IH]; simpl; [reflexivity | now rewrite IH]. Qed.

Lemma chars_inj (a b : string) : chars a = chars b -> a = b.
Proof.
  intros E. rewrite <- (string_of_list_ascii_of_string a),
    <- (string_of_list_ascii_of_string b). now rewrite E.
Qed.

Lemma path_join_inj (dir a b : string) : path_join dir a = path_join dir b -> a = b.
Proof.
  unfold path_join. intros E. apply (f_equal chars) in E.
  rewrite !chars_app in E. do 2 apply app_inv_head in E. now apply chars_inj.
Qed.

(** Two lists that end the same way: the shorter ending is the end of the
    longer one. *)
Lemma suffix_align {A} (l1 l2 x y : list A) :
  (l1 ++ x = l2 ++ y)%list -> (length y <= length x)%nat ->
  y = drop (length x - length y) x
  /\ l2 = (l1 ++ take (length x - length y) x)%list.
Proof.
  intros E L. set (k := (length x - length y)%nat).
  rewrite <- (take_drop k x), app_assoc in E.
  apply app_inj_2 in E as [E1 E2].
  - now split.
  - rewrite length_drop. unfold k. lia.
Qed.

Lemma matches_length (shape : list (ascii -> bool)) (s : string) :
  matches shape s = true -> length (chars s) = length shape.
Proof.
  revert s. induction shape as [|p shape IH]; intros [|c s]; simpl;
    try discriminate; auto.
  intros M. apply andb_prop in M as [_ M]. f_equal. now apply IH.
Qed.

Lemma matches_lookup (shape : list (ascii -> bool)) (s : string) (i : nat) p :
  matches shape s = true -> shape !! i = Some p ->
  exists c, chars s !! i = Some c /\ p c = true.
Proof.
  revert s i. induction shape as [|q shape IH]; intros [|c s] i; simpl;
    try discriminate.
  intros M. apply andb_prop in M as [Q M]. destruct i as [|i]; simpl.
  - intros [= <-]. eauto.
  - now apply IH.
Qed.

Lemma replace_colons_length (s : string) :
  length (chars (replace_colons s)) = length (chars s).
Proof. induction s as [|c s IH]; simpl; [reflexivity | now rewrite IH]. Qed.

Lemma replace_colons_lookup (s : string) (i : nat) (c : ascii) :
  chars s !! i = Some c ->
  chars (replace_colons s) !! i = Some (if Ascii.eqb c ":" then "-"%char else c).
Proof.
  revert i. induction s as [|d s IH]; intros [|i]; simpl; try discriminate.
  - now intros [= <-].
  - apply IH.
Qed.

Lemma digit_kept (c : ascii) :
  is_digit c = true ->
  (if Ascii.eqb c ":" then "-"%char else c) = c /\ c <> "-"%char.
Proof.
  destruct c as [[] [] [] [] [] [] [] []]; vm_compute;
    first [discriminate | split; [reflexivity | discriminate]].
Qed.

(** What the name of a history file needs of a timestamp: its length, its
    last character, and a digit in third place when the year is signed. *)
Lemma iso_timestamp_chars (deployedAt : string) :
  iso_timestamp deployedAt = true ->
  let t := chars (replace_colons deployedAt) in
  (length t = 24%nat
   \/ length t = 27%nat /\ exists c, t !! 2%nat = Some c /\ c <> "-"%char)
  /\ t !! (length t - 1)%nat = Some "Z"%char.
Proof.
  unfold iso_timestamp. intros I. apply orb_prop in I as [M|M]; cbv zeta;
    rewrite replace_colons_length, (matches_length _ _ M); simpl length;
    cbn [Nat.sub].
  - split; [now left|].
    destruct (matches_lookup _ _ 23%nat (lit "Z") M eq_refl) as (c & G & L).
    apply Ascii.eqb_eq in L. subst c.
    now rewrite (replace_colons_lookup _ _ _ G).
  - split.
    + right. split; [reflexivity|].
      destruct (matches_lookup _ _ 2%nat is_digit M eq_refl) as (c & G & D).
      exists c. rewrite (replace_colons_lookup _ _ _ G).
      destruct (digit_kept c D) as [-> N]. now split.
    + destruct (matches_lookup _ _ 26%nat (lit "Z") M eq_refl) as (c & G & L).
      apply Ascii.eqb_eq in L. subst c.
      now rewrite (replace_colons_lookup _ _ _ G).
Qed.

Section FileNames.
Context `{Runtime}.

Lemma latest_file_inj (a b : string) : latest_file a = latest_file b -> a = b.
Proof.
  unfold latest_file. intros E. apply path_join_inj in E.
  apply (f_equal chars) in E. rewrite !chars_app in E.
  apply app_inv_tail in E. now apply chars_inj.
Qed.

(** A history file is nobody's latest file. *)
Lemma history_not_latest (a b deployedAt : string) :
  iso_timestamp deployedAt = true ->
  history_file a deployedAt <> latest_file b.
Proof.
  intros I E. unfold history_file, latest_file in E. apply path_join_inj in E.
  apply (f_equal chars) in E. rewrite !chars_app in E.
  set (t := chars (replace_colons deployedAt)) in *.
  destruct (iso_timestamp_chars _ I) as (_ & Z). fold t in Z.
  assert (T : t = (take (length t - 1) t ++ ["Z"%char])%list).
  { rewrite <- (take_drop (length t - 1) t) at 1. f_equal.
    apply list_eq. intros [|i].
    - rewrite lookup_drop, Nat.add_0_r. exact Z.
    - rewrite lookup_drop. simpl. apply lookup_ge_None. lia. }
  rewrite T in E.
  change (chars "-latest.json") with (chars "-lates" ++ "t"%char :: chars ".json")%list in E.
  change (chars "-") with ["-"%char] in E.
  rewrite <- !app_assoc in E. simpl in E.
  assert (E' : ((chars a ++ "-"%char :: take (length t - 1) t)
                ++ "Z"%char :: chars ".json"
                = (chars b ++ chars "-lates") ++ "t"%char :: chars ".json")%list)
    by (rewrite <- !app_assoc; simpl; exact E).
  apply app_inj_2 in E' as [_ E']; [discriminate E' | reflexivity].
Qed.

(** Two history files with the same name belong to the same network. *)
Lemma history_file_inj (a b d1 d2 : string) :
  iso_timestamp d1 = true -> iso_timestamp d2 = true ->
  history_file a d1 = history_file b d2 -> a = b.
Proof.
  intros I1 I2 E. unfold history_file in E. apply path_join_inj in E.
  apply (f_equal chars) in E. rewrite !chars_app in E.
  rewrite !app_assoc in E. apply app_inv_tail in E. rewrite <- !app_assoc in E.
  change (chars "-") with ["-"%char] in E. simpl in E.
  destruct (iso_timestamp_chars _ I1) as (L1 & _).
  destruct (iso_timestamp_chars _ I2) as (L2 & _). cbv zeta in L1, L2.
  set (t1 := chars (replace_colons d1)) in *.
  set (t2 := chars (replace_colons d2)) in *.
  assert (same : length t1 = length t2 -> a = b).
  { intros L. apply app_inj_2 in E as [E _]; [now apply chars_inj | simpl; lia]. }
  assert (longer : forall (x y : string) (u v : list ascii),
             (chars x ++ "-"%char :: u = chars y ++ "-"%char :: v)%list ->
             length u = 27%nat -> length v = 24%nat ->
             (exists c, u !! 2%nat = Some c /\ c <> "-"%char) -> False).
  { intros x y u v Q Lu Lv (c & G & N).
    apply suffix_align in Q as [Q _]; [|simpl; lia].
    simpl length in Q. rewrite Lu, Lv in Q. simpl in Q.
    destruct u as [|u0 [|u1 [|u2 u]]]; simpl in *; try discriminate.
    injection G as ->. injection Q as Q _. now apply N. }
  destruct L1 as [L1|(L1 & D1)], L2 as [L2|(L2 & D2)].
  - apply same. lia.
  - exfalso. symmetry in E. now apply (longer _ _ _ _ E L2 L1).
  - exfalso. now apply (longer _ _ _ _ E L1 L2).
  - apply same. lia.
Qed.

End FileNames.

Section RecordStoreFrame.
Context `{Ethers} `{Runtime}.

Lemma persistDeployment_runs networkName record deployedAt w :
  get record "deployedAt" = OK (VStr deployedAt) ->
  exists w', Deploy.persistDeployment networkName record w = (OK tt, w').
Proof.
  intros G.
  unfold Deploy.persistDeployment, bind, ask, lift, ret, Deploy.mkdirSync,
    Deploy.writeFileSync, Deploy.history_timestamp.
  rewrite G. destruct (bool_decide _); simpl; eauto.
Qed.

(** C9. [persistDeployment(networkName, record)], for a record stamped by
    the clock and a network name that is one path segment, completes; it
    writes two different files, [networkName-<timestamp>.json] and
    [networkName-latest.json], both holding the same serialization of the
    record; every other file is as before, and so is every file of every
    other network. *)
Theorem persistDeployment_frame
    (w : World) (networkName deployedAt : string) (record : JsValue) :
  plain_name networkName = true ->
  get record "deployedAt" = OK (VStr deployedAt) ->
  iso_timestamp deployedAt = true ->
  let history := history_file networkName deployedAt in
  let latest := latest_file networkName in
  exists w',
    Deploy.persistDeployment networkName record w = (OK tt, w')
    /\ history <> latest
    /\ files w' !! history = Some (JSON_stringify record)
    /\ files w' !! latest = Some (JSON_stringify record)
    /\ (forall file, file <> history -> file <> latest ->
        files w' !! file = files w !! file)
    /\ (forall other file, plain_name other = true -> other <> networkName ->
        file_of_network other file ->
        files w' !! file = files w !! file).
Proof.
  intros _ G I history latest.
  destruct (persistDeployment_runs networkName record deployedAt w G) as (w' & P).
  exists w'. split; [exact P|].
  apply persistDeployment_ok in P as (d & G' & F & _).
  rewrite G in G'. injection G' as <-. fold history latest in F.
  assert (D : history <> latest) by now apply history_not_latest.
  split; [exact D|]. rewrite F.
  split; [|split; [|split]].
  - rewrite lookup_insert_ne by congruence. apply lookup_insert_eq.
  - apply lookup_insert_eq.
  - intros file N1 N2. now rewrite !lookup_insert_ne by congruence.
  - intros other file _ N [->|(d & Id & ->)].
    + rewrite !lookup_insert_ne; [reflexivity| |].
      * intros E. now apply history_not_latest in E.
      * intros E. apply latest_file_inj in E. congruence.
    + rewrite !lookup_insert_ne; [reflexivity| |].
      * intros E. apply history_file_inj in E; congruence.
      * intros E. symmetry in E. now apply history_not_latest in E.
Qed.

End RecordStoreFrame.

Section RecordStoreFrameOnReference.
Import Reference.

(** On the reference environment: the sample deployment on [hardhat]
    leaves the latest record of [sepolia] as it was, here absent. *)
Lemma persistDeployment_frame_witness :
  exists w',
    Deploy.persistDeployment "hardhat" Sample.record Sample.fresh = (OK tt, w')
    /\ files w' !! latest_file "hardhat" = Some (JSON_stringify Sample.record)
    /\ files w' !! latest_file "sepolia" = None.
Proof.
  destruct (persistDeployment_frame Sample.fresh "hardhat" "2025-01-01T00:00:00.000Z"
              Sample.record eq_refl eq_refl eq_refl)
    as (w' & P & _ & _ & L & _ & O).
  exists w'. split; [exact P|]. split; [exact L|].
  rewrite (O "sepolia" (latest_file "sepolia")).
  - reflexivity.
  - reflexivity.
  - discriminate.
  - now left.
Defined.

End RecordStoreFrameOnReference.

(** ** The parameter loader *)

Section Loader.
Context `{Ethers} `{Runtime}.

Lemma is_missing_blank (value : JsValue) :
  Deploy.is_missing value = true <-> blank_field value.
Proof.
  unfold Deploy.is_missing, blank_field. split.
  - intros M. apply orb_prop in M as [N|B].
    + destruct value; try discriminate; auto.
    + right; right. now apply String.eqb_eq.
  - intros [->|[->|B]]; try reflexivity.
    apply orb_true_intro. right. now apply String.eqb_eq.
Qed.

Lemma throws_missing_iff {A} (r : Result A) :
  throws_missing r <-> exists e, r = Throw e /\ missing_error e.
Proof.
  unfold throws_missing, missing_error. split.
  - intros (m & -> & S). eauto.
  - intros (e & -> & m & -> & S). eauto.
Qed.

(** An object can be read at every field once it can be read at one. *)
Lemma get_total (source : JsValue) (field field' : string) (value : JsValue) :
  get source field = OK value -> exists value', get source field' = OK value'.
Proof. destruct source; simpl; try discriminate; eauto. Qed.

Lemma get_error (source : JsValue) (field : string) (e : Error) :
  get source field = Throw e -> ~ missing_error e.
Proof.
  destruct source; simpl; try discriminate; intros [= <-] (m & E & _);
    discriminate E.
Qed.

Lemma requireField_missing fromFile source field value :
  get source field = OK value -> Deploy.is_missing value = true ->
  exists e, Deploy.requireField fromFile source field = Throw e /\ missing_error e.
Proof.
  intros G M. unfold Deploy.requireField. rewrite G. simpl. rewrite M.
  eexists. split; [reflexivity|]. eexists. split; [reflexivity|].
  destruct fromFile; reflexivity.
Qed.

Lemma requireField_inv fromFile source field e :
  Deploy.requireField fromFile source field = Throw e -> missing_error e ->
  exists value, get source field = OK value /\ Deploy.is_missing value = true.
Proof.
  unfold Deploy.requireField.
  destruct (get source field) as [value|e'] eqn:G; simpl.
  - destruct (Deploy.is_missing value) eqn:M; [eauto | discriminate].
  - intros [= <-] Me. now apply get_error in G.
Qed.

(** The loop over the required fields ends on a "Missing" error exactly
    when one of the fields is missing. *)
Lemma required_loop fromFile source (fields : list string) :
  (exists e, Deploy.forEach (Deploy.requireField fromFile source) fields = Throw e
             /\ missing_error e)
  <-> exists field value, In field fields /\ get source field = OK value
                          /\ Deploy.is_missing value = true.
Proof.
  induction fields as [|f fields IH]; simpl.
  - split; [intros (e & E & _); discriminate E | intros (? & ? & [] & _)].
  - split.
    + intros (e & E & Me).
      destruct (Deploy.requireField fromFile source f) as [[]|e'] eqn:R; simpl in E.
      * destruct (proj1 IH) as (g & v & I & G & M); [eauto|]. exists g, v. auto.
      * injection E as ->.
        destruct (requireField_inv _ _ _ _ R Me) as (v & G & M).
        exists f, v. auto.
    + intros (g & v & [<-|I] & G & M).
      * destruct (requireField_missing fromFile source f v G M) as (e & -> & Me).
        simpl. eauto.
      * destruct (Deploy.requireField fromFile source f) as [[]|e'] eqn:R; simpl.
        -- apply IH. eauto.
        -- exists e'. split; [reflexivity|].
           unfold Deploy.requireField in R.
           destruct (get_total source g f v G) as (v' & G').
           rewrite G' in R. simpl in R.
           destruct (Deploy.is_missing v'); [|discriminate].
           injection R as <-. eexists. split; [reflexivity|].
           destruct fromFile; reflexivity.
Qed.

Lemma paramSource_error w paramsPath e :
  Deploy.paramSource w paramsPath = Throw e -> ~ missing_error e.
Proof.
  unfold Deploy.paramSource, Deploy.readConfigFile.
  destruct (truthy paramsPath); [|discriminate].
  destruct (files w !! _).
  - destruct (JSON_parse _); simpl; [discriminate|].
    intros [= <-] (m & E & _). discriminate E.
  - intros [= <-] (m & E & _). discriminate E.
Qed.

Lemma normalizeField_error normalized key e :
  Deploy.normalizeField normalized key = Throw e -> ~ missing_error e.
Proof.
  unfold Deploy.normalizeField.
  destruct (isAddress _); simpl.
  - destruct (getAddress _) as [c|m]; simpl.
    + destruct (String.eqb _ _); [|discriminate].
      intros [= <-] (m & [= <-] & S). discriminate S.
    + intros [= <-] (m' & E & _). discriminate E.
  - intros [= <-] (m & [= <-] & S). discriminate S.
Qed.

Lemma address_loop_error normalized (keys : list string) e :
  Deploy.forEachOn Deploy.normalizeField normalized keys = Throw e ->
  ~ missing_error e.
Proof.
  revert normalized. induction keys as [|k keys IH]; intros normalized; simpl.
  - discriminate.
  - destruct (Deploy.normalizeField normalized k) as [n'|e'] eqn:N; simpl.
    + apply IH.
    + intros [= <-]. now apply normalizeField_error in N.
Qed.

(** C4. [loadParams] throws a "Missing" error if and only if, in the
    source it resolved (the parameter file when a path is given, the
    environment otherwise), one of the nine required fields is
    [undefined], [null], or blank after conversion to a string and
    trimming. *)
Theorem loadParams_missing (w : World) (paramsPath : JsValue) :
  throws_missing (Deploy.loadParams w paramsPath)
  <-> exists source field value,
        Deploy.paramSource w paramsPath = OK source
        /\ In field [ "name"; "symbol"; "currency"; "decimals"; "minterAdmin";
                      "pauser"; "blocklister"; "rescuer"; "owner" ]
        /\ get source field = OK value
        /\ blank_field value.
Proof.
  rewrite throws_missing_iff. unfold Deploy.loadParams.
  destruct (Deploy.paramSource w paramsPath) as [source|e0] eqn:S; cbn [bindR].
  - pose proof (required_loop (truthy paramsPath) source Deploy.REQUIRED_FIELDS) as L.
    destruct (Deploy.forEach _ Deploy.REQUIRED_FIELDS) as [[]|e1] eqn:F; cbn [bindR].
    + split.
      * intros (e & E & Me). exfalso.
        destruct (ToNumber _) as [d|t]; [|injection E as <-;
          destruct Me as (m & [= <-] & X); discriminate X].
        destruct ((d <? 0) || (d >? 255)).
        { injection E as <-. destruct Me as (m & [= <-] & X). discriminate X. }
        destruct (Deploy.forEachOn _ _ _) as [n|e'] eqn:A; cbn [bindR] in E;
          [discriminate|].
        injection E as <-. now apply address_loop_error in A.
      * intros (s & f & v & [= <-] & I & G & B). exfalso.
        destruct (proj2 L) as (e & E & _); [|discriminate E].
        exists f, v. repeat split; auto. now apply is_missing_blank.
    + split.
      * intros (e & [= <-] & Me).
        destruct (proj1 L) as (f & v & I & G & M); [eauto|].
        exists source, f, v. repeat split; auto. now apply is_missing_blank.
      * intros (s & f & v & [= <-] & I & G & B).
        destruct (proj2 L) as (e & [= <-] & Me); [|eauto].
        exists f, v. repeat split; auto. now apply is_missing_blank.
  - split.
    + intros (e & [= <-] & Me). now apply paramSource_error in S.
    + intros (s & f & v & E & _). discriminate E.
Qed.

End Loader.

(** ** The limit on decimals *)

Section Decimals.
Context `{Ethers} `{Runtime}.

Lemma out_of_range (z : Z) :
  (z <? 0) || (z >? 255) = negb ((0 <=? z) && (z <=? 255)).
Proof.
  destruct (Z.ltb_spec z 0), (Z.gtb_spec z 255), (Z.leb_spec 0 z),
    (Z.leb_spec z 255); simpl; try reflexivity; lia.
Qed.

Lemma required_loop_passes fromFile source (fields : list string) :
  (forall field, In field fields ->
     exists value, get source field = OK value /\ ~ blank_field value) ->
  Deploy.forEach (Deploy.requireField fromFile source) fields = OK tt.
Proof.
  induction fields as [|f fields IH]; intros A; simpl; [reflexivity|].
  destruct (A f) as (v & G & B); [now left|].
  unfold Deploy.requireField at 1. rewrite G. simpl.
  destruct (Deploy.is_missing v) eqn:M.
  - elim B. now apply is_missing_blank.
  - simpl. apply IH. intros g I. apply A. now right.
Qed.

(** A source that has a required field is an object. *)
Lemma source_is_object (source : JsValue) (field : string) (value : JsValue) :
  get source field = OK value -> ~ blank_field value ->
  exists props, source = VObj props /\ value = obj_get props field.
Proof.
  destruct source; simpl; try discriminate; intros [= <-] B;
    try (elim B; now left).
  eauto.
Qed.

(** C10. The limit on [decimals] is enforced by [loadParams] (once the
    nine required fields are there) and by [normalizeAmount] without
    [raw]: a value whose number is not an integer in [0, 255] makes them
    throw "decimals must be an integer between 0 and 255", and one that
    is lets [normalizeAmount] scale the amount by it.  With [raw],
    [normalizeAmount] is [BigNumber.from(amount)] whatever [decimals] is. *)
Theorem decimals_limit
    (w : World) (paramsPath source amount decimals : JsValue) :
  let given := if nullish decimals then VNum (NumInt 18) else decimals in
  (Deploy.paramSource w paramsPath = OK source ->
   (forall field, In field Deploy.REQUIRED_FIELDS ->
      exists value, get source field = OK value /\ ~ blank_field value) ->
   forall value, get source "decimals" = OK value ->
     valid_decimals (ToNumber value) = false ->
     Deploy.loadParams w paramsPath = Throw decimals_error)
  /\ (valid_decimals (ToNumber given) = false ->
      Actions.normalizeAmount amount decimals false = Throw decimals_error)
  /\ (forall d, ToNumber given = NumInt d -> 0 <= d <= 255 ->
      Actions.normalizeAmount amount decimals false = lib (parseUnits amount d))
  /\ Actions.normalizeAmount amount decimals true = lib (BigNumber_from amount).
Proof.
  intros given. split; [|split; [|split]].
  - intros S A value G V. unfold Deploy.loadParams. rewrite S. cbn [bindR].
    rewrite (required_loop_passes _ _ _ A). cbn [bindR].
    destruct (A "decimals") as (v & G' & B); [simpl; tauto|].
    rewrite G in G'. injection G' as <-.
    destruct (source_is_object _ _ _ G B) as (props & -> & ->).
    cbn [Deploy.spread].
    destruct (ToNumber (obj_get props "decimals")) as [z|t]; [|reflexivity].
    simpl in V. rewrite out_of_range, V. reflexivity.
  - intros V. unfold Actions.normalizeAmount, Actions.DEFAULT_DECIMALS. fold given.
    destruct (ToNumber given) as [z|t]; [|reflexivity].
    simpl in V. rewrite out_of_range, V. reflexivity.
  - intros d E R. unfold Actions.normalizeAmount, Actions.DEFAULT_DECIMALS.
    fold given. rewrite E.
    rewrite out_of_range.
    replace ((0 <=? d) && (d <=? 255)) with true; [reflexivity|].
    symmetry. apply andb_true_intro. split; apply Z.leb_le; lia.
  - reflexivity.
Qed.

End Decimals.

Section LoaderOnReference.
Import Reference.

(** On the reference environment: a blank [TOKEN_NAME] is a missing
    parameter. *)
Lemma loadParams_missing_witness :
  throws_missing (Deploy.loadParams Sample.blank_name VUndefined).
Proof.
  apply (proj2 (loadParams_missing Sample.blank_name VUndefined)).
  exists (Deploy.readFromEnv Sample.blank_name), "name", (VStr "  ").
  split; [reflexivity|]. split; [now left|]. split; [reflexivity|].
  right; right. reflexivity.
Defined.

(** On the reference environment: 256 decimals are refused by the loader
    and by the amount normalizer, 18 scale the amount, and [raw] ignores
    them. *)
Lemma decimals_limit_witness :
  Deploy.loadParams Sample.too_many_decimals VUndefined = Throw decimals_error
  /\ Actions.normalizeAmount (VStr "5") (VNum (NumInt 256)) false = Throw decimals_error
  /\ Actions.normalizeAmount (VStr "5") VUndefined false = OK 5000000000000000000
  /\ Actions.normalizeAmount (VStr "5") (VNum (NumInt 256)) true = OK 5.
Proof.
  destruct (decimals_limit Sample.too_many_decimals VUndefined
              Sample.too_many_decimals_source
              (VStr "5") (VNum (NumInt 256))) as (L & N & _ & R).
  destruct (decimals_limit Sample.too_many_decimals VUndefined
              Sample.too_many_decimals_source
              (VStr "5") VUndefined) as (_ & _ & S & _).
  split; [|split; [|split]].
  - apply L with (value := VStr "256"); try reflexivity.
    intros field I. simpl in I.
    repeat (destruct I as [<-|I];
            [eexists; split; [reflexivity | intros [X|[X|X]]; discriminate X]|]).
    destruct I.
  - apply N. reflexivity.
  - rewrite (S 18 eq_refl); [reflexivity | lia].
  - rewrite R. reflexivity.
Defined.

End LoaderOnReference.

(** ** The command handlers *)

Lemma contract_calls_snoc (t : list Event) (e : Event) :
  contract_calls (t ++ [e]) = (contract_calls t ++ if is_call e then [e] else [])%list.
Proof.
  unfold contract_calls. rewrite List.filter_app. simpl.
  now destruct (is_call e).
Qed.

Lemma calm_lift {A} (r : Result A) : calm (lift r).
Proof. intros w. reflexivity. Qed.

Lemma calm_log (line : string) : calm (console_log line).
Proof.
  intros w. unfold console_log, emit. simpl. rewrite contract_calls_snoc.
  simpl. apply app_nil_r.
Qed.

(** After a calm step, the rest decides: when the rest aborts without a
    call from wherever the step leaves it, so does the whole. *)
Lemma aborts_bind {A B} (m : M A) (k : A -> M B) (w : World) :
  calm m ->
  (forall a w1, m w = (OK a, w1) -> aborts_without_call (k a) w1) ->
  aborts_without_call (bind m k) w.
Proof.
  intros C K. unfold aborts_without_call, bind. specialize (C w).
  destruct (m w) as [[a|e] w1] eqn:R; simpl in *.
  - destruct (K a w1 eq_refl) as [F T]. split; [exact F | congruence].
  - split; [now exists e | exact C].
Qed.

Lemma aborts_lift_failure {A B} (r : Result A) (k : A -> M B) (w : World) :
  fails r -> aborts_without_call (bind (lift r) k) w.
Proof.
  intros (e & ->). unfold aborts_without_call, bind, lift. simpl.
  split; [now exists e | reflexivity].
Qed.

Lemma fails_not_ok {A} (r : Result A) (a : A) : fails r -> r = OK a -> False.
Proof. intros (e & ->). discriminate. Qed.

Section Handlers.
Context `{Ethers} `{Runtime}.

Lemma actions_getTokenContract_calm contract : calm (Actions.getTokenContract contract).
Proof.
  intros w. unfold Actions.getTokenContract, bind, emit, lift, ret.
  destruct (Actions.resolveContractAddress w contract); simpl; [|reflexivity].
  destruct (lib _); simpl; rewrite contract_calls_snoc; simpl; apply app_nil_r.
Qed.

Lemma admin_getTokenContract_calm contract : calm (Admin.getTokenContract contract).
Proof.
  intros w. unfold Admin.getTokenContract, bind, emit, lift, ret.
  destruct (Admin.resolveContractAddress w contract); simpl; [|reflexivity].
  destruct (lib _); simpl; rewrite contract_calls_snoc; simpl; apply app_nil_r.
Qed.

Lemma actions_getTokenContract_ok contract w token w1 :
  Actions.getTokenContract contract w = (OK token, w1) ->
  Actions.resolveContractAddress w contract = OK token.
Proof.
  unfold Actions.getTokenContract, bind, emit, lift, ret.
  destruct (Actions.resolveContractAddress w contract); simpl; [|discriminate].
  destruct (lib _); simpl; [|discriminate]. now intros [= -> _].
Qed.

Lemma admin_getTokenContract_ok contract w token w1 :
  Admin.getTokenContract contract w = (OK token, w1) ->
  Admin.resolveContractAddress w contract = OK token.
Proof.
  unfold Admin.getTokenContract, bind, emit, lift, ret.
  destruct (Admin.resolveContractAddress w contract); simpl; [|discriminate].
  destruct (lib _); simpl; [|discriminate]. now intros [= -> _].
Qed.

(** One input after the other: a step whose result is known to fail ends
    the handler, a step that succeeded is passed over. *)
Ltac next_input :=
  first
    [ apply aborts_lift_failure; assumption
    | apply aborts_bind; [apply calm_lift|];
      let a := fresh "a" in let w1 := fresh "w" in let E := fresh "E" in
      intros a w1 E; unfold lift in E; injection E as E _ ].

Ltac settle F :=
  repeat match type of F with
         | _ \/ _ => destruct F as [F|F]
         end;
  try (exfalso; eapply fails_not_ok; eassumption);
  repeat next_input;
  try (exfalso; eapply fails_not_ok; eassumption).

(** C6. In each of the six command handlers, when the resolution of the
    contract address or the normalization of an input throws, the handler
    ends in an exception and no contract method has been invoked; so it is
    in [jpyc:update-roles] when the role has no method. *)
Theorem normalization_precedes_call
    (w : World) (contract to minter amount allowance decimals address : JsValue)
    (raw : bool) (role : string) :
  (fails (Actions.resolveContractAddress w contract)
   \/ fails (Actions.normalizeAddress to "recipient")
   \/ fails (Actions.normalizeAmount amount decimals raw) ->
   aborts_without_call (Actions.mint contract to amount decimals raw) w
   /\ aborts_without_call (Actions.transfer contract to amount decimals raw) w)
  /\ (fails (Actions.resolveContractAddress w contract)
      \/ fails (Actions.normalizeAmount amount decimals raw) ->
      aborts_without_call (Actions.burn contract amount decimals raw) w)
  /\ (fails (Admin.resolveContractAddress w contract)
      \/ fails (Admin.normalizeAddress minter "minter")
      \/ fails (Admin.normalizeAmount allowance) ->
      aborts_without_call (Admin.configure_minter contract minter allowance) w)
  /\ (fails (Admin.resolveContractAddress w contract)
      \/ fails (Admin.normalizeAddress minter "minter") ->
      aborts_without_call (Admin.remove_minter contract minter) w)
  /\ (fails (Admin.resolveContractAddress w contract)
      \/ fails (Admin.normalizeAddress address "role")
      \/ truthy (obj_get Admin.roleMap (toLowerCase (trim role))) = false ->
      aborts_without_call (Admin.update_roles contract role address) w).
Proof.
  split; [|split; [|split; [|split]]].
  - intros F. split.
    + apply aborts_bind; [apply actions_getTokenContract_calm|].
      intros token w1 G. apply actions_getTokenContract_ok in G. settle F.
    + apply aborts_bind; [apply actions_getTokenContract_calm|].
      intros token w1 G. apply actions_getTokenContract_ok in G. settle F.
  - intros F. apply aborts_bind; [apply actions_getTokenContract_calm|].
    intros token w1 G. apply actions_getTokenContract_ok in G. settle F.
  - intros F. apply aborts_bind; [apply admin_getTokenContract_calm|].
    intros token w1 G. apply admin_getTokenContract_ok in G. settle F.
  - intros F. apply aborts_bind; [apply admin_getTokenContract_calm|].
    intros token w1 G. apply admin_getTokenContract_ok in G. settle F.
  - intros F. apply aborts_bind; [apply admin_getTokenContract_calm|].
    intros token w1 G. apply admin_getTokenContract_ok in G.
    destruct F as [F|[F|F]]; [settle F | settle F |].
    apply aborts_bind; [apply calm_lift|]. intros newAddress w2 _.
    cbv beta zeta. rewrite F. split; [eexists; reflexivity | reflexivity].
Qed.

End Handlers.

Section HandlersOnReference.
Import Reference.

(** On the reference environment: minting to something that is no address
    ends before any call, and so does configuring a minter with a negative
    allowance. *)
Lemma normalization_precedes_call_witness :
  aborts_without_call
    (Actions.mint (VStr Sample.proxy_address) (VStr "nobody") (VStr "5") VUndefined false)
    Sample.fresh
  /\ aborts_without_call
       (Admin.configure_minter (VStr Sample.proxy_address) (VStr Sample.other_address)
          (VStr "-1"))
       Sample.fresh.
Proof.
  destruct (normalization_precedes_call Sample.fresh (VStr Sample.proxy_address)
              (VStr "nobody") (VStr Sample.other_address) (VStr "5") (VStr "-1")
              VUndefined (VStr Sample.other_address) false "owner")
    as (A & _ & B & _).
  split.
  - apply A. right; left. eexists. reflexivity.
  - apply B. right; right. eexists. reflexivity.
Defined.

(** C5. The role [constructor] is none of the six roles, and the handler
    of [jpyc:update-roles] does not refuse it: [roleMap['constructor']] is
    the constructor every object inherits, so the test for an unsupported
    role passes, the handler logs the call and fails on calling a method
    that does not exist, with a [TypeError] instead of the "Unsupported
    role" error. *)
Theorem update_roles_inherited_role :
  Admin.update_roles (VStr Sample.proxy_address) "constructor"
    (VStr Sample.other_address) Sample.fresh
  = (Throw (TypeError "token[method] is not a function"),
     with_trace
       [ EvGetContractAt "FiatTokenV2" Sample.proxy_address;
         EvLog ("[jpyc:update-roles] calling function Object() { [native code] }("
                +:+ Sample.other_address +:+ ")") ]
       Sample.fresh).
Proof. vm_compute. reflexivity. Qed.

(** Against C7 as stated: on the reference environment the normalizer of
    [actions.js] lets a negative amount through, with [raw] and without
    it, and [jpyc:mint] passes it to the contract method. *)
Lemma negative_amount_reaches_mint :
  Actions.normalizeAmount (VStr "-5") VUndefined true = OK (-5)
  /\ Actions.normalizeAmount (VStr "-5") (VNum (NumInt 18)) false
     = OK (-5000000000000000000)
  /\ trace (snd (Actions.mint (VStr Sample.proxy_address)
                   (VStr Sample.other_address) (VStr "-5") VUndefined true
                   Sample.fresh))
     = [ EvGetContractAt "FiatTokenV2" Sample.proxy_address;
         EvLog ("[jpyc:mint] minting -5 to " +:+ Sample.other_address);
         EvCall Sample.proxy_address "mint"
           [ArgAddress Sample.other_address; ArgAmount (-5)];
         EvLog "[jpyc:mint] tx=0xtx-mint" ].
Proof.
  split; [reflexivity|]. split; [reflexivity|].
  vm_compute. reflexivity.
Qed.

End HandlersOnReference.

Section Amounts.
Context `{Ethers} `{Runtime}.

(** C7, as the code has it. The normalizer of [admin.js], used by
    [jpyc:configure-minter], returns no negative amount and throws
    "Allowance amount must be non-negative" on one.  The normalizer of
    [actions.js], used by [jpyc:mint], [jpyc:transfer] and [jpyc:burn],
    looks at no sign: with [raw] it is [BigNumber.from(amount)], and
    without it [parseUnits(amount, decimals)] once the decimals are in
    range. *)
Theorem amount_sign_checks (amount decimals : JsValue) :
  (forall v, Admin.normalizeAmount amount = OK v -> 0 <= v)
  /\ (forall v, BigNumber_from amount = Returns v -> v < 0 ->
      Admin.normalizeAmount amount
      = Throw (JsError "Allowance amount must be non-negative"))
  /\ Actions.normalizeAmount amount decimals true = lib (BigNumber_from amount)
  /\ (forall d,
        ToNumber (if nullish decimals then VNum (NumInt 18) else decimals) = NumInt d ->
        0 <= d <= 255 ->
        Actions.normalizeAmount amount decimals false = lib (parseUnits amount d)).
Proof.
  split; [|split; [|split]].
  - unfold Admin.normalizeAmount. intros v.
    destruct (BigNumber_from amount) as [z|]; simpl; [|discriminate].
    destruct (Z.ltb_spec z 0); [discriminate|]. intros [= <-]. assumption.
  - intros v E N. unfold Admin.normalizeAmount. rewrite E. simpl.
    destruct (Z.ltb_spec v 0); [reflexivity | lia].
  - reflexivity.
  - intros d E R. unfold Actions.normalizeAmount, Actions.DEFAULT_DECIMALS.
    rewrite E, out_of_range.
    replace ((0 <=? d) && (d <=? 255)) with true; [reflexivity|].
    symmetry. apply andb_true_intro. split; apply Z.leb_le; lia.
Qed.

End Amounts.

Section AmountsOnReference.
Import Reference.

(** On the reference environment: a negative allowance is refused, a
    negative amount to mint is scaled like any other. *)
Lemma amount_sign_checks_witness :
  Admin.normalizeAmount (VStr "-5")
  = Throw (JsError "Allowance amount must be non-negative")
  /\ Actions.normalizeAmount (VStr "-5") VUndefined false = OK (-5000000000000000000).
Proof.
  destruct (amount_sign_checks (VStr "-5") VUndefined) as (_ & N & _ & S).
  split.
  - apply (N (-5)); [reflexivity | lia].
  - rewrite (S 18); [reflexivity | reflexivity | lia].
Defined.

End AmountsOnReference.

(** ** The deployment orchestrator *)

Lemma added_refl (w w' : World) : trace w' = trace w -> added w w' [].
Proof. unfold added. intros ->. now rewrite app_nil_r. Qed.

Lemma added_trans (w w1 w2 : World) (e1 e2 : list Event) :
  added w w1 e1 -> added w1 w2 e2 -> added w w2 (e1 ++ e2).
Proof. unfold added. intros E1 E2. now rewrite E2, E1, app_assoc. Qed.

Lemma added_unique (w w' : World) (e1 e2 : list Event) :
  added w w' e1 -> added w w' e2 -> e1 = e2.
Proof. unfold added. intros E1 E2. rewrite E1 in E2. now apply app_inv_head in E2. Qed.

Section Rules.
Context {A B : Type}.

Lemma bind_inv (m : M A) (k : A -> M B) (w : World) (r : Result B) (w' : World) :
  bind m k w = (r, w') ->
  (exists a w1, m w = (OK a, w1) /\ k a w1 = (r, w'))
  \/ (exists e, m w = (Throw e, w') /\ r = Throw e).
Proof.
  unfold bind. destruct (m w) as [[a|e] w1].
  - intros K. left. eauto.
  - intros [= <- <-]. right. eauto.
Qed.

Lemma silent_bind (m : M A) (k : A -> M B) :
  silent m -> (forall a, silent (k a)) -> silent (bind m k).
Proof.
  intros Sm Sk w r w' R.
  apply bind_inv in R as [(a & w1 & R1 & R2)|(e & R1 & _)].
  - rewrite (Sk a _ _ _ R2). now apply Sm in R1.
  - now apply Sm in R1.
Qed.

Lemma confined_bind (ok : Event -> Prop) (m : M A) (k : A -> M B) :
  confined ok m -> (forall a, confined ok (k a)) -> confined ok (bind m k).
Proof.
  intros Cm Ck w r w' R.
  apply bind_inv in R as [(a & w1 & R1 & R2)|(e & R1 & _)].
  - destruct (Cm _ _ _ R1) as (e1 & A1 & F1).
    destruct (Ck a _ _ _ R2) as (e2 & A2 & F2).
    exists (e1 ++ e2). split; [now apply added_trans with w1 | now apply Forall_app].
  - now apply Cm in R1.
Qed.

Lemma counts_bind (m : M A) (k : A -> M B) (d1 u1 d2 u2 : nat) :
  counts m d1 u1 -> (forall a, counts (k a) d2 u2) ->
  counts (bind m k) (d1 + d2) (u1 + u2).
Proof.
  intros Cm Ck w b w' R.
  apply bind_inv in R as [(a & w1 & R1 & R2)|(e & _ & [=])].
  destruct (Cm _ _ _ R1) as (e1 & A1 & D1 & U1).
  destruct (Ck a _ _ _ R2) as (e2 & A2 & D2 & U2).
  exists (e1 ++ e2). split; [now apply added_trans with w1|].
  rewrite !List.filter_app, !length_app. lia.
Qed.

Lemma returns_bind (m : M A) (k : A -> M B) (P : A -> Prop) (Q : B -> Prop) :
  returns m P -> (forall a, P a -> returns (k a) Q) -> returns (bind m k) Q.
Proof.
  intros Rm Rk w b w' R.
  apply bind_inv in R as [(a & w1 & R1 & R2)|(e & _ & [=])].
  apply (Rk a (Rm _ _ _ R1) _ _ _ R2).
Qed.

Lemma silent_confined (ok : Event -> Prop) (m : M A) : silent m -> confined ok m.
Proof. intros S w r w' R. exists []. split; [apply added_refl; eauto | constructor]. Qed.

Lemma silent_counts (m : M A) : silent m -> counts m 0 0.
Proof. intros S w a w' R. exists []. split; [apply added_refl; eauto | now split]. Qed.

Lemma returns_any (m : M A) : returns m (fun _ => True).
Proof. now intros w a w' _. Qed.

Lemma silent_ret (a : A) : silent (ret a).
Proof. now intros w r w' [= _ <-]. Qed.

Lemma silent_throw (e : Error) : silent (@throw A e).
Proof. now intros w r w' [= _ <-]. Qed.

Lemma silent_lift (r : Result A) : silent (lift r).
Proof. now intros w r' w' [= _ <-]. Qed.

Lemma silent_ask (f : World -> A) : silent (ask f).
Proof. now intros w r w' [= _ <-]. Qed.

Lemma silent_read (f : World -> Result A) : silent (fun w => (f w, w)).
Proof. now intros w r w' [= _ <-]. Qed.

Lemma counts_throw (e : Error) (d u : nat) : counts (@throw A e) d u.
Proof. intros w a w' [=]. Qed.

Lemma returns_ret (a : A) (Q : A -> Prop) : Q a -> returns (ret a) Q.
Proof. now intros q w a' w' [= <- _]. Qed.

Lemma returns_throw (e : Error) (Q : A -> Prop) : returns (throw e) Q.
Proof. intros w a w' [=]. Qed.

End Rules.

Lemma ensures_bind {A B} (m : M A) (k : A -> M B)
    (P : World -> Prop) (R : A -> World -> Prop) (Q : B -> World -> Prop) :
  ensures m P R -> (forall a, ensures (k a) (R a) Q) -> ensures (bind m k) P Q.
Proof.
  intros Em Ek w b w' Pw Run.
  apply bind_inv in Run as [(a & w1 & R1 & R2)|(e & _ & [=])].
  apply (Ek a w1 b w' (Em w a w1 Pw R1) R2).
Qed.

Lemma ensures_any {A} (m : M A) (P : World -> Prop) : ensures m P (fun _ _ => True).
Proof. now intros w a w' _ _. Qed.

Lemma ensures_ask {A} (f : World -> A) (P : World -> Prop) :
  ensures (ask f) P (fun a w => a = f w).
Proof. now intros w a w' _ [= <- <-]. Qed.

Lemma ensures_throw {A} (e : Error) (P : World -> Prop) (Q : A -> World -> Prop) :
  ensures (throw e) P Q.
Proof. intros w a w' _ [=]. Qed.

Lemma emit_confined (ok : Event -> Prop) (e : Event) : ok e -> confined ok (emit e).
Proof.
  intros O w r w' [= _ <-]. exists [e]. split; [reflexivity | now repeat constructor].
Qed.

Lemma emit_counts (e : Event) :
  counts (emit e) (if is_deploy e then 1 else 0) (if is_upgrade e then 1 else 0).
Proof.
  intros w a w' [= _ <-]. exists [e]. split; [reflexivity|].
  simpl. now destruct (is_deploy e), (is_upgrade e).
Qed.

Lemma assoc_obj_set_eq (k : string) (v : JsValue) (props : list (string * JsValue)) :
  assoc k (obj_set k v props) = Some v.
Proof.
  induction props as [|[k' v'] props IH]; simpl.
  - now rewrite String.eqb_refl.
  - destruct (String.eqb k k') eqn:E; simpl; rewrite ?String.eqb_refl, ?E; auto.
Qed.

Lemma assoc_obj_set_ne (k k' : string) (v : JsValue) (props : list (string * JsValue)) :
  k <> k' -> assoc k (obj_set k' v props) = assoc k props.
Proof.
  intros N. apply String.eqb_neq in N.
  induction props as [|[k'' v''] props IH]; simpl.
  - now rewrite N.
  - destruct (String.eqb k' k'') eqn:E; simpl.
    + apply String.eqb_eq in E. subst k''. now rewrite N.
    + now rewrite IH.
Qed.

(** A single deployment among allowed events is a deployment from the
    FiatTokenV1 factory; a single upgrade is the upgrade to FiatTokenV2. *)
Lemma filter_allowed (v1only : bool) (test : Event -> bool) (events : list Event) :
  Forall (allowed v1only) events ->
  Forall (allowed v1only) (List.filter test events).
Proof.
  intros F. apply List.Forall_forall. intros e I.
  apply List.filter_In in I as [I _].
  now apply (proj1 (List.Forall_forall _ _) F).
Qed.

Lemma one_deployment (v1only : bool) (events : list Event) :
  Forall (allowed v1only) events ->
  length (List.filter is_deploy events) = 1%nat ->
  exists args, List.filter is_deploy events = [deploy_event args].
Proof.
  intros F L.
  assert (T : forall e, In e (List.filter is_deploy events) -> is_deploy e = true)
    by (intros e I; now apply List.filter_In in I).
  apply (filter_allowed _ is_deploy) in F.
  destruct (List.filter is_deploy events) as [|e [|]]; try discriminate.
  apply Forall_inv in F. specialize (T e (or_introl eq_refl)).
  destruct e; try discriminate. simpl in F. rewrite F. eauto.
Qed.

Lemma one_upgrade (events : list Event) :
  Forall (allowed false) events ->
  length (List.filter is_upgrade events) = 1%nat ->
  exists proxy, List.filter is_upgrade events = [upgrade_event proxy].
Proof.
  intros F L.
  assert (T : forall e, In e (List.filter is_upgrade events) -> is_upgrade e = true)
    by (intros e I; now apply List.filter_In in I).
  apply (filter_allowed _ is_upgrade) in F.
  destruct (List.filter is_upgrade events) as [|e [|]]; try discriminate.
  apply Forall_inv in F. specialize (T e (or_introl eq_refl)).
  destruct e; try discriminate. simpl in F. destruct F as [_ ->]. eauto.
Qed.

Lemma emit_counts_as (e : Event) (d u : nat) :
  (if is_deploy e then 1 else 0)%nat = d -> (if is_upgrade e then 1 else 0)%nat = u ->
  counts (emit e) d u.
Proof. intros <- <-. apply emit_counts. Qed.

Section Orchestrator.
Context `{Ethers} `{Runtime} `{Hardhat}.

Lemma now_silent : silent Deploy.now.
Proof. now intros w r w' [= _ <-]. Qed.

Lemma persistDeployment_silent networkName record :
  silent (Deploy.persistDeployment networkName record).
Proof. intros w r w' R. now apply persistDeployment_quiet in R. Qed.

Lemma verifyImplementation_run (address : string) (w : World) :
  Deploy.verifyImplementation address w
  = (OK tt, with_trace (trace w ++ verify_events address) w).
Proof.
  unfold Deploy.verifyImplementation, verify_events.
  destruct has_verify_task; simpl; [|reflexivity].
  unfold console_log, console_warn, bind, emit, with_trace.
  destruct (lib (run_verify address)); simpl; now rewrite <- app_assoc.
Qed.

Lemma verifyImplementation_confined v1only address :
  confined (allowed v1only) (Deploy.verifyImplementation address).
Proof.
  intros w r w' R. rewrite verifyImplementation_run in R. injection R as _ <-.
  exists (verify_events address). split; [reflexivity|].
  unfold verify_events. destruct has_verify_task; simpl.
  - destruct (lib (run_verify address)); repeat constructor.
  - repeat constructor.
Qed.

Lemma verifyImplementation_counts address :
  counts (Deploy.verifyImplementation address) 0 0.
Proof.
  intros w r w' R. rewrite verifyImplementation_run in R. injection R as _ <-.
  exists (verify_events address). split; [reflexivity|].
  unfold verify_events. destruct has_verify_task; simpl.
  - destruct (lib (run_verify address)); now split.
  - now split.
Qed.

Lemma set_network_silent (name : string) :
  silent (fun w => (OK tt, with_network name w)).
Proof. now intros w r w' [= _ <-]. Qed.

Lemma counts_sum {A B} (m : M A) (k : A -> M B) (d1 u1 d2 u2 d u : nat) :
  counts m d1 u1 -> (forall a, counts (k a) d2 u2) ->
  (d1 + d2 = d)%nat -> (u1 + u2 = u)%nat -> counts (bind m k) d u.
Proof. intros Cm Ck <- <-. now apply counts_bind. Qed.

Ltac silent_leaf :=
  first [ apply silent_ret | apply silent_throw | apply silent_lift | apply silent_ask
        | apply now_silent | apply persistDeployment_silent
        | apply set_network_silent | apply silent_read ].

Ltac confine :=
  unfold console_log, console_warn;
  lazymatch goal with
  | |- confined _ (bind _ _) => apply confined_bind; [confine | intros ?; confine]
  | |- confined _ (if ?b then _ else _) => destruct b; confine
  | |- confined _ (match ?x with _ => _ end) => destruct x; confine
  | |- confined _ (emit _) =>
      apply emit_confined; first [exact I | reflexivity | split; reflexivity]
  | |- confined _ (Deploy.verifyImplementation _) => apply verifyImplementation_confined
  | |- confined _ (Deploy.upgradeToV2 _ _ _) => match goal with U : _ |- _ => apply U end
  | |- _ => apply silent_confined; silent_leaf
  end.

Ltac count :=
  unfold console_log, console_warn;
  lazymatch goal with
  | |- counts (bind _ _) _ _ =>
      eapply counts_sum; [count | intros ?; count | reflexivity | reflexivity]
  | |- counts (if ?b then _ else _) _ _ => destruct b; count
  | |- counts (match ?x with _ => _ end) _ _ => destruct x; count
  | |- counts (throw _) _ _ => apply counts_throw
  | |- counts (emit ?e) _ _ => apply (emit_counts_as e); cbn [is_deploy is_upgrade]; reflexivity
  | |- counts (Deploy.verifyImplementation _) _ _ => apply verifyImplementation_counts
  | |- counts (Deploy.upgradeToV2 _ _ _) _ _ => match goal with U : _ |- _ => apply U end
  | |- _ => apply silent_counts; silent_leaf
  end.

Lemma upgradeToV2_confined proxyAddress record verify :
  confined (allowed false) (Deploy.upgradeToV2 proxyAddress record verify).
Proof. unfold Deploy.upgradeToV2. confine. Qed.

Lemma upgradeToV2_counts proxyAddress record verify :
  counts (Deploy.upgradeToV2 proxyAddress record verify) 0 1.
Proof. unfold Deploy.upgradeToV2. count. Qed.

Lemma deploy_confined targetNetwork paramsPath verify v1only :
  confined (allowed v1only)
    (Deploy.deploy_jpycv2 targetNetwork paramsPath verify v1only).
Proof.
  unfold Deploy.deploy_jpycv2. destruct v1only; cbn [negb].
  - confine.
  - assert (U := upgradeToV2_confined). confine.
Qed.

Lemma deploy_counts targetNetwork paramsPath verify v1only :
  counts (Deploy.deploy_jpycv2 targetNetwork paramsPath verify v1only)
    1 (if v1only then 0 else 1).
Proof.
  unfold Deploy.deploy_jpycv2. destruct v1only; cbn [negb].
  - count.
  - assert (U := upgradeToV2_counts). count.
Qed.

Lemma upgradeToV2_returns proxyAddress record verify :
  returns (Deploy.upgradeToV2 proxyAddress record verify)
    (fun updated => recorded (VObj updated) "implementationV2"
                    /\ recorded (VObj updated) "upgradedAt").
Proof.
  unfold Deploy.upgradeToV2.
  repeat (eapply returns_bind; [apply returns_any | intros ? _]).
  apply returns_ret. unfold recorded, get, obj_get. split.
  - rewrite assoc_obj_set_ne by discriminate. rewrite assoc_obj_set_eq. eauto.
  - rewrite assoc_obj_set_eq. eauto.
Qed.

Lemma deploy_returns targetNetwork paramsPath verify v1only :
  returns (Deploy.deploy_jpycv2 targetNetwork paramsPath verify v1only)
    (fun record =>
       if v1only
       then unrecorded record "implementationV2" /\ unrecorded record "upgradedAt"
       else recorded record "implementationV2" /\ recorded record "upgradedAt").
Proof.
  unfold Deploy.deploy_jpycv2.
  do 3 (eapply returns_bind; [apply returns_any | intros ? _]).
  match goal with |- returns (match ?x with _ => _ end) _ => destruct x end;
    [apply returns_throw|].
  do 5 (eapply returns_bind; [apply returns_any | intros ? _]).
  match goal with |- returns (match ?x with _ => _ end) _ => destruct x end.
  do 7 (eapply returns_bind; [apply returns_any | intros ? _]).
  destruct v1only; cbn [negb].
  - match goal with
    | |- returns (bind (ret ?a) _) _ =>
        eapply returns_bind; [apply (returns_ret a (eq a)); reflexivity|]
    end.
    intros ? <-. apply returns_ret. split; reflexivity.
  - eapply returns_bind; [apply upgradeToV2_returns|].
    intros updated Q. now apply returns_ret.
Qed.

Lemma persistDeployment_on_file networkName record :
  ensures (Deploy.persistDeployment networkName record)
    (fun w => networkName = network w) (fun _ => on_file record).
Proof.
  intros w [] w' -> P. apply persistDeployment_ok in P as (d & _ & F & _ & N & _).
  unfold on_file. rewrite F, N. apply lookup_insert_eq.
Qed.

Lemma verifyImplementation_on_file address record :
  ensures (Deploy.verifyImplementation address) (on_file record) (fun _ => on_file record).
Proof.
  intros w a w' O R. rewrite verifyImplementation_run in R. injection R as _ <-.
  exact O.
Qed.

Lemma upgradeToV2_on_file proxyAddress record verify (P : World -> Prop) :
  ensures (Deploy.upgradeToV2 proxyAddress record verify) P
    (fun updated => on_file (VObj updated)).
Proof.
  unfold Deploy.upgradeToV2.
  do 9 (eapply ensures_bind; [apply ensures_any | intros ?]).
  eapply ensures_bind; [apply ensures_ask | intros networkName].
  eapply ensures_bind; [apply persistDeployment_on_file | intros ?].
  now intros w ? w' O [= <- <-].
Qed.

Lemma deploy_on_file targetNetwork paramsPath verify v1only (P : World -> Prop) :
  ensures (Deploy.deploy_jpycv2 targetNetwork paramsPath verify v1only) P on_file.
Proof.
  unfold Deploy.deploy_jpycv2.
  do 3 (eapply ensures_bind; [apply ensures_any | intros ?]).
  match goal with |- ensures (match ?x with _ => _ end) _ _ => destruct x end;
    [apply ensures_throw|].
  do 5 (eapply ensures_bind; [apply ensures_any | intros ?]).
  match goal with |- ensures (match ?x with _ => _ end) _ _ => destruct x end.
  do 4 (eapply ensures_bind; [apply ensures_any | intros ?]).
  eapply ensures_bind; [apply ensures_ask | intros networkName].
  eapply ensures_bind; [apply persistDeployment_on_file | intros ?].
  eapply ensures_bind.
  { destruct (verify && has_verify_task).
    - apply verifyImplementation_on_file.
    - intros w ? w' O [= _ <-]. exact O. }
  intros ?. destruct v1only; cbn [negb].
  - now intros w ? w' O [= <- <-].
  - eapply ensures_bind; [apply upgradeToV2_on_file | intros updated].
    now intros w ? w' O [= <- <-].
Qed.

(** C2. A run of [deploy:jpycv2] makes no deployment but from the
    FiatTokenV1 factory and no upgrade but the one to FiatTokenV2 with its
    [initializeV2] call; with [v1only] it makes no upgrade at all.  A run
    that completes has deployed the proxy, once, and the record it returns
    is the latest record on file for the network; without [v1only] it has
    upgraded the proxy, once, and the record has [implementationV2] and
    [upgradedAt]; with [v1only] it has not, and the record has neither. *)
Theorem deploy_then_upgrade
    (w w' : World) (targetNetwork paramsPath : JsValue) (verify v1only : bool)
    (r : Result JsValue) :
  Deploy.deploy_jpycv2 targetNetwork paramsPath verify v1only w = (r, w') ->
  exists events,
    added w w' events
    /\ Forall (allowed v1only) events
    /\ forall record, r = OK record ->
         (exists args, List.filter is_deploy events = [deploy_event args])
         /\ on_file record w'
         /\ if v1only
            then List.filter is_upgrade events = []
                 /\ unrecorded record "implementationV2"
                 /\ unrecorded record "upgradedAt"
            else (exists proxy, List.filter is_upgrade events = [upgrade_event proxy])
                 /\ recorded record "implementationV2"
                 /\ recorded record "upgradedAt".
Proof.
  intros R.
  destruct (deploy_confined _ _ _ _ _ _ _ R) as (events & A & F).
  exists events. split; [exact A|]. split; [exact F|].
  intros record ->.
  destruct (deploy_counts _ _ _ _ _ _ _ R) as (events' & A' & D & U).
  rewrite <- (added_unique _ _ _ _ A A') in D, U.
  pose proof (deploy_returns _ _ _ _ _ _ _ R) as Q.
  split; [|split].
  - now apply one_deployment with v1only.
  - apply (deploy_on_file _ _ _ _ (fun _ => True) _ _ _ I R).
  - destruct v1only.
    + split; [|exact Q]. now apply length_zero_iff_nil.
    + split; [|split; apply Q]. now apply one_upgrade.
Qed.

End Orchestrator.

Section OrchestratorOnReference.
Import Reference.

(** On the reference environment, with the parameters in the environment:
    the task deploys and upgrades, and with [v1only] it only deploys. *)
Lemma deploy_then_upgrade_witness :
  (exists record w' events,
     Deploy.deploy_jpycv2 VUndefined VUndefined false false Sample.with_params
     = (OK record, w')
     /\ added Sample.with_params w' events
     /\ (exists args, List.filter is_deploy events = [deploy_event args])
     /\ (exists proxy, List.filter is_upgrade events = [upgrade_event proxy])
     /\ on_file record w'
     /\ recorded record "implementationV2" /\ recorded record "upgradedAt")
  /\ (exists record w' events,
        Deploy.deploy_jpycv2 VUndefined VUndefined false true Sample.with_params
        = (OK record, w')
        /\ added Sample.with_params w' events
        /\ (exists args, List.filter is_deploy events = [deploy_event args])
        /\ List.filter is_upgrade events = []
        /\ on_file record w'
        /\ unrecorded record "implementationV2" /\ unrecorded record "upgradedAt").
Proof.
  split.
  - destruct (Deploy.deploy_jpycv2 VUndefined VUndefined false false Sample.with_params)
      as [r w'] eqn:R.
    destruct (deploy_then_upgrade _ _ _ _ _ _ _ R) as (events & A & _ & C).
    assert (E : exists record, r = OK record).
    { change r with (fst (r, w')). rewrite <- R. vm_compute. eauto. }
    destruct E as (record & ->).
    destruct (C record eq_refl) as (D & O & U & I & T).
    exists record, w', events. auto 10.
  - destruct (Deploy.deploy_jpycv2 VUndefined VUndefined false true Sample.with_params)
      as [r w'] eqn:R.
    destruct (deploy_then_upgrade _ _ _ _ _ _ _ R) as (events & A & _ & C).
    assert (E : exists record, r = OK record).
    { change r with (fst (r, w')). rewrite <- R. vm_compute. eauto. }
    destruct E as (record & ->).
    destruct (C record eq_refl) as (D & O & U & I & T).
    exists record, w', events. auto 10.
Defined.

End OrchestratorOnReference.

(** ** Role updates *)

Section RoleUpdates.
Context `{Ethers} `{Runtime}.

(** A role that is a key of [roleMap] once trimmed and put in lower case:
    the handler invokes the method the map gives, and nothing else. *)
Lemma update_roles_supported contract role address w token w1 newAddress method :
  Admin.getTokenContract contract w = (OK token, w1) ->
  Admin.normalizeAddress address "role" = OK newAddress ->
  assoc (toLowerCase (trim role)) Admin.roleMap = Some (VStr method) ->
  In method contract_functions ->
  contract_calls (trace (snd (Admin.update_roles contract role address w)))
  = contract_calls (trace w) ++ [EvCall token method [ArgAddress newAddress]].
Proof.
  intros G N A I.
  assert (T : contract_calls (trace w1) = contract_calls (trace w))
    by (rewrite <- (admin_getTokenContract_calm contract w); now rewrite G).
  assert (M : method <> "").
  { intros ->. unfold Admin.roleMap in A. simpl in A.
    repeat match type of A with
           | (if ?b then _ else _) = _ => destruct b; [discriminate A|]
           end.
    discriminate A. }
  assert (X : existsb (String.eqb method) contract_functions = true).
  { apply existsb_exists. exists method. split; [exact I | apply String.eqb_refl]. }
  unfold Admin.update_roles, bind at 1. rewrite G.
  unfold bind at 1, lift at 1. rewrite N.
  unfold obj_get. rewrite A. cbn [truthy ToString].
  destruct (String.eqb_spec method ""); [contradiction|]. cbn [negb].
  unfold invoke. rewrite X.
  unfold bind, console_log, emit, lift, ret. cbn [fst snd trace with_trace].
  destruct (lib (contract_send _ _ _)); cbn [fst snd trace with_trace].
  - destruct (lib (tx_wait _)); cbn [fst snd trace with_trace];
      rewrite ?contract_calls_snoc; cbn [is_call]; rewrite ?app_nil_r;
      now rewrite T.
  - rewrite ?contract_calls_snoc. cbn [is_call]. rewrite ?app_nil_r. now rewrite T.
Qed.

(** A role that is neither a key of [roleMap] nor a member every object
    inherits: the handler throws "Unsupported role" and invokes nothing. *)
Lemma update_roles_unsupported contract role address w token w1 newAddress :
  Admin.getTokenContract contract w = (OK token, w1) ->
  Admin.normalizeAddress address "role" = OK newAddress ->
  obj_get Admin.roleMap (toLowerCase (trim role)) = VUndefined ->
  Admin.update_roles contract role address w = (Throw (unsupported_role role), w1).
Proof.
  intros G N U. unfold Admin.update_roles, bind at 1. rewrite G.
  unfold bind at 1, lift at 1. rewrite N, U. reflexivity.
Qed.

(** The role [constructor], in any environment: the handler goes past the
    test for unsupported roles and ends on the method call. *)
Lemma update_roles_constructor contract role address w token w1 newAddress :
  Admin.getTokenContract contract w = (OK token, w1) ->
  Admin.normalizeAddress address "role" = OK newAddress ->
  toLowerCase (trim role) = "constructor" ->
  fst (Admin.update_roles contract role address w) <> Throw (unsupported_role role).
Proof.
  intros G N C. unfold Admin.update_roles, bind at 1. rewrite G.
  unfold bind at 1, lift at 1. rewrite N, C.
  cbv [obj_get assoc Admin.roleMap object_prototype String.eqb Ascii.eqb Bool.eqb
       truthy negb ToString].
  unfold invoke, bind, console_log, emit, lift, ret, throw.
  destruct (existsb _ contract_functions); cbn [fst snd].
  - destruct (lib (contract_send _ _ _)) as [tx|e] eqn:S; cbn [fst snd].
    + destruct (lib (tx_wait tx)) as [receipt|e] eqn:W; cbn [fst snd];
        [discriminate|].
      unfold lib in W. destruct (tx_wait tx); [discriminate|].
      injection W as <-. discriminate.
    + unfold lib in S. destruct (contract_send _ _ _); [discriminate|].
      injection S as <-. discriminate.
  - discriminate.
Qed.

End RoleUpdates.

(** * Further properties *)

(** ** Objects *)

Lemma obj_get_set_eq (k : string) (v : JsValue) (props : list (string * JsValue)) :
  obj_get (obj_set k v props) k = v.
Proof. unfold obj_get. now rewrite assoc_obj_set_eq. Qed.

Lemma obj_get_set_ne (k k' : string) (v : JsValue) (props : list (string * JsValue)) :
  k <> k' -> obj_get (obj_set k' v props) k = obj_get props k.
Proof. intros N. unfold obj_get. now rewrite assoc_obj_set_ne. Qed.

(** ** The parameters in the environment *)

Section Environment.
Context `{Ethers} `{Runtime}.

Lemma readFromEnv_fold (w : World) :
  Deploy.readFromEnv w = VObj (fold_left (env_step w) Deploy.ENV_KEYS []).
Proof. reflexivity. Qed.

Lemma env_step_other (w : World) acc entry field :
  field <> fst entry -> assoc field (env_step w acc entry) = assoc field acc.
Proof.
  destruct entry as [g k]. simpl. intros N. destruct (env w !! k); [|reflexivity].
  now apply assoc_obj_set_ne.
Qed.

Lemma env_fold_other (w : World) (entries : list (string * string)) acc field :
  ~ In field (map fst entries) ->
  assoc field (fold_left (env_step w) entries acc) = assoc field acc.
Proof.
  revert acc. induction entries as [|e entries IH]; intros acc N; simpl; [reflexivity|].
  rewrite IH by (intros I; apply N; now right).
  apply env_step_other. intros ->. apply N. now left.
Qed.

Lemma env_fold_entry (w : World) (entries : list (string * string)) acc field envKey :
  List.NoDup (map fst entries) -> In (field, envKey) entries ->
  assoc field (fold_left (env_step w) entries acc)
  = match env w !! envKey with
    | Some s => Some (VStr s)
    | None => assoc field acc
    end.
Proof.
  revert acc. induction entries as [|[g k] entries IH]; intros acc D I; [destruct I|].
  apply List.NoDup_cons_iff in D as [Fresh D]. simpl in *.
  destruct I as [[= -> ->]|I].
  - rewrite env_fold_other by exact Fresh.
    destruct (env w !! envKey); [apply assoc_obj_set_eq | reflexivity].
  - rewrite (IH _ D I).
    assert (N : field <> g).
    { intros ->. apply Fresh. apply List.in_map_iff. now exists (g, envKey). }
    destruct (env w !! envKey); [reflexivity|].
    destruct (env w !! k); [now apply assoc_obj_set_ne | reflexivity].
Qed.

Lemma ENV_KEYS_distinct : List.NoDup (map fst Deploy.ENV_KEYS).
Proof.
  unfold Deploy.ENV_KEYS. simpl.
  repeat (apply List.NoDup_cons; [simpl; intuition discriminate|]).
  apply List.NoDup_nil.
Qed.

(** X1. The object [readFromEnv] builds has, under each of the nine
    parameter names, the value of that parameter's environment variable,
    [undefined] when the variable is not set, and has no other property
    of its own. *)
Theorem readFromEnv_fields (w : World) (field : string) :
  (forall envKey, In (field, envKey) Deploy.ENV_KEYS ->
     get (Deploy.readFromEnv w) field = OK (getenv w envKey))
  /\ (~ In field (map fst Deploy.ENV_KEYS) ->
      get (Deploy.readFromEnv w) field = get (VObj []) field).
Proof.
  rewrite readFromEnv_fold. split.
  - intros envKey I. unfold get, obj_get, getenv.
    rewrite (env_fold_entry w _ [] field envKey ENV_KEYS_distinct I).
    destruct (env w !! envKey); [reflexivity|]. simpl assoc.
    unfold Deploy.ENV_KEYS in I. simpl in I.
    repeat (destruct I as [[= <- <-]|I]; [reflexivity|]). destruct I.
  - intros N. unfold get, obj_get. now rewrite env_fold_other.
Qed.

End Environment.

(** ** What the parameter loader accepts and returns *)

Section LoaderResult.
Context `{Ethers} `{Runtime}.

Lemma required_loop_ok fromFile source (fields : list string) :
  Deploy.forEach (Deploy.requireField fromFile source) fields = OK tt ->
  forall field, In field fields ->
    exists value, get source field = OK value /\ ~ blank_field value.
Proof.
  induction fields as [|f fields IH]; simpl; intros L field I; [destruct I|].
  unfold Deploy.requireField at 1 in L.
  destruct (get source f) as [v|] eqn:G; simpl in L; [|discriminate].
  destruct (Deploy.is_missing v) eqn:M; [discriminate|]. simpl in L.
  destruct I as [<-|I]; [|now apply IH].
  exists v. split; [exact G|]. intros B. apply is_missing_blank in B. congruence.
Qed.

Lemma normalizeField_ok normalized key normalized' :
  Deploy.normalizeField normalized key = OK normalized'
  <-> exists c, accepted_address (obj_get normalized key) c
                /\ normalized' = obj_set key (VStr c) normalized.
Proof.
  unfold Deploy.normalizeField, accepted_address. cbv zeta.
  set (candidate := VStr (trim (ToString (obj_get normalized key)))).
  split.
  - destruct (isAddress candidate); simpl; [|discriminate].
    destruct (getAddress candidate) as [c|]; simpl; [|discriminate].
    destruct (String.eqb_spec (toLowerCase c) Deploy.ZERO_ADDRESS) as [|N];
      [discriminate|].
    intros [= <-]. exists c. auto.
  - intros (c & (V & G & N) & ->). rewrite V, G. simpl.
    destruct (String.eqb_spec (toLowerCase c) Deploy.ZERO_ADDRESS) as [Z|_];
      [now elim N | reflexivity].
Qed.

Lemma set_checksums_ext (f g : string -> string) (keys : list string) acc :
  (forall k, In k keys -> f k = g k) ->
  fold_left (fun acc key => obj_set key (VStr (f key)) acc) keys acc
  = fold_left (fun acc key => obj_set key (VStr (g key)) acc) keys acc.
Proof.
  revert acc. induction keys as [|k keys IH]; intros acc E; simpl; [reflexivity|].
  rewrite (E k) by now left. apply IH. intros k' I. apply E. now right.
Qed.

(** The loop over the address fields succeeds exactly when every field is
    accepted, and then it has put each checksummed address in its place. *)
Lemma address_loop_ok (keys : list string) normalized normalized' :
  List.NoDup keys ->
  Deploy.forEachOn Deploy.normalizeField normalized keys = OK normalized'
  <-> exists checksum,
        (forall key, In key keys -> accepted_address (obj_get normalized key) (checksum key))
        /\ normalized'
           = fold_left (fun acc key => obj_set key (VStr (checksum key)) acc) keys normalized.
Proof.
  revert normalized normalized'.
  induction keys as [|k keys IH]; intros normalized normalized' D; simpl.
  - split; [intros [= <-]; exists (fun _ => ""); now split | now intros (_ & _ & ->)].
  - apply List.NoDup_cons_iff in D as [Fresh D]. split.
    + destruct (Deploy.normalizeField normalized k) as [n1|] eqn:N; simpl; [|discriminate].
      apply normalizeField_ok in N as (c & A & ->).
      intros L. apply (IH _ _ D) in L as (checksum & As & ->).
      exists (fun x => if String.eqb x k then c else checksum x). split.
      * intros key [<-|I]; [now rewrite String.eqb_refl|].
        destruct (String.eqb_spec key k) as [->|Nk]; [contradiction|].
        specialize (As key I). now rewrite obj_get_set_ne in As.
      * rewrite String.eqb_refl. apply set_checksums_ext. intros k' I.
        destruct (String.eqb_spec k' k) as [->|]; [contradiction | reflexivity].
    + intros (checksum & As & ->).
      rewrite (proj2 (normalizeField_ok normalized k
                        (obj_set k (VStr (checksum k)) normalized)))
        by (exists (checksum k); split; [apply As; now left | reflexivity]).
      simpl. apply (IH _ _ D). exists checksum. split; [|reflexivity].
      intros key I. rewrite obj_get_set_ne by (intros ->; contradiction).
      apply As. now right.
Qed.

Lemma address_fields_distinct : List.NoDup address_fields.
Proof.
  unfold address_fields.
  repeat (apply List.NoDup_cons; [simpl; intuition discriminate|]).
  apply List.NoDup_nil.
Qed.

(** [loadParams] as a whole: it returns exactly for a source that is a
    complete and valid object, and returns the [loaded] object then. *)
Lemma loadParams_ok (w : World) (paramsPath : JsValue) params :
  Deploy.loadParams w paramsPath = OK params
  <-> exists props d checksum,
        Deploy.paramSource w paramsPath = OK (VObj props)
        /\ valid_source props d checksum
        /\ params = loaded props d checksum.
Proof.
  unfold Deploy.loadParams, valid_source, loaded. split.
  - destruct (Deploy.paramSource w paramsPath) as [source|]; cbn [bindR]; [|discriminate].
    destruct (Deploy.forEach _ Deploy.REQUIRED_FIELDS) as [[]|] eqn:L; cbn [bindR];
      [|discriminate].
    pose proof (required_loop_ok _ _ _ L) as R.
    destruct (R "decimals") as (v & G & B); [simpl; tauto|].
    destruct (source_is_object _ _ _ G B) as (props & -> & _).
    cbn [Deploy.spread].
    destruct (ToNumber (obj_get props "decimals")) as [d|] eqn:N; [|discriminate].
    rewrite out_of_range.
    destruct ((0 <=? d) && (d <=? 255)) eqn:V; cbn [negb]; [|discriminate].
    destruct (Deploy.forEachOn _ _ _) as [n|] eqn:A; cbn [bindR]; [|discriminate].
    intros [= <-].
    apply (address_loop_ok address_fields _ _ address_fields_distinct)
      in A as (checksum & As & ->).
    exists props, d, checksum. split; [reflexivity|].
    apply andb_prop in V as [V1 V2]. apply Z.leb_le in V1, V2.
    split; [|reflexivity]. split; [|split; [exact N|split; [lia|]]].
    + intros f I. destruct (R f I) as (v' & [= <-] & B'). exact B'.
    + intros key I. specialize (As key I).
      rewrite obj_get_set_ne in As; [exact As|].
      unfold address_fields in I. simpl in I. intuition (subst; discriminate).
  - intros (props & d & checksum & -> & (B & N & V & As) & ->). cbn [bindR].
    rewrite required_loop_passes; cbn [bindR Deploy.spread].
    + rewrite N, out_of_range.
      replace ((0 <=? d) && (d <=? 255)) with true
        by (symmetry; apply andb_true_intro; split; apply Z.leb_le; lia).
      cbn [negb].
      change ["minterAdmin"; "pauser"; "blocklister"; "rescuer"; "owner"]
        with address_fields.
      rewrite (proj2 (address_loop_ok address_fields
                        (obj_set "decimals" (VNum (NumInt d)) props)
                        (fold_left (fun acc key => obj_set key (VStr (checksum key)) acc)
                           address_fields (obj_set "decimals" (VNum (NumInt d)) props))
                        address_fields_distinct)); [reflexivity|].
      exists checksum. split; [|reflexivity].
      intros key I. rewrite obj_get_set_ne; [now apply As|].
      unfold address_fields in I. simpl in I. intuition (subst; discriminate).
    + intros f I. exists (obj_get props f). split; [reflexivity | now apply B].
Qed.

Ltac lookup :=
  repeat first
    [ rewrite obj_get_set_eq
    | rewrite obj_get_set_ne by first [assumption | discriminate] ].

Lemma loaded_lookup props d checksum key :
  obj_get (loaded props d checksum) key = normalized_field props d checksum key.
Proof.
  unfold loaded, Deploy.trimField, address_fields. cbn [fold_left].
  unfold normalized_field, address_fields, text_fields. cbn [existsb].
  destruct (String.eqb_spec key "decimals") as [->|]; [now lookup|].
  destruct (String.eqb_spec key "minterAdmin") as [->|]; [now lookup|].
  destruct (String.eqb_spec key "pauser") as [->|]; [now lookup|].
  destruct (String.eqb_spec key "blocklister") as [->|]; [now lookup|].
  destruct (String.eqb_spec key "rescuer") as [->|]; [now lookup|].
  destruct (String.eqb_spec key "owner") as [->|]; [now lookup|].
  destruct (String.eqb_spec key "name") as [->|]; [now lookup|].
  destruct (String.eqb_spec key "symbol") as [->|]; [now lookup|].
  destruct (String.eqb_spec key "currency") as [->|]; [now lookup|].
  now lookup.
Qed.

(** X2. [loadParams] returns parameters if and only if the source it
    resolves is an object in which no required field is blank, the
    decimals convert to an integer in [0, 255], and each of the five
    address fields, trimmed, is a valid address other than the zero
    address. *)
Theorem loadParams_accepts (w : World) (paramsPath : JsValue) :
  (exists params, Deploy.loadParams w paramsPath = OK params)
  <-> exists props d checksum,
        Deploy.paramSource w paramsPath = OK (VObj props)
        /\ valid_source props d checksum.
Proof.
  split.
  - intros (params & L). apply loadParams_ok in L as (props & d & c & S & V & _).
    eauto.
  - intros (props & d & c & S & V). exists (loaded props d c).
    apply loadParams_ok. eauto 6.
Qed.

(** X3. The parameters [loadParams] returns hold the decimals as a number
    in [0, 255], each address field as the checksummed form of its trimmed
    text, the name, the symbol and the currency trimmed, and every other
    property of the source as it was. *)
Theorem loadParams_fields (w : World) (paramsPath : JsValue) params :
  Deploy.loadParams w paramsPath = OK params ->
  exists props d checksum,
    Deploy.paramSource w paramsPath = OK (VObj props)
    /\ valid_source props d checksum
    /\ forall key, obj_get params key = normalized_field props d checksum key.
Proof.
  intros L. apply loadParams_ok in L as (props & d & c & S & V & ->).
  exists props, d, c. split; [exact S|]. split; [exact V|].
  intros key. apply loaded_lookup.
Qed.

End LoaderResult.

(** ** Errors of the parameter loader *)

Section LoaderErrors.
Context `{Ethers} `{Runtime}.

Lemma forEach_app {A} (f : A -> Result unit) (xs ys : list A) :
  Deploy.forEach f (xs ++ ys) = (let? _ := Deploy.forEach f xs in Deploy.forEach f ys).
Proof.
  induction xs as [|x xs IH]; simpl; [reflexivity|].
  destruct (f x) as [[]|]; simpl; [exact IH | reflexivity].
Qed.

(** X4. When fields are missing, the error of [loadParams] names the first
    of them in the order of [REQUIRED_FIELDS]: as a field of the
    parameter file when a path was given, as the environment variable of
    the field otherwise. *)
Theorem loadParams_first_missing
    (w : World) (paramsPath source value : JsValue) (field : string)
    (before after : list string) :
  Deploy.paramSource w paramsPath = OK source ->
  Deploy.REQUIRED_FIELDS = before ++ field :: after ->
  (forall f, In f before -> exists v, get source f = OK v /\ ~ blank_field v) ->
  get source field = OK value ->
  blank_field value ->
  Deploy.loadParams w paramsPath
  = Throw (JsError (missing_message (truthy paramsPath) field)).
Proof.
  intros S E B G M. unfold Deploy.loadParams. rewrite S. cbn [bindR].
  rewrite E, forEach_app, (required_loop_passes _ _ _ B). cbn [bindR Deploy.forEach].
  unfold Deploy.requireField at 1. rewrite G. cbn [bindR].
  apply is_missing_blank in M. rewrite M. reflexivity.
Qed.

(** X5. With a path, [loadParams] reads the parameter file and nothing of
    the environment: a file that is not there is an error, not a reason to
    fall back, and so is a file that is not JSON.  Without a path it reads
    the environment and no file. *)
Theorem loadParams_one_source (w w' : World) (paramsPath : JsValue) :
  (truthy paramsPath = true ->
   let file := path_resolve_cwd (ToString paramsPath) in
   (files w !! file = files w' !! file ->
    Deploy.loadParams w paramsPath = Deploy.loadParams w' paramsPath)
   /\ (files w !! file = None ->
       Deploy.loadParams w paramsPath
       = Throw (LibError ("ENOENT: no such file or directory, open '" +:+ file +:+ "'")))
   /\ (forall contents message,
         files w !! file = Some contents -> JSON_parse contents = Fails message ->
         Deploy.loadParams w paramsPath = Throw (SyntaxError message)))
  /\ (truthy paramsPath = false ->
      env w = env w' ->
      Deploy.loadParams w paramsPath = Deploy.loadParams w' paramsPath).
Proof.
  unfold Deploy.loadParams, Deploy.paramSource, Deploy.readConfigFile. split.
  - intros T. rewrite T. split; [|split].
    + intros ->. reflexivity.
    + intros ->. reflexivity.
    + intros contents message -> ->. reflexivity.
  - intros T E. rewrite T. unfold Deploy.readFromEnv. now rewrite E.
Qed.

End LoaderErrors.

(** ** Writing the record again *)

Section Overwrite.
Context `{Ethers} `{Runtime}.

Lemma replace_colons_free (s : string) : colon_free (replace_colons s) = true.
Proof.
  unfold colon_free. induction s as [|c s IH]; simpl; [reflexivity|].
  rewrite IH, andb_true_r.
  destruct (Ascii.eqb_spec c ":"); [reflexivity|].
  now destruct (Ascii.eqb_spec c ":").
Qed.

Lemma replace_colons_same_length (s : string) :
  String.length (replace_colons s) = String.length s.
Proof. induction s as [|c s IH]; simpl; [reflexivity | now rewrite IH]. Qed.

(** X6. The timestamp in the name of the history file has the length of
    [record.deployedAt] and no colon in it. *)
Theorem history_timestamp_colon_free (record : JsValue) (ts : string) :
  Deploy.history_timestamp record = OK ts ->
  colon_free ts = true
  /\ exists deployedAt, get record "deployedAt" = OK (VStr deployedAt)
                        /\ String.length ts = String.length deployedAt.
Proof.
  intros T. apply history_timestamp_ok in T as (d & G & ->).
  split; [apply replace_colons_free|].
  exists d. split; [exact G | apply replace_colons_same_length].
Qed.

(** X7. [persistDeployment] on a record whose [deployedAt] is not a string
    throws a [TypeError] and writes no file. *)
Theorem persistDeployment_needs_timestamp
    (w : World) (networkName : string) (record : JsValue) :
  (forall deployedAt, get record "deployedAt" <> OK (VStr deployedAt)) ->
  exists message w',
    Deploy.persistDeployment networkName record w = (Throw (TypeError message), w')
    /\ files w' = files w.
Proof.
  intros N.
  unfold Deploy.persistDeployment, bind, ask, lift, ret, Deploy.mkdirSync,
    Deploy.history_timestamp.
  destruct (get record "deployedAt") as [v|e] eqn:G.
  - destruct v; try (now elim (N s));
      destruct (bool_decide _); simpl; eauto.
  - destruct record; simpl in G; try discriminate; injection G as <-;
      destruct (bool_decide _); simpl; eauto.
Qed.

(** X8. Persisting a second record for the same deployment (same network,
    same [deployedAt]) leaves the files as if only the second had been
    persisted: the history file of the deployment is overwritten, not
    joined by another. *)
Theorem persistDeployment_overwrites
    (w w1 w2 w2' : World) (networkName : string) (first second : JsValue) :
  get first "deployedAt" = get second "deployedAt" ->
  Deploy.persistDeployment networkName first w = (OK tt, w1) ->
  Deploy.persistDeployment networkName second w1 = (OK tt, w2) ->
  Deploy.persistDeployment networkName second w = (OK tt, w2') ->
  files w2 = files w2'.
Proof.
  intros E P1 P2 P.
  apply persistDeployment_ok in P1 as (d1 & G1 & F1 & _).
  apply persistDeployment_ok in P2 as (d2 & G2 & F2 & _).
  apply persistDeployment_ok in P as (d & G & F & _).
  rewrite G in G2. injection G2 as <-.
  rewrite E, G in G1. injection G1 as <-.
  rewrite F2, F1, F. apply map_eq. intros file.
  rewrite !lookup_insert. repeat case_decide; reflexivity.
Qed.

End Overwrite.

(** ** The one call of a command handler *)

Section OneCall.
Context `{Ethers} `{Runtime}.

(** The end of every handler: a line on the console, the call, the wait,
    another line, the receipt. *)
Lemma call_tail token key args (line : string) (done : Receipt -> string) (w : World) :
  In key contract_functions ->
  one_call
    ((console_log line;;
      let* tx := invoke token key args in
      let* receipt := lift (lib (tx_wait tx)) in
      console_log (done receipt);;
      ret receipt) w)
    w token key args.
Proof.
  intros I.
  assert (X : existsb (String.eqb key) contract_functions = true).
  { apply existsb_exists. exists key. split; [exact I | apply String.eqb_refl]. }
  unfold one_call, receipt_of, invoke. rewrite X.
  unfold bind, console_log, emit, lift, ret. cbn [fst snd trace with_trace].
  destruct (lib (contract_send token key args)) as [tx|]; cbn [fst snd trace files with_trace bindR].
  - destruct (lib (tx_wait tx)); cbn [fst snd trace files with_trace];
      rewrite ?contract_calls_snoc; cbn [is_call]; rewrite ?app_nil_r; auto.
  - rewrite ?contract_calls_snoc. cbn [is_call]. rewrite ?app_nil_r. auto.
Qed.

Lemma one_call_after (run : Result Receipt * World) (w w1 : World) token key args :
  contract_calls (trace w1) = contract_calls (trace w) ->
  files w1 = files w ->
  one_call run w1 token key args -> one_call run w token key args.
Proof. unfold one_call. intros <- <-. auto. Qed.

Lemma actions_getTokenContract_run contract token (w : World) :
  Actions.resolveContractAddress w contract = OK token ->
  getContractAt "FiatTokenV2" token = Returns tt ->
  Actions.getTokenContract contract w
  = (OK token, with_trace (trace w ++ [EvGetContractAt "FiatTokenV2" token]) w).
Proof.
  intros R G. unfold Actions.getTokenContract, bind, emit, lift, ret.
  now rewrite R, G.
Qed.

Lemma admin_getTokenContract_run contract token (w : World) :
  Admin.resolveContractAddress w contract = OK token ->
  getContractAt "FiatTokenV2" token = Returns tt ->
  Admin.getTokenContract contract w
  = (OK token, with_trace (trace w ++ [EvGetContractAt "FiatTokenV2" token]) w).
Proof.
  intros R G. unfold Admin.getTokenContract, bind, emit, lift, ret.
  now rewrite R, G.
Qed.

Lemma getContractAt_calm token (w : World) :
  contract_calls (trace (with_trace (trace w ++ [EvGetContractAt "FiatTokenV2" token]) w))
  = contract_calls (trace w).
Proof. cbn [trace with_trace]. rewrite contract_calls_snoc. apply app_nil_r. Qed.

Ltac input E := unfold bind at 1; first [rewrite E | unfold lift at 1; rewrite E].

Ltac finish token :=
  eapply one_call_after; [apply (getContractAt_calm token) | reflexivity |];
  apply call_tail; assumption.

(** X9. When the contract address resolves, the contract object is
    obtained and the inputs normalize, [jpyc:mint], [jpyc:transfer] and
    [jpyc:burn] make exactly one contract call, of the method of their
    name, on the resolved contract and with the normalized inputs; they
    return its receipt, or the exception of the call, and touch no file.
    [jpyc:burn] needs the signer's address for its log line first. *)
Theorem actions_make_one_call
    (w : World) (contract to amount decimals : JsValue) (raw : bool)
    (token recipient : string) (value : Z) :
  Actions.resolveContractAddress w contract = OK token ->
  getContractAt "FiatTokenV2" token = Returns tt ->
  Actions.normalizeAmount amount decimals raw = OK value ->
  (Actions.normalizeAddress to "recipient" = OK recipient ->
   (In "mint" contract_functions ->
    one_call (Actions.mint contract to amount decimals raw w) w
      token "mint" [ArgAddress recipient; ArgAmount value])
   /\ (In "transfer" contract_functions ->
       one_call (Actions.transfer contract to amount decimals raw w) w
         token "transfer" [ArgAddress recipient; ArgAmount value]))
  /\ (In "burn" contract_functions ->
      (forall signer, signer_getAddress = Returns signer ->
         one_call (Actions.burn contract amount decimals raw w) w
           token "burn" [ArgAmount value])
      /\ (forall message, signer_getAddress = Fails message ->
            aborts_without_call (Actions.burn contract amount decimals raw) w)).
Proof.
  intros R G V. pose proof (actions_getTokenContract_run _ _ _ R G) as T.
  split; [intros N; split; intros I|intros I; split].
  - unfold Actions.mint. input T. input N. input V. finish token.
  - unfold Actions.transfer. input T. input N. input V. finish token.
  - intros signer S. unfold Actions.burn. input T. input V.
    unfold bind at 1, lift at 1. rewrite S. cbn [lib]. finish token.
  - intros message S.
    assert (E : Actions.burn contract amount decimals raw w
                = (Throw (LibError message),
                   with_trace (trace w ++ [EvGetContractAt "FiatTokenV2" token]) w)).
    { unfold Actions.burn. input T. input V.
      unfold bind at 1, lift at 1. now rewrite S. }
    unfold aborts_without_call. rewrite E.
    split; [eexists; reflexivity | apply getContractAt_calm].
Qed.

(** X10. Under the same conditions [jpyc:configure-minter] makes exactly
    one call of [configureMinter] with the minter's checksummed address
    and the allowance, and [jpyc:remove-minter] exactly one call of
    [removeMinter] with the address. *)
Theorem admin_make_one_call
    (w : World) (contract minter allowance : JsValue)
    (token minterAddress : string) (amount : Z) :
  Admin.resolveContractAddress w contract = OK token ->
  getContractAt "FiatTokenV2" token = Returns tt ->
  Admin.normalizeAddress minter "minter" = OK minterAddress ->
  (Admin.normalizeAmount allowance = OK amount ->
   In "configureMinter" contract_functions ->
   one_call (Admin.configure_minter contract minter allowance w) w
     token "configureMinter" [ArgAddress minterAddress; ArgAmount amount])
  /\ (In "removeMinter" contract_functions ->
      one_call (Admin.remove_minter contract minter w) w
        token "removeMinter" [ArgAddress minterAddress]).
Proof.
  intros R G N. pose proof (admin_getTokenContract_run _ _ _ R G) as T.
  split; [intros V I|intros I].
  - unfold Admin.configure_minter. input T. input N. input V. finish token.
  - unfold Admin.remove_minter. input T. input N. finish token.
Qed.

(** X11. [jpyc:update-roles] looks the role up trimmed and in lower case:
    for a role that is then a key of [roleMap], it makes exactly one
    call, of the method the map gives for that key, with the new address. *)
Theorem update_roles_calls_mapped
    (w : World) (contract address : JsValue) (role token newAddress method : string) :
  Admin.resolveContractAddress w contract = OK token ->
  getContractAt "FiatTokenV2" token = Returns tt ->
  Admin.normalizeAddress address "role" = OK newAddress ->
  assoc (toLowerCase (trim role)) Admin.roleMap = Some (VStr method) ->
  In method contract_functions ->
  one_call (Admin.update_roles contract role address w) w
    token method [ArgAddress newAddress].
Proof.
  intros R G N A I. pose proof (admin_getTokenContract_run _ _ _ R G) as T.
  assert (M : truthy (VStr method) = true).
  { unfold Admin.roleMap in A. simpl in A.
    repeat match type of A with
           | (if ?b then _ else _) = _ => destruct b; [now injection A as <-|]
           end.
    discriminate A. }
  unfold Admin.update_roles. input T. input N.
  unfold obj_get. rewrite A, M. cbn [negb ToString]. finish token.
Qed.

End OneCall.

(** ** The two resolvers *)

Section TwoResolvers.
Context `{Ethers} `{Runtime}.

Lemma checks_agree (explicit : JsValue) :
  same_but_zero_message (Actions.checkExplicit explicit) (Admin.checkExplicit explicit).
Proof.
  unfold Actions.checkExplicit, Admin.checkExplicit, same_but_zero_message.
  destruct (isAddress explicit); simpl; [|now left].
  destruct (getAddress explicit) as [c|]; simpl; [|now left].
  change Admin.ZERO_ADDRESS with Actions.ZERO_ADDRESS.
  destruct (String.eqb (toLowerCase c) Actions.ZERO_ADDRESS); [now right | now left].
Qed.

(** X12. The resolver of [actions.js] and the resolver of [admin.js] give
    the same result in every world and for every argument, but for the
    wording of the error on the zero address. *)
Theorem resolvers_agree (w : World) (explicit : JsValue) :
  same_but_zero_message (Actions.resolveContractAddress w explicit)
    (Admin.resolveContractAddress w explicit).
Proof.
  unfold Actions.resolveContractAddress, Admin.resolveContractAddress.
  cbn [Actions.resolveContractAddress_at Admin.resolveContractAddress_at].
  change Admin.DEFAULT_DEPLOYMENTS_DIR with Actions.DEFAULT_DEPLOYMENTS_DIR.
  destruct (truthy explicit); [apply checks_agree|].
  destruct (truthy (js_or _ _)) eqn:T; [rewrite ?T; apply checks_agree|].
  destruct (files w !! _); [|now left].
  destruct (parsed_json _) as [parsed|]; cbn [bindR]; [|now left].
  destruct (truthy parsed); [|now left].
  destruct (get parsed "proxy") as [proxy|]; cbn [bindR]; [|now left].
  destruct (truthy proxy) eqn:P; [rewrite ?P; apply checks_agree | now left].
Qed.

End TwoResolvers.

(** ** A completed deployment, step by step *)

Lemma key_events_app (t u : list Event) :
  key_events (t ++ u) = key_events t ++ key_events u.
Proof. apply List.filter_app. Qed.

Lemma reached_refl (w : World) : reached w w [] 0.
Proof.
  split; [exists []; split; [now apply added_refl | reflexivity]|].
  split; [lia | reflexivity].
Qed.

Lemma reached_step (w w1 w2 : World) keys reads (events : list Event) (more : nat) :
  reached w w1 keys reads ->
  trace w2 = trace w1 ++ events -> ticks w2 = (ticks w1 + more)%nat -> env w2 = env w1 ->
  reached w w2 (keys ++ key_events events) (reads + more).
Proof.
  intros ((evs & A & K) & T & E) Tr Ti En. split; [|split].
  - exists (evs ++ events). split; [|now rewrite key_events_app, K].
    unfold added in *. now rewrite Tr, A, app_assoc.
  - lia.
  - congruence.
Qed.

Lemma reached_quiet (w w1 w2 : World) keys reads :
  reached w w1 keys reads ->
  trace w2 = trace w1 -> ticks w2 = ticks w1 -> env w2 = env w1 ->
  reached w w2 keys reads.
Proof.
  intros R Tr Ti En.
  replace keys with (keys ++ key_events []) by apply app_nil_r.
  replace reads with (reads + 0)%nat by lia.
  apply (reached_step w w1 w2 _ _ [] 0 R); [now rewrite app_nil_r | lia | exact En].
Qed.

Lemma reached_trans (w w1 w2 : World) keys1 keys2 reads1 reads2 :
  reached w w1 keys1 reads1 -> reached w1 w2 keys2 reads2 ->
  reached w w2 (keys1 ++ keys2) (reads1 + reads2).
Proof.
  intros R ((evs & A & <-) & T & E).
  apply (reached_step w w1 w2 keys1 reads1 evs reads2 R A T E).
Qed.

Lemma bind_ok {A B} (m : M A) (k : A -> M B) (w : World) (b : B) (w' : World) :
  bind m k w = (OK b, w') -> exists a w1, m w = (OK a, w1) /\ k a w1 = (OK b, w').
Proof. intros R. now apply bind_inv in R as [R|(e & _ & [=])]. Qed.

Section Steps.
Context `{Ethers} `{Runtime} `{Hardhat}.

(** [loadParams] looks at the files and at the environment only. *)
Lemma loadParams_frame (w w' : World) (paramsPath : JsValue) :
  files w' = files w -> env w' = env w ->
  Deploy.loadParams w' paramsPath = Deploy.loadParams w paramsPath.
Proof.
  intros F E.
  unfold Deploy.loadParams, Deploy.paramSource, Deploy.readConfigFile, Deploy.readFromEnv.
  now rewrite F, E.
Qed.

(** The switch of network at the start of the task: it deploys nothing,
    reads no clock, writes no file. *)
Lemma switch_run (targetNetwork : JsValue) (current : string) (w w' : World) :
  (if Deploy.other_network targetNetwork current then
     if has_changeNetwork then
       console_log ("[deploy:jpycv2] switching network to " +:+ ToString targetNetwork);;
       emit (EvChangeNetwork (ToString targetNetwork));;
       let* name := lift (lib (changeNetwork (ToString targetNetwork))) in
       (fun w => (OK tt, with_network name w))
     else
       throw (JsError ("Network positional argument provided (" +:+ ToString targetNetwork
                       +:+ "), but runtime cannot switch automatically. Re-run with --network "
                       +:+ ToString targetNetwork +:+ "."))
   else ret tt) w = (OK tt, w') ->
  reached w w' [] 0 /\ files w' = files w.
Proof.
  destruct (Deploy.other_network targetNetwork current).
  - destruct has_changeNetwork; [|discriminate].
    unfold bind, console_log, emit, lift.
    destruct (lib (changeNetwork _)); [|discriminate].
    intros [= <-]. split; [|reflexivity].
    apply (reached_step w w _ [] 0
             [EvLog ("[deploy:jpycv2] switching network to " +:+ ToString targetNetwork);
              EvChangeNetwork (ToString targetNetwork)] 0 (reached_refl w));
      cbn [trace ticks env with_trace with_network]; [|lia|reflexivity].
    now rewrite <- app_assoc.
  - intros [= <-]. split; [apply reached_refl | reflexivity].
Qed.

Lemma verify_events_quiet (address : string) : key_events (verify_events address) = [].
Proof.
  unfold verify_events. destruct (negb has_verify_task); [reflexivity|].
  now destruct (lib (run_verify address)).
Qed.

Lemma lib_ok {A} (o : Outcome A) (a : A) : lib o = OK a -> o = Returns a.
Proof. destruct o; simpl; [now intros [= ->] | discriminate]. Qed.

Lemma verify_run_keys (address : string) :
  List.filter (fun e => is_deploy e || is_upgrade e) (verify_events address) = [].
Proof. apply verify_events_quiet. Qed.

Ltac unbind R a w1 S := apply bind_ok in R as (a & w1 & S & R).

Ltac read_props :=
  repeat first
    [ rewrite obj_get_set_eq
    | rewrite obj_get_set_ne by first [assumption | discriminate] ].

(** A step that only adds to the trace, or only returns a value. *)
Ltac plain S :=
  unfold console_log, emit, lift, ask, ret, Deploy.now in S;
  first [ injection S as <- <- | injection S as S <- ].

(** The optional verification inside the task. *)
Lemma verify_if_run (condition : bool) (address : string) (w : World) (u : unit) (w' : World) :
  (if condition then Deploy.verifyImplementation address else ret tt) w = (OK u, w') ->
  exists events, w' = with_trace (trace w ++ events) w
                 /\ List.filter (fun e => is_deploy e || is_upgrade e) events = [].
Proof.
  destruct condition.
  - rewrite verifyImplementation_run. intros [= _ <-].
    exists (verify_events address). split; [reflexivity | apply verify_run_keys].
  - intros [= _ <-]. exists []. split; [|reflexivity].
    destruct w. unfold with_trace. cbn. now rewrite app_nil_r.
Qed.

(** [upgradeToV2], completed. *)
Lemma upgradeToV2_run proxyAddress base verify (w : World) updated (w' : World) :
  Deploy.upgradeToV2 proxyAddress base verify w = (OK updated, w') ->
  reached w w' [upgrade_event proxyAddress] 1
  /\ network w' = network w
  /\ (exists implementation, obj_get updated "implementationV2" = VStr implementation)
  /\ obj_get updated "upgradedAt" = VStr (toISOString (ticks w))
  /\ (forall key, ~ In key upgrade_fields -> obj_get updated key = obj_get base key)
  /\ exists deployedAt,
       get (VObj updated) "deployedAt" = OK (VStr deployedAt)
       /\ files w' = <[latest_file (network w) := JSON_stringify (VObj updated)]>
                       (<[history_file (network w) deployedAt
                          := JSON_stringify (VObj updated)]> (files w)).
Proof.
  unfold Deploy.upgradeToV2. intros R.
  unbind R u1 w1 S1. plain S1.
  unbind R u2 w2 S2. plain S2.
  unbind R u3 w3 S3. plain S3.
  unbind R upgradeTx w4 S4. plain S4.
  unbind R record1 w5 S5.
  assert (P1 : exists line, w5 = with_trace (trace w ++ [EvLog "[deploy:jpycv2] upgrading proxy to FiatTokenV2";
                                                         upgrade_event proxyAddress; EvLog line]) w
               /\ forall key, key <> "upgradeTxHash" ->
                    obj_get record1 key = obj_get base key).
  { destruct upgradeTx as [tx|].
    - unbind S5 receipt w6 S6. plain S6.
      unbind S5 u7 w7 S7. plain S7. plain S5.
      eexists. unfold with_trace. cbn. rewrite <- !app_assoc. split; [reflexivity|].
      intros key N. now rewrite obj_get_set_ne.
    - unbind S5 u7 w7 S7. plain S7. plain S5.
      eexists. unfold with_trace. cbn. rewrite <- !app_assoc. split; [reflexivity|].
      reflexivity. }
  destruct P1 as (line & -> & Same).
  unbind R newImplementation w6 S6. cbv beta in S6. injection S6 as S6 <-.
  unbind R u7 w7 S7. plain S7.
  unbind R upgradedAt w8 S8. plain S8.
  unbind R u9 w9 S9. apply verify_if_run in S9 as (vevents & -> & VK).
  unbind R networkName w10 S10. plain S10.
  unbind R u11 w11 S11. plain R. destruct u11.
  apply persistDeployment_ok in S11 as (d & G & F & E & N & T & Ti).
  cbn [trace ticks env files network with_trace with_ticks] in *.
  split; [|split; [exact N|split; [|split; [|split]]]].
  - split; [|split; [rewrite Ti; lia | exact E]].
    eexists. split.
    + unfold added. rewrite T, <- !app_assoc. reflexivity.
    + unfold key_events. rewrite !List.filter_app, VK. reflexivity.
  - exists newImplementation. now read_props.
  - now read_props.
  - intros key K. unfold upgrade_fields in K. simpl in K.
    rewrite !obj_get_set_ne by (intros ->; tauto). apply Same. intros ->. tauto.
  - exists d. split; [exact G | exact F].
Qed.

(** [deploy:jpycv2], completed: what it asked of the outside, the record
    it returns, the events it added and the files it left. *)
Lemma deploy_run targetNetwork paramsPath verify v1only (w : World) record (w' : World) :
  Deploy.deploy_jpycv2 targetNetwork paramsPath verify v1only w = (OK record, w') ->
  exists deployer others params proxy tx receipt implementation fields,
    getSigners = Returns (deployer :: others)
    /\ Deploy.loadParams w paramsPath = OK params
    /\ deployProxy "FiatTokenV1" (map (obj_get params) Deploy.REQUIRED_FIELDS)
       = Returns (proxy, tx)
    /\ tx_wait tx = Returns receipt
    /\ record = VObj fields
    /\ (let base := base_record (network w') (toISOString (ticks w)) deployer
                      (transactionHash receipt) proxy implementation params in
        if v1only then fields = base
        else (exists implementation2, obj_get fields "implementationV2" = VStr implementation2)
             /\ obj_get fields "upgradedAt" = VStr (toISOString (S (ticks w)))
             /\ forall key, ~ In key upgrade_fields -> obj_get fields key = obj_get base key)
    /\ reached w w'
         (deploy_event (map (obj_get params) Deploy.REQUIRED_FIELDS)
          :: if v1only then [] else [upgrade_event proxy])
         (if v1only then 1 else 2)
    /\ files w' = <[latest_file (network w') := JSON_stringify record]>
                    (<[history_file (network w') (toISOString (ticks w))
                       := JSON_stringify record]> (files w)).
Proof.
  unfold Deploy.deploy_jpycv2. intros R.
  unbind R current w1 S1. plain S1.
  unbind R u2 w2 S2. destruct u2. apply switch_run in S2 as (Rs & Fs).
  unbind R signers w3 S3. plain S3. apply lib_ok in S3.
  destruct signers as [|deployer others]; [discriminate R|].
  unbind R params w4 S4. cbv beta in S4. injection S4 as S4 <-.
  rewrite (loadParams_frame w w2) in S4 by (assumption || apply Rs).
  unbind R u5 w5 S5. plain S5.
  unbind R u6 w6 S6. plain S6.
  unbind R u7 w7 S7. plain S7.
  unbind R deployed w8 S8. plain S8. apply lib_ok in S8. destruct deployed as [proxy tx].
  unbind R receipt w9 S9. plain S9. apply lib_ok in S9.
  unbind R implementation w10 S10. cbv beta in S10. injection S10 as S10 <-.
  unbind R u11 w11 S11. plain S11.
  unbind R timestamp w12 S12. plain S12.
  unbind R networkName w13 S13. plain S13.
  unbind R u14 w14 S14. destruct u14.
  apply persistDeployment_ok in S14 as (d & G & F & E & N & T & Ti).
  injection G as <-.
  unbind R u15 w15 S15. apply verify_if_run in S15 as (vevents & -> & VK).
  unbind R fields w16 S16. plain R.
  cbn [trace ticks env files network with_trace with_ticks] in *.
  destruct Rs as (Rs & Ts & Es). rewrite !Ts, !Nat.add_0_r in *.
  exists deployer, others, params, proxy, tx, receipt, implementation, fields.
  split; [exact S3|]. split; [exact S4|]. split; [exact S8|]. split; [exact S9|].
  split; [reflexivity|].
  assert (Before : reached w w14 [deploy_event (map (obj_get params) Deploy.REQUIRED_FIELDS)] 1).
  { apply (reached_step w w2 w14 [] 0
             [EvLog ("[deploy:jpycv2] deploying with deployer " +:+ deployer);
              deploy_event (map (obj_get params) Deploy.REQUIRED_FIELDS);
              EvLog ("[deploy:jpycv2] proxy=" +:+ proxy +:+ " implementation=" +:+ implementation)]
             1); [split; [exact Rs | split; [lia | exact Es]]| | |].
    - rewrite T, <- !app_assoc. reflexivity.
    - rewrite Ti, Ts. lia.
    - rewrite E. reflexivity. }
  assert (Verified : reached w (with_trace (trace w14 ++ vevents) w14)
                       [deploy_event (map (obj_get params) Deploy.REQUIRED_FIELDS)] 1).
  { replace [deploy_event (map (obj_get params) Deploy.REQUIRED_FIELDS)]
      with ([deploy_event (map (obj_get params) Deploy.REQUIRED_FIELDS)] ++ key_events vevents)
      by (unfold key_events; now rewrite VK).
    replace 1%nat with (1 + 0)%nat by lia.
    apply (reached_step w w14 _ _ _ vevents 0 Before); cbn [trace ticks env with_trace];
      [reflexivity | lia | reflexivity]. }
  destruct v1only; cbn [negb] in S16.
  - plain S16. cbn [network with_trace].
    rewrite N. split; [reflexivity|]. split; [exact Verified|].
    cbn [files with_trace]. rewrite F, Fs. reflexivity.
  - apply upgradeToV2_run in S16 as (Up & Nu & I2 & At & Same & (d & Gd & Fu)).
    cbn [trace ticks env files network with_trace] in *.
    rewrite Nu, N. split; [|split].
    + split; [exact I2|]. split; [rewrite At, Ti; reflexivity|]. exact Same.
    + apply (reached_trans _ _ _ _ _ _ _ Verified Up).
    + rewrite Fu, F, Fs, N.
      assert (D : d = toISOString (ticks w)).
      { unfold get in Gd. injection Gd as Gd. rewrite Same in Gd.
        - now injection Gd as <-.
        - unfold upgrade_fields. simpl. intuition discriminate. }
      rewrite D. apply map_eq. intros file.
      rewrite !lookup_insert. repeat case_decide; reflexivity.
Qed.

End Steps.

(** ** A failed deployment *)

Section Outcomes.
Context {A B : Type}.

Lemma outcome_bind (m : M A) (k : A -> M B) (P : World -> Prop)
    (R : A -> World -> Prop) (Q : B -> World -> Prop) (E : World -> Prop) :
  outcome_in m P R E -> (forall a, outcome_in (k a) (R a) Q E) ->
  outcome_in (bind m k) P Q E.
Proof.
  intros Om Ok w r w' Pw Run.
  apply bind_inv in Run as [(a & w1 & R1 & R2)|(e & R1 & ->)].
  - apply (Ok a w1 r w' (Om w (OK a) w1 Pw R1) R2).
  - apply (Om w (Throw e) w' Pw R1).
Qed.

Lemma quiet_bind (m : M A) (k : A -> M B) :
  quiet m -> (forall a, quiet (k a)) -> quiet (bind m k).
Proof.
  intros Qm Qk w r w' Run.
  apply bind_inv in Run as [(a & w1 & R1 & R2)|(e & R1 & _)]; [|now apply Qm in R1].
  apply Qm in R1 as (F1 & N1 & e1 & A1 & K1).
  apply Qk in R2 as (F2 & N2 & e2 & A2 & K2).
  split; [congruence|]. split; [congruence|].
  exists (e1 ++ e2). split; [now apply added_trans with w1|].
  now rewrite key_events_app, K1, K2.
Qed.

Lemma quiet_same (m : M A) :
  (forall w r w', m w = (r, w') ->
     files w' = files w /\ network w' = network w /\ trace w' = trace w) ->
  quiet m.
Proof.
  intros S w r w' Run. apply S in Run as (F & N & T).
  split; [exact F|]. split; [exact N|]. exists []. split; [now apply added_refl | reflexivity].
Qed.

Lemma quiet_ret (a : A) : quiet (ret a).
Proof. apply quiet_same. now intros w r w' [= _ <-]. Qed.

Lemma quiet_throw (e : Error) : quiet (@throw A e).
Proof. apply quiet_same. now intros w r w' [= _ <-]. Qed.

Lemma quiet_lift (r : Result A) : quiet (lift r).
Proof. apply quiet_same. now intros w r' w' [= _ <-]. Qed.

Lemma quiet_ask (f : World -> A) : quiet (ask f).
Proof. apply quiet_same. now intros w r w' [= _ <-]. Qed.

Lemma quiet_read (f : World -> Result A) : quiet (fun w => (f w, w)).
Proof. apply quiet_same. now intros w r w' [= _ <-]. Qed.

(** A quiet step leaves the run at the stage it was. *)
Lemma outcome_quiet (m : M A) (w0 : World) keys fs networkName (E : World -> Prop) :
  quiet m ->
  (forall w, stage w0 keys fs networkName w -> E w) ->
  outcome_in m (stage w0 keys fs networkName)
    (fun _ => stage w0 keys fs networkName) E.
Proof.
  intros Q Weak w r w' ((evs & Ad & K) & F & N) Run.
  apply Q in Run as (F' & N' & evs' & Ad' & K').
  assert (S : stage w0 keys fs networkName w').
  { split; [|split; congruence].
    exists (evs ++ evs'). split; [now apply added_trans with w|].
    now rewrite key_events_app, K, K', app_nil_r. }
  destruct r; [exact S | now apply Weak].
Qed.

(** The same, keeping a fact about the value the step returns. *)
Lemma outcome_quiet_value (m : M A) (fact : A -> Prop) (w0 : World) keys fs networkName
    (E : World -> Prop) :
  quiet m ->
  (forall w a w', m w = (OK a, w') -> fact a) ->
  (forall w, stage w0 keys fs networkName w -> E w) ->
  outcome_in m (stage w0 keys fs networkName)
    (fun a w => fact a /\ stage w0 keys fs networkName w) E.
Proof.
  intros Q V Weak w r w' S Run.
  assert (O := outcome_quiet m w0 keys fs networkName E Q Weak w r w' S Run).
  destruct r; [|exact O]. split; [now apply V in Run | exact O].
Qed.

Lemma outcome_given (m : M A) (fact : Prop) (P : World -> Prop) (R : A -> World -> Prop)
    (E : World -> Prop) :
  (fact -> outcome_in m P R E) -> outcome_in m (fun w => fact /\ P w) R E.
Proof. intros O w r w' (F & Pw). now apply O. Qed.

End Outcomes.

Lemma quiet_emit (e : Event) : key_events [e] = [] -> quiet (emit e).
Proof.
  intros K w r w' [= _ <-]. split; [reflexivity|]. split; [reflexivity|].
  exists [e]. now split.
Qed.

(** An event that counts moves the run on to the next stage. *)
Lemma outcome_emit (e : Event) (w0 : World) keys fs networkName (E : World -> Prop) :
  outcome_in (emit e) (stage w0 keys fs networkName)
    (fun _ => stage w0 (keys ++ key_events [e]) fs networkName) E.
Proof.
  intros w r w' ((evs & Ad & K) & F & N) [= <- <-].
  split; [|split; assumption].
  exists (evs ++ [e]). split; [|now rewrite key_events_app, K].
  unfold added in *. cbn [trace with_trace]. now rewrite Ad, app_assoc.
Qed.

Section FailedDeployment.
Context `{Ethers} `{Runtime} `{Hardhat}.

Lemma quiet_now : quiet Deploy.now.
Proof. apply quiet_same. now intros w r w' [= _ <-]. Qed.

Lemma quiet_verify (address : string) : quiet (Deploy.verifyImplementation address).
Proof.
  intros w r w' Run. rewrite verifyImplementation_run in Run. injection Run as _ <-.
  split; [reflexivity|]. split; [reflexivity|].
  exists (verify_events address). split; [reflexivity | apply verify_events_quiet].
Qed.

(** [persistDeployment] of a record that has its timestamp, from a stage:
    it writes the record and moves nothing else. *)
Lemma outcome_persist (w0 : World) keys fs networkName record deployedAt (E : World -> Prop) :
  get record "deployedAt" = OK (VStr deployedAt) ->
  outcome_in (Deploy.persistDeployment networkName record)
    (stage w0 keys fs networkName)
    (fun _ => stage w0 keys
                (<[latest_file networkName := JSON_stringify record]>
                   (<[history_file networkName deployedAt := JSON_stringify record]> fs))
                networkName)
    E.
Proof.
  intros G w r w' ((evs & Ad & K) & F & N) Run.
  destruct (persistDeployment_runs networkName record deployedAt w G) as (w2 & Run2).
  rewrite Run2 in Run. injection Run as <- <-.
  apply persistDeployment_ok in Run2 as (d & G' & F' & _ & N' & T & _).
  rewrite G in G'. injection G' as <-.
  split; [|split; [now rewrite F', F | congruence]].
  exists evs. split; [|exact K]. unfold added in *. congruence.
Qed.

(** Reading the network's name at a stage gives the name of the stage. *)
Lemma outcome_ask_network {B} (k : string -> M B) (w0 : World) keys fs networkName
    (Q : B -> World -> Prop) (E : World -> Prop) :
  outcome_in (k networkName) (stage w0 keys fs networkName) Q E ->
  outcome_in (let* name := ask network in k name) (stage w0 keys fs networkName) Q E.
Proof.
  intros O w r w' S Run. unfold bind, ask in Run.
  destruct S as (Ev & F & N). rewrite N in Run.
  now apply (O w r w').
Qed.

Lemma outcome_ret {A} (a : A) (P : World -> Prop) (E : World -> Prop) :
  outcome_in (ret a) P (fun _ _ => True) E.
Proof. now intros w r w' _ [= <- <-]. Qed.

Ltac quiet_steps :=
  lazymatch goal with
  | |- quiet (bind _ _) => apply quiet_bind; [quiet_steps | intros ?; quiet_steps]
  | |- quiet (ret _) => apply quiet_ret
  | |- quiet (throw _) => apply quiet_throw
  | |- quiet (lift _) => apply quiet_lift
  | |- quiet (ask _) => apply quiet_ask
  | |- quiet (console_log _) => apply quiet_emit; reflexivity
  | |- quiet (emit _) => apply quiet_emit; reflexivity
  | |- quiet Deploy.now => apply quiet_now
  | |- quiet (Deploy.verifyImplementation _) => apply quiet_verify
  | |- quiet (if ?c then _ else _) => destruct c; quiet_steps
  | |- quiet (match ?x with _ => _ end) => destruct x; quiet_steps
  | |- quiet (fun w => (_, w)) => apply quiet_read
  end.

(** A quiet step of a longer run, with what a failure there leaves. *)
Ltac pass L :=
  eapply outcome_bind;
  [ apply outcome_quiet; [quiet_steps | intros ? ?S; eapply L; eassumption]
  | cbv beta zeta ].

Lemma left_off_start (w0 w : World) networkName :
  stage w0 [] (files w0) networkName w -> left_off w0 w.
Proof.
  intros (Ev & F & _). exists []. split; [exact Ev|]. left. now split.
Qed.

Lemma left_off_deployed (w0 w : World) args networkName :
  stage w0 [deploy_event args] (files w0) networkName w -> left_off w0 w.
Proof.
  intros (Ev & F & _). exists [deploy_event args]. split; [exact Ev|].
  right; left. exists args. split; [reflexivity | now left].
Qed.

Lemma left_off_written (w0 w : World) args networkName record deployedAt :
  get record "deployedAt" = OK (VStr deployedAt) ->
  stage w0 [deploy_event args]
    (<[latest_file networkName := JSON_stringify record]>
       (<[history_file networkName deployedAt := JSON_stringify record]> (files w0)))
    networkName w ->
  left_off w0 w.
Proof.
  intros G (Ev & F & N). exists [deploy_event args]. split; [exact Ev|].
  right; left. exists args. split; [reflexivity|]. right.
  exists record, deployedAt. split; [exact G|]. now rewrite N.
Qed.

Lemma left_off_upgrading (w0 w : World) args proxy networkName record deployedAt :
  get record "deployedAt" = OK (VStr deployedAt) ->
  get record "proxy" = OK (VStr proxy) ->
  unrecorded record "implementationV2" ->
  stage w0 [deploy_event args; upgrade_event proxy]
    (<[latest_file networkName := JSON_stringify record]>
       (<[history_file networkName deployedAt := JSON_stringify record]> (files w0)))
    networkName w ->
  left_off w0 w.
Proof.
  intros G P U (Ev & F & N). exists [deploy_event args; upgrade_event proxy].
  split; [exact Ev|]. right; right. exists args, proxy, record.
  split; [reflexivity|]. split; [|now split].
  exists deployedAt. split; [exact G|]. now rewrite N.
Qed.

(** The task after the switch of network. *)
Lemma deploy_rest_outcome (w0 : World) networkName paramsPath verify v1only :
  outcome_in
    (let* signers := lift (lib getSigners) in
     match signers with
     | [] => throw (JsError "No signer available for deployment")
     | deployer :: _ =>
         let* params := (fun w => (Deploy.loadParams w paramsPath, w)) in
         lift (lib (getContractFactory "FiatTokenV1"));;
         let deployArgs := map (obj_get params) Deploy.REQUIRED_FIELDS in
         console_log ("[deploy:jpycv2] deploying with deployer " +:+ deployer);;
         emit (EvDeployProxy "FiatTokenV1" deployArgs "uups" Deploy.unsafeAllow);;
         let* (proxyAddress, deployTransaction) := lift (lib (deployProxy "FiatTokenV1" deployArgs)) in
         let* receipt := lift (lib (tx_wait deployTransaction)) in
         let* implementationAddress :=
           (fun w => (lib (getImplementationAddress (trace w) proxyAddress), w)) in
         console_log ("[deploy:jpycv2] proxy=" +:+ proxyAddress
                      +:+ " implementation=" +:+ implementationAddress);;
         let* timestamp := Deploy.now in
         let* networkName := ask network in
         let record :=
           [ ("network", VStr networkName);
             ("deployedAt", VStr timestamp);
             ("deployer", VStr deployer);
             ("txHash", VStr (transactionHash receipt));
             ("proxy", VStr proxyAddress);
             ("implementation", VStr implementationAddress);
             ("params", VObj params) ] in
         Deploy.persistDeployment networkName (VObj record);;
         (if verify && has_verify_task
          then Deploy.verifyImplementation implementationAddress else ret tt);;
         let* record := (if negb v1only then Deploy.upgradeToV2 proxyAddress record verify
                         else ret record) in
         ret (VObj record)
     end)
    (stage w0 [] (files w0) networkName)
    (fun _ _ => True)
    (left_off w0).
Proof.
  pass left_off_start. intros [|deployer others].
  { intros w r w' S [= <- <-]. now apply left_off_start with networkName. }
  pass left_off_start. intros params.
  pass left_off_start. intros _.
  pass left_off_start. intros _.
  eapply outcome_bind; [apply outcome_emit | cbv beta; intros _].
  cbn [app key_events List.filter is_deploy is_upgrade orb].
  fold (deploy_event (map (obj_get params) Deploy.REQUIRED_FIELDS)).
  pass left_off_deployed. intros [proxy tx].
  pass left_off_deployed. intros receipt.
  pass left_off_deployed. intros implementation.
  pass left_off_deployed. intros _.
  pass left_off_deployed. intros timestamp.
  apply outcome_ask_network.
  set (base := [("network", VStr networkName); ("deployedAt", VStr timestamp);
                ("deployer", VStr deployer); ("txHash", VStr (transactionHash receipt));
                ("proxy", VStr proxy); ("implementation", VStr implementation);
                ("params", VObj params)]).
  assert (G : get (VObj base) "deployedAt" = OK (VStr timestamp)) by reflexivity.
  assert (P : get (VObj base) "proxy" = OK (VStr proxy)) by reflexivity.
  assert (U : unrecorded (VObj base) "implementationV2") by reflexivity.
  assert (W := fun w args => left_off_written w0 w args networkName (VObj base) timestamp G).
  assert (V := fun w args =>
                 left_off_upgrading w0 w args proxy networkName (VObj base) timestamp G P U).
  eapply outcome_bind; [apply (outcome_persist _ _ _ _ _ _ _ G) | cbv beta; intros _].
  pass W. intros _.
  apply outcome_bind with (R := fun _ _ => True); [|intros ?; apply outcome_ret].
  destruct v1only; cbn [negb]; [apply outcome_ret|].
  unfold Deploy.upgradeToV2.
  pass W. intros _.
  pass W. intros _.
  eapply outcome_bind; [apply outcome_emit | cbv beta; intros _].
  cbn [app key_events List.filter is_deploy is_upgrade orb].
  fold (upgrade_event proxy).
  pass V. intros upgradeTx.
  eapply outcome_bind;
    [ apply (outcome_quiet_value _ (fun updated => get (VObj updated) "deployedAt"
                                                   = OK (VStr timestamp)));
      [ quiet_steps | | intros ? ?S; eapply V; eassumption ]
    | cbv beta; intros updated; apply outcome_given; intros D ].
  { intros w updated w'. destruct upgradeTx as [upgradeTx|].
    - unfold bind, lift, console_log, emit, ret.
      destruct (lib (tx_wait upgradeTx)); [|discriminate]. now intros [= <- _].
    - unfold bind, console_log, emit, ret. now intros [= <- _]. }
  pass V. intros implementation2.
  pass V. intros _.
  pass V. intros upgradedAt.
  pass V. intros _.
  apply outcome_ask_network.
  eapply outcome_bind; [|intros ?; apply outcome_ret].
  apply outcome_persist with (deployedAt := timestamp).
  unfold get in D |- *. injection D as D.
  now rewrite !obj_get_set_ne, D by discriminate.
Qed.

(** The switch of the network, whatever its outcome. *)
Lemma switch_outcome (targetNetwork : JsValue) (current : string) (w : World) r (w' : World) :
  (if Deploy.other_network targetNetwork current then
     if has_changeNetwork then
       console_log ("[deploy:jpycv2] switching network to " +:+ ToString targetNetwork);;
       emit (EvChangeNetwork (ToString targetNetwork));;
       let* name := lift (lib (changeNetwork (ToString targetNetwork))) in
       (fun w => (OK tt, with_network name w))
     else
       throw (JsError ("Network positional argument provided (" +:+ ToString targetNetwork
                       +:+ "), but runtime cannot switch automatically. Re-run with --network "
                       +:+ ToString targetNetwork +:+ "."))
   else ret tt) w = (r, w') ->
  files w' = files w /\ exists events, added w w' events /\ key_events events = [].
Proof.
  destruct (Deploy.other_network targetNetwork current).
  - destruct has_changeNetwork.
    + unfold bind, console_log, emit, lift.
      destruct (lib (changeNetwork _)); intros [= _ <-]; (split; [reflexivity|]);
        exists [EvLog ("[deploy:jpycv2] switching network to " +:+ ToString targetNetwork);
                EvChangeNetwork (ToString targetNetwork)];
        (split; [|reflexivity]); unfold added; cbn [trace with_trace with_network];
        now rewrite <- app_assoc.
    + intros [= _ <-]. split; [reflexivity|]. exists []. split; [now apply added_refl | reflexivity].
  - intros [= _ <-]. split; [reflexivity|]. exists []. split; [now apply added_refl | reflexivity].
Qed.

(** Where a failed run of the task has left things. *)
Lemma deploy_failure targetNetwork paramsPath verify v1only (w : World) e (w' : World) :
  Deploy.deploy_jpycv2 targetNetwork paramsPath verify v1only w = (Throw e, w') ->
  left_off w w'.
Proof.
  unfold Deploy.deploy_jpycv2. intros Run.
  apply bind_inv in Run as [(current & w1 & R1 & Run)|(? & [=] & _)].
  injection R1 as <- <-.
  apply bind_inv in Run as [(u & w2 & R2 & Run)|(e2 & R2 & _)].
  - apply switch_outcome in R2 as (F & Ev).
    refine (deploy_rest_outcome w (network w2) paramsPath verify v1only w2 (Throw e) w' _ Run).
    split; [exact Ev|]. now split.
  - apply switch_outcome in R2 as (F & Ev).
    exists []. split; [exact Ev|]. left. now split.
Qed.

End FailedDeployment.

(** ** What a run of the task leaves behind *)

Lemma key_events_In (events : list Event) (e : Event) :
  In e (key_events events) <-> In e events /\ is_deploy e || is_upgrade e = true.
Proof. unfold key_events. apply filter_In. Qed.

Section Deployment.
Context `{Ethers} `{Runtime} `{Hardhat}.

(** The record of a completed run is the one built after the deployment,
    but for what the upgrade writes into it. *)
Lemma deploy_run_fields (v1only : bool) (fields base : list (string * JsValue))
    (upgradedAt : string) :
  (if v1only then fields = base
   else (exists implementation2, obj_get fields "implementationV2" = VStr implementation2)
        /\ obj_get fields "upgradedAt" = VStr upgradedAt
        /\ forall key, ~ In key upgrade_fields -> obj_get fields key = obj_get base key) ->
  forall key, ~ In key upgrade_fields -> obj_get fields key = obj_get base key.
Proof. destruct v1only; [now intros -> | now intros (_ & _ & S)]. Qed.

Ltac base_field S key :=
  rewrite (S key) by (cbn [In upgrade_fields]; intros N; repeat destruct N as [N|N];
                      try discriminate N; exact N);
  reflexivity.

(** X13. The record that a completed run of [deploy:jpycv2] returns names
    what the run worked with: the first signer as the deployer, the
    parameters [loadParams] gave for the files and the environment the run
    started with, the proxy that [deployProxy] returned for those
    parameters in the order of [REQUIRED_FIELDS], the hash of the receipt
    of the deployment, and the network the run ended on. *)
Theorem deploy_record_sources targetNetwork paramsPath verify v1only
    (w : World) record (w' : World) :
  Deploy.deploy_jpycv2 targetNetwork paramsPath verify v1only w = (OK record, w') ->
  exists deployer others params proxy tx receipt,
    getSigners = Returns (deployer :: others)
    /\ Deploy.loadParams w paramsPath = OK params
    /\ deployProxy "FiatTokenV1" (map (obj_get params) Deploy.REQUIRED_FIELDS)
       = Returns (proxy, tx)
    /\ tx_wait tx = Returns receipt
    /\ get record "deployer" = OK (VStr deployer)
    /\ get record "params" = OK (VObj params)
    /\ get record "proxy" = OK (VStr proxy)
    /\ get record "txHash" = OK (VStr (transactionHash receipt))
    /\ get record "network" = OK (VStr (network w')).
Proof.
  intros Run.
  apply deploy_run in Run
    as (deployer & others & params & proxy & tx & receipt & implementation & fields
        & Sg & Lp & Dp & Tw & -> & Fd & _ & _).
  cbv zeta in Fd; pose proof (deploy_run_fields _ _ _ _ Fd) as Bs.
  exists deployer, others, params, proxy, tx, receipt.
  split; [exact Sg|]. split; [exact Lp|]. split; [exact Dp|]. split; [exact Tw|].
  unfold get. split; [|split; [|split; [|split]]]; f_equal.
  - base_field Bs "deployer".
  - base_field Bs "params".
  - base_field Bs "proxy".
  - base_field Bs "txHash".
  - base_field Bs "network".
Qed.

(** X14. In a completed run the deployment comes first, made with the
    parameters of the record in the order of [REQUIRED_FIELDS]; without
    [v1only] the one upgrade follows it, and it is the upgrade of the proxy
    of the record; with [v1only] nothing follows. *)
Theorem deploy_before_upgrade targetNetwork paramsPath verify v1only
    (w : World) record (w' : World) :
  Deploy.deploy_jpycv2 targetNetwork paramsPath verify v1only w = (OK record, w') ->
  exists params proxy events,
    get record "params" = OK (VObj params)
    /\ get record "proxy" = OK (VStr proxy)
    /\ added w w' events
    /\ key_events events
       = deploy_event (map (obj_get params) Deploy.REQUIRED_FIELDS)
         :: if v1only then [] else [upgrade_event proxy].
Proof.
  intros Run.
  apply deploy_run in Run
    as (deployer & others & params & proxy & tx & receipt & implementation & fields
        & _ & _ & _ & _ & -> & Fd & ((events & Ad & Ks) & _) & _).
  cbv zeta in Fd; pose proof (deploy_run_fields _ _ _ _ Fd) as Bs.
  exists params, proxy, events.
  unfold get. split; [|split; [|split; [exact Ad | exact Ks]]]; f_equal.
  - base_field Bs "params".
  - base_field Bs "proxy".
Qed.

(** X15. A completed run reads the clock once for [deployedAt] and, unless
    [v1only], once more for [upgradedAt]: [deployedAt] is the first reading
    after the start, [upgradedAt] the one after it, and the clock is read
    at no other time. *)
Theorem deploy_clock targetNetwork paramsPath verify v1only
    (w : World) record (w' : World) :
  Deploy.deploy_jpycv2 targetNetwork paramsPath verify v1only w = (OK record, w') ->
  get record "deployedAt" = OK (VStr (toISOString (ticks w)))
  /\ if v1only then ticks w' = S (ticks w)
     else get record "upgradedAt" = OK (VStr (toISOString (S (ticks w))))
          /\ ticks w' = S (S (ticks w)).
Proof.
  intros Run.
  apply deploy_run in Run
    as (deployer & others & params & proxy & tx & receipt & implementation & fields
        & _ & _ & _ & _ & -> & Fd & (_ & Tk & _) & _).
  split.
  - cbv zeta in Fd; pose proof (deploy_run_fields _ _ _ _ Fd) as Bs. unfold get. f_equal. base_field Bs "deployedAt".
  - destruct v1only; [lia|].
    destruct Fd as (_ & Up & _). unfold get. rewrite Up. split; [reflexivity | lia].
Qed.

(** X16. A completed run leaves two files changed and no more: the latest
    file of the network and the history file named after [deployedAt],
    both holding the record the run returns.  So after an upgrade the
    history file holds the upgraded record as well: the run writes no
    third file for the record as it was before the upgrade.  The
    environment is as before. *)
Theorem deploy_files targetNetwork paramsPath verify v1only
    (w : World) record (w' : World) :
  Deploy.deploy_jpycv2 targetNetwork paramsPath verify v1only w = (OK record, w') ->
  exists deployedAt,
    get record "deployedAt" = OK (VStr deployedAt)
    /\ files w' !! latest_file (network w') = Some (JSON_stringify record)
    /\ files w' !! history_file (network w') deployedAt = Some (JSON_stringify record)
    /\ (forall file, file <> latest_file (network w') ->
                     file <> history_file (network w') deployedAt ->
                     files w' !! file = files w !! file)
    /\ env w' = env w.
Proof.
  intros Run.
  apply deploy_run in Run
    as (deployer & others & params & proxy & tx & receipt & implementation & fields
        & _ & _ & _ & _ & -> & Fd & (_ & _ & En) & Fs).
  cbv zeta in Fd; pose proof (deploy_run_fields _ _ _ _ Fd) as Bs.
  exists (toISOString (ticks w)).
  split; [unfold get; f_equal; base_field Bs "deployedAt"|].
  rewrite Fs. split; [|split; [|split; [|exact En]]].
  - rewrite lookup_insert. now case_decide.
  - rewrite !lookup_insert. now repeat case_decide.
  - intros file L Hi. rewrite !lookup_insert. repeat case_decide; congruence.
Qed.

(** X17. A run of [deploy:jpycv2], whatever its outcome, that has written
    a file has invoked the deployment: a run that fails before the
    deployment leaves every file as it was. *)
Theorem deploy_writes_after_deployment targetNetwork paramsPath verify v1only
    (w : World) r (w' : World) :
  Deploy.deploy_jpycv2 targetNetwork paramsPath verify v1only w = (r, w') ->
  files w' = files w
  \/ exists events args, added w w' events /\ In (deploy_event args) events.
Proof.
  intros Run. destruct r as [record|e].
  - right.
    apply deploy_run in Run
      as (deployer & others & params & proxy & tx & receipt & implementation & fields
          & _ & _ & _ & _ & _ & _ & ((events & Ad & Ks) & _) & _).
    exists events, (map (obj_get params) Deploy.REQUIRED_FIELDS). split; [exact Ad|].
    apply (key_events_In events). rewrite Ks. now left.
  - apply deploy_failure in Run as (keys & (events & Ad & Ks) & [(_ & F)|[D|U]]).
    + now left.
    + right. destruct D as (args & -> & _). exists events, args. split; [exact Ad|].
      apply (key_events_In events). rewrite Ks. now left.
    + right. destruct U as (args & proxy & record & -> & _). exists events, args.
      split; [exact Ad|]. apply (key_events_In events). rewrite Ks. now left.
Qed.

(** X18. Once a run of [deploy:jpycv2] has invoked the upgrade of a proxy,
    the record of that proxy is the latest on file for the network,
    whatever happens next; if the run then fails, the record on file is
    the one of the deployment, without [implementationV2]. *)
Theorem upgrade_after_record targetNetwork paramsPath verify v1only
    (w : World) r (w' : World) events proxy :
  Deploy.deploy_jpycv2 targetNetwork paramsPath verify v1only w = (r, w') ->
  added w w' events ->
  In (upgrade_event proxy) events ->
  exists record,
    on_file record w'
    /\ get record "proxy" = OK (VStr proxy)
    /\ (fails r -> unrecorded record "implementationV2").
Proof.
  intros Run Ad Up.
  assert (K : In (upgrade_event proxy) (key_events events))
    by now apply key_events_In.
  destruct r as [record|e].
  - apply deploy_run in Run
      as (deployer & others & params & proxy' & tx & receipt & implementation & fields
          & _ & _ & _ & _ & -> & Fd & ((events' & Ad' & Ks) & _) & Fs).
    unfold added in Ad, Ad'. rewrite Ad in Ad'. apply app_inv_head in Ad' as <-.
    rewrite Ks in K.
    cbv zeta in Fd; pose proof (deploy_run_fields _ _ _ _ Fd) as Bs.
    destruct v1only.
    { destruct K as [[=]|[]]. }
    destruct K as [[=]|[[= <-]|[]]].
    exists (VObj fields). split; [|split].
    + unfold on_file. rewrite Fs, lookup_insert. now case_decide.
    + unfold get. f_equal. base_field Bs "proxy".
    + intros (e & [=]).
  - apply deploy_failure in Run as (keys & (events' & Ad' & Ks) & Stage).
    unfold added in Ad, Ad'. rewrite Ad in Ad'. apply app_inv_head in Ad' as <-.
    rewrite Ks in K.
    destruct Stage as [(-> & _)|[(args & -> & _)|(args & proxy' & record & -> & Wr & P & U)]].
    + destruct K.
    + destruct K as [[=]|[]].
    + destruct K as [[=]|[[= <-]|[]]].
      exists record. split; [|split; [exact P | now intros _]].
      destruct Wr as (deployedAt & _ & Fs).
      unfold on_file. rewrite Fs, lookup_insert. now case_decide.
Qed.

End Deployment.


(** ** The further properties on the reference environment *)

Section FurtherOnReference.
Import Reference.

(** [name] is read from [TOKEN_NAME]; a field that is no parameter is not
    set. *)
Lemma readFromEnv_fields_witness :
  get (Deploy.readFromEnv Sample.with_params) "name"
  = OK (getenv Sample.with_params "TOKEN_NAME")
  /\ get (Deploy.readFromEnv Sample.with_params) "salt" = get (VObj []) "salt".
Proof.
  destruct (readFromEnv_fields Sample.with_params "name") as (A & _).
  destruct (readFromEnv_fields Sample.with_params "salt") as (_ & B).
  split.
  - apply A. now left.
  - apply B. cbn [map fst Deploy.ENV_KEYS In].
    intros I. repeat destruct I as [I|I]; try discriminate I. exact I.
Defined.

(** The parameters of the sample environment are loaded. *)
Lemma loadParams_fields_witness :
  exists params props d checksum,
    Deploy.loadParams Sample.with_params VUndefined = OK params
    /\ Deploy.paramSource Sample.with_params VUndefined = OK (VObj props)
    /\ valid_source props d checksum
    /\ forall key, obj_get params key = normalized_field props d checksum key.
Proof.
  destruct (Deploy.loadParams Sample.with_params VUndefined) as [params|e] eqn:L.
  - destruct (loadParams_fields Sample.with_params VUndefined params L)
      as (props & d & checksum & P & V & N).
    exists params, props, d, checksum.
    split; [reflexivity|]. split; [exact P|]. split; [exact V | exact N].
  - exfalso. vm_compute in L. discriminate L.
Defined.

(** The first parameter missing from the sample is the rescuer, though
    the owner is blank as well. *)
Lemma loadParams_first_missing_witness :
  Deploy.loadParams Sample.no_rescuer VUndefined
  = Throw (JsError (missing_message false "rescuer")).
Proof.
  apply (loadParams_first_missing Sample.no_rescuer VUndefined
           Sample.no_rescuer_source VUndefined "rescuer"
           ["name"; "symbol"; "currency"; "decimals"; "minterAdmin"; "pauser"; "blocklister"]
           ["owner"]).
  - vm_compute. reflexivity.
  - reflexivity.
  - intros f I. cbn [In] in I.
    repeat (destruct I as [<-|I];
            [eexists; split; [reflexivity | intros [X|[X|X]]; discriminate X]|]).
    destruct I.
  - reflexivity.
  - now left.
Defined.

(** A parameter file that does not exist; and a run that has only logged
    a line loads the same parameters from the environment. *)
Lemma loadParams_one_source_witness :
  Deploy.loadParams Sample.fresh (VStr "params.json")
  = Throw (LibError ("ENOENT: no such file or directory, open '"
                     +:+ path_resolve_cwd "params.json" +:+ "'"))
  /\ Deploy.loadParams Sample.with_params VUndefined
     = Deploy.loadParams (with_trace [EvLog "line"] Sample.with_params) VUndefined.
Proof.
  destruct (loadParams_one_source Sample.fresh Sample.fresh (VStr "params.json"))
    as (A & _).
  destruct (A eq_refl) as (_ & B & _).
  destruct (loadParams_one_source Sample.with_params
              (with_trace [EvLog "line"] Sample.with_params) VUndefined) as (_ & C).
  split.
  - apply B. reflexivity.
  - apply C; reflexivity.
Defined.

Lemma history_timestamp_colon_free_witness :
  colon_free "2025-01-01T00-00-00.000Z" = true
  /\ exists deployedAt,
       get Sample.record "deployedAt" = OK (VStr deployedAt)
       /\ String.length "2025-01-01T00-00-00.000Z" = String.length deployedAt.
Proof.
  apply (history_timestamp_colon_free Sample.record "2025-01-01T00-00-00.000Z").
  reflexivity.
Defined.

(** A record without [deployedAt] is not persisted. *)
Lemma persistDeployment_needs_timestamp_witness :
  exists message w',
    Deploy.persistDeployment "hardhat" (VObj [("proxy", VStr Sample.proxy_address)])
      Sample.fresh
    = (Throw (TypeError message), w')
    /\ files w' = files Sample.fresh.
Proof.
  apply (persistDeployment_needs_timestamp Sample.fresh "hardhat"
           (VObj [("proxy", VStr Sample.proxy_address)])).
  intros deployedAt. simpl. discriminate.
Defined.

(** The record of the deployment and then the upgraded one. *)
Lemma persistDeployment_overwrites_witness :
  files (snd (Deploy.persistDeployment "hardhat" Sample.upgraded_record
                (snd (Deploy.persistDeployment "hardhat" Sample.record Sample.fresh))))
  = files (snd (Deploy.persistDeployment "hardhat" Sample.upgraded_record Sample.fresh)).
Proof.
  assert (G1 : get Sample.record "deployedAt" = OK (VStr "2025-01-01T00:00:00.000Z"))
    by reflexivity.
  assert (G2 : get Sample.upgraded_record "deployedAt" = OK (VStr "2025-01-01T00:00:00.000Z"))
    by reflexivity.
  destruct (persistDeployment_runs "hardhat" Sample.record _ Sample.fresh G1) as (w1 & R1).
  rewrite R1. cbn [snd].
  destruct (persistDeployment_runs "hardhat" Sample.upgraded_record _ w1 G2) as (w2 & R2).
  destruct (persistDeployment_runs "hardhat" Sample.upgraded_record _ Sample.fresh G2)
    as (w2' & R2').
  rewrite R2, R2'. cbn [snd].
  apply (persistDeployment_overwrites Sample.fresh w1 w2 w2' "hardhat"
           Sample.record Sample.upgraded_record); [reflexivity | exact R1 | exact R2 | exact R2'].
Defined.

(** Minting, transferring and burning five tokens. *)
Lemma actions_make_one_call_witness :
  one_call (Actions.mint (VStr Sample.proxy_address) (VStr Sample.other_address)
              (VStr "5") VUndefined false Sample.fresh)
    Sample.fresh Sample.proxy_address "mint"
    [ArgAddress Sample.other_address; ArgAmount 5000000000000000000]
  /\ one_call (Actions.transfer (VStr Sample.proxy_address) (VStr Sample.other_address)
                 (VStr "5") VUndefined false Sample.fresh)
       Sample.fresh Sample.proxy_address "transfer"
       [ArgAddress Sample.other_address; ArgAmount 5000000000000000000]
  /\ one_call (Actions.burn (VStr Sample.proxy_address) (VStr "5") VUndefined false
                 Sample.fresh)
       Sample.fresh Sample.proxy_address "burn" [ArgAmount 5000000000000000000].
Proof.
  destruct (actions_make_one_call Sample.fresh (VStr Sample.proxy_address)
              (VStr Sample.other_address) (VStr "5") VUndefined false
              Sample.proxy_address Sample.other_address 5000000000000000000)
    as (A & B); [reflexivity | reflexivity | reflexivity |].
  destruct (A eq_refl) as (Mint & Transfer).
  split; [|split].
  - apply Mint. vm_compute. tauto.
  - apply Transfer. vm_compute. tauto.
  - destruct B as (Burn & _); [vm_compute; tauto|].
    apply (Burn "0xfB6916095ca1df60bB79Ce92cE3Ea74c37c5d359"). reflexivity.
Defined.

(** Configuring and removing a minter. *)
Lemma admin_make_one_call_witness :
  one_call (Admin.configure_minter (VStr Sample.proxy_address) (VStr Sample.other_address)
              (VStr "7") Sample.fresh)
    Sample.fresh Sample.proxy_address "configureMinter"
    [ArgAddress Sample.other_address; ArgAmount 7]
  /\ one_call (Admin.remove_minter (VStr Sample.proxy_address) (VStr Sample.other_address)
                 Sample.fresh)
       Sample.fresh Sample.proxy_address "removeMinter" [ArgAddress Sample.other_address].
Proof.
  destruct (admin_make_one_call Sample.fresh (VStr Sample.proxy_address)
              (VStr Sample.other_address) (VStr "7")
              Sample.proxy_address Sample.other_address 7)
    as (A & B); [reflexivity | reflexivity | reflexivity |].
  split.
  - apply A; [reflexivity | vm_compute; tauto].
  - apply B. vm_compute. tauto.
Defined.

(** The role [ Owner ] is the owner's. *)
Lemma update_roles_calls_mapped_witness :
  one_call (Admin.update_roles (VStr Sample.proxy_address) " Owner "
              (VStr Sample.other_address) Sample.fresh)
    Sample.fresh Sample.proxy_address "transferOwnership" [ArgAddress Sample.other_address].
Proof.
  apply (update_roles_calls_mapped Sample.fresh (VStr Sample.proxy_address)
           (VStr Sample.other_address) " Owner " Sample.proxy_address Sample.other_address
           "transferOwnership"); [reflexivity | reflexivity | reflexivity | reflexivity |].
  vm_compute. tauto.
Defined.

(** A completed run, with the upgrade, from the parameters in the
    environment. *)
Ltac completed R :=
  match type of R with
  | _ = (?r, ?w') =>
      let E := fresh "E" in
      assert (E : exists record, r = OK record)
        by (change r with (fst (r, w')); rewrite <- R; vm_compute; eauto);
      destruct E as (? & ->)
  end.

Lemma deploy_record_sources_witness :
  exists record w' deployer others params proxy tx receipt,
    Deploy.deploy_jpycv2 VUndefined VUndefined false false Sample.with_params
    = (OK record, w')
    /\ getSigners = Returns (deployer :: others)
    /\ Deploy.loadParams Sample.with_params VUndefined = OK params
    /\ deployProxy "FiatTokenV1" (map (obj_get params) Deploy.REQUIRED_FIELDS)
       = Returns (proxy, tx)
    /\ tx_wait tx = Returns receipt
    /\ get record "deployer" = OK (VStr deployer)
    /\ get record "params" = OK (VObj params)
    /\ get record "proxy" = OK (VStr proxy)
    /\ get record "txHash" = OK (VStr (transactionHash receipt))
    /\ get record "network" = OK (VStr (network w')).
Proof.
  destruct (Deploy.deploy_jpycv2 VUndefined VUndefined false false Sample.with_params)
    as [r w'] eqn:R.
  completed R.
  destruct (deploy_record_sources _ _ _ _ _ _ _ R)
    as (deployer & others & params & proxy & tx & receipt & S).
  exists x, w', deployer, others, params, proxy, tx, receipt.
  split; [reflexivity | exact S].
Defined.

Lemma deploy_before_upgrade_witness :
  exists record w' params proxy events,
    Deploy.deploy_jpycv2 VUndefined VUndefined false false Sample.with_params
    = (OK record, w')
    /\ get record "params" = OK (VObj params)
    /\ get record "proxy" = OK (VStr proxy)
    /\ added Sample.with_params w' events
    /\ key_events events
       = [deploy_event (map (obj_get params) Deploy.REQUIRED_FIELDS); upgrade_event proxy].
Proof.
  destruct (Deploy.deploy_jpycv2 VUndefined VUndefined false false Sample.with_params)
    as [r w'] eqn:R.
  completed R.
  destruct (deploy_before_upgrade _ _ _ _ _ _ _ R) as (params & proxy & events & S).
  exists x, w', params, proxy, events. split; [reflexivity | exact S].
Defined.

Lemma deploy_clock_witness :
  exists record w',
    Deploy.deploy_jpycv2 VUndefined VUndefined false false Sample.with_params
    = (OK record, w')
    /\ get record "deployedAt" = OK (VStr (toISOString (ticks Sample.with_params)))
    /\ get record "upgradedAt" = OK (VStr (toISOString (S (ticks Sample.with_params))))
    /\ ticks w' = S (S (ticks Sample.with_params)).
Proof.
  destruct (Deploy.deploy_jpycv2 VUndefined VUndefined false false Sample.with_params)
    as [r w'] eqn:R.
  completed R.
  destruct (deploy_clock _ _ _ _ _ _ _ R) as (D & U & T).
  exists x, w'. split; [reflexivity|]. split; [exact D|]. split; [exact U | exact T].
Defined.

Lemma deploy_files_witness :
  exists record w' deployedAt,
    Deploy.deploy_jpycv2 VUndefined VUndefined false false Sample.with_params
    = (OK record, w')
    /\ get record "deployedAt" = OK (VStr deployedAt)
    /\ files w' !! latest_file (network w') = Some (JSON_stringify record)
    /\ files w' !! history_file (network w') deployedAt = Some (JSON_stringify record)
    /\ (forall file, file <> latest_file (network w') ->
                     file <> history_file (network w') deployedAt ->
                     files w' !! file = files Sample.with_params !! file)
    /\ env w' = env Sample.with_params.
Proof.
  destruct (Deploy.deploy_jpycv2 VUndefined VUndefined false false Sample.with_params)
    as [r w'] eqn:R.
  completed R.
  destruct (deploy_files _ _ _ _ _ _ _ R) as (deployedAt & S).
  exists x, w', deployedAt. split; [reflexivity | exact S].
Defined.

(** Without parameters the task fails, and has written nothing. *)
Lemma deploy_writes_after_deployment_witness :
  exists r w',
    Deploy.deploy_jpycv2 VUndefined VUndefined false false Sample.fresh = (r, w')
    /\ (files w' = files Sample.fresh
        \/ exists events args, added Sample.fresh w' events /\ In (deploy_event args) events).
Proof.
  destruct (Deploy.deploy_jpycv2 VUndefined VUndefined false false Sample.fresh)
    as [r w'] eqn:R.
  exists r, w'. split; [reflexivity|].
  exact (deploy_writes_after_deployment _ _ _ _ _ _ _ R).
Defined.

Lemma upgrade_after_record_witness :
  exists r w' events proxy record,
    Deploy.deploy_jpycv2 VUndefined VUndefined false false Sample.with_params = (r, w')
    /\ added Sample.with_params w' events
    /\ In (upgrade_event proxy) events
    /\ on_file record w'
    /\ get record "proxy" = OK (VStr proxy)
    /\ (fails r -> unrecorded record "implementationV2").
Proof.
  destruct (Deploy.deploy_jpycv2 VUndefined VUndefined false false Sample.with_params)
    as [r w'] eqn:R.
  completed R.
  destruct (deploy_run _ _ _ _ _ _ _ R)
    as (deployer & others & params & proxy & tx & receipt & implementation & fields
        & _ & _ & _ & _ & _ & _ & ((events & Ad & Ks) & _) & _).
  assert (Up : In (upgrade_event proxy) events).
  { apply (key_events_In events). rewrite Ks. right. now left. }
  destruct (upgrade_after_record _ _ _ _ _ _ _ events proxy R Ad Up) as (record & O & P & U).
  exists (OK x), w', events, proxy, record.
  split; [reflexivity|]. split; [exact Ad|]. split; [exact Up|].
  split; [exact O|]. split; [exact P | exact U].
Defined.

End FurtherOnReference.
